(** * Vendor MCP clients: token lifecycle, request dispatch, schema catalog

    A shallow embedding of the TypeScript clients and tool handlers of the
    repository (NinjaOne, ConnectWise RMM, HaloPSA and HaloPSA reporting).

    Conventions of the embedding:
    - JavaScript strings are [string]s of 8-bit characters; [toLowerCase] and
      [toUpperCase] act on the ASCII letters, and white space is the ASCII
      white space.  Text outside ASCII is outside the model.
    - The numbers inside JSON values are integers ([Z]); instants are
      milliseconds since the epoch.  A parameter declared [number] that the
      code compares or caps is a [Number]: a fraction, an infinity or NaN.
    - A JavaScript object is the list of its own enumerable properties in
      [Object.entries] order.
    - A [throw] is the [Throw] constructor of the [Result] type; a rejected
      promise is modelled the same way. *)

From Stdlib Require Import ZArith List Bool Ascii String Lia DecimalString.
From Stdlib Require Import QArith Qround.
From Stdlib Require Import Sorting.Sorted Sorting.Permutation.
Close Scope Q_scope.
Import ListNotations.
Open Scope string_scope.
Set Warnings "-register-all".

(** ** Strings as the source uses them *)

Module Str.

Definition lower_char (c : ascii) : ascii :=
  let n := nat_of_ascii c in
  if (65 <=? n)%nat && (n <=? 90)%nat then ascii_of_nat (n + 32) else c.

Definition upper_char (c : ascii) : ascii :=
  let n := nat_of_ascii c in
  if (97 <=? n)%nat && (n <=? 122)%nat then ascii_of_nat (n - 32) else c.

Fixpoint toLowerCase (s : string) : string :=
  match s with
  | EmptyString => EmptyString
  | String c s' => String (lower_char c) (toLowerCase s')
  end.

Fixpoint toUpperCase (s : string) : string :=
  match s with
  | EmptyString => EmptyString
  | String c s' => String (upper_char c) (toUpperCase s')
  end.

(** [startsWith s t] is [s.startsWith(t)]. *)
Fixpoint startsWith (s t : string) : bool :=
  match t, s with
  | EmptyString, _ => true
  | String _ _, EmptyString => false
  | String a t', String b s' => Ascii.eqb a b && startsWith s' t'
  end.

(** [includes s t] is [s.includes(t)]. *)
Fixpoint includes (s t : string) : bool :=
  startsWith s t ||
  match s with
  | EmptyString => false
  | String _ s' => includes s' t
  end.

(** [join sep l] is [l.join(sep)] on an array of strings. *)
Fixpoint join (sep : string) (l : list string) : string :=
  match l with
  | [] => ""
  | [x] => x
  | x :: rest => x ++ sep ++ join sep rest
  end.

(** [s.replace(/'/g, "''")]. *)
Fixpoint escapeQuotes (s : string) : string :=
  match s with
  | EmptyString => EmptyString
  | String c s' =>
      if Ascii.eqb c "'"%char
      then String "'"%char (String "'"%char (escapeQuotes s'))
      else String c (escapeQuotes s')
  end.

(** White space recognised by [\s] within ASCII: tab, line feed, vertical
    tab, form feed, carriage return and space. *)
Definition is_space (c : ascii) : bool :=
  let n := nat_of_ascii c in
  ((9 <=? n)%nat && (n <=? 13)%nat) || (n =? 32)%nat.

(** [splitWs s] is [s.split(/\s+/)]: a maximal run of white space is one
    separator; a leading or trailing run leaves an empty first or last
    piece.  [cur] is the piece being read, [in_sep] tells that the previous
    character was white space. *)
Fixpoint splitWs_go (s : string) (cur : string) (in_sep : bool) : list string :=
  match s with
  | EmptyString => [cur]
  | String c s' =>
      if is_space c
      then if in_sep then splitWs_go s' cur true
           else cur :: splitWs_go s' "" true
      else splitWs_go s' (cur ++ String c "") false
  end.

Definition splitWs (s : string) : list string := splitWs_go s "" false.

(** The one-character string made of a double quote. *)
Definition dquote : string := String (ascii_of_nat 34) EmptyString.

(** The one-character string made of a line feed. *)
Definition nl : string := String (ascii_of_nat 10) EmptyString.

Definition string_of_nat (n : nat) : string :=
  NilZero.string_of_uint (Nat.to_uint n).

Definition string_of_Z (z : Z) : string :=
  NilZero.string_of_int (Z.to_int z).

End Str.

Import Str.

(** ** The ordered rule table of the specification *)

(** A rule is a marker substring and the category it assigns. *)
Definition Rule : Type := string * string.

(** The specification's [categorize]: rules are tried top to bottom, the first
    one whose marker occurs in the path wins, and no match gives "Other". *)
Fixpoint first_match (rules : list Rule) (path : string) : string :=
  match rules with
  | [] => "Other"
  | (marker, category) :: rest =>
      if includes path marker then category else first_match rest path
  end.

Module NinjaOne.

(** [NinjaOneClient.categorizeApiPath]: the cascade of the source. *)
Definition categorizeApiPath (path : string) : string :=
  if includes path "/device" then "Device Management"
  else if includes path "/organization" then "Organization Management"
  else if includes path "/alert" then "Alert Management"
  else if includes path "/policy" || includes path "/policies"
       then "Policy Management"
  else if includes path "/software" then "Software Management"
  else if includes path "/patch" then "Patch Management"
  else if includes path "/script" then "Script Management"
  else if includes path "/job" then "Job Management"
  else if includes path "/maintenance" then "Maintenance Management"
  else if includes path "/backup" then "Backup Management"
  else if includes path "/antivirus" then "Antivirus Management"
  else if includes path "/user" then "User Management"
  else if includes path "/location" then "Location Management"
  else if includes path "/activity" || includes path "/activities"
       then "Activity Management"
  else if includes path "/webhook" then "Webhook Management"
  else "Other".

(** The same cascade read as a rule table; a disjunction of two markers is
    two consecutive rules of one category. *)
Definition rules : list Rule :=
  [ ("/device", "Device Management");
    ("/organization", "Organization Management");
    ("/alert", "Alert Management");
    ("/policy", "Policy Management");
    ("/policies", "Policy Management");
    ("/software", "Software Management");
    ("/patch", "Patch Management");
    ("/script", "Script Management");
    ("/job", "Job Management");
    ("/maintenance", "Maintenance Management");
    ("/backup", "Backup Management");
    ("/antivirus", "Antivirus Management");
    ("/user", "User Management");
    ("/location", "Location Management");
    ("/activity", "Activity Management");
    ("/activities", "Activity Management");
    ("/webhook", "Webhook Management") ].

End NinjaOne.

Module HaloPSA.

(** [HaloPSAClient.categorizeApiPath]: the path is lowercased first. *)
Definition categorizeApiPath (path : string) : string :=
  let lowerPath := toLowerCase path in
  if includes lowerPath "/actions" then "Actions"
  else if includes lowerPath "/ticket" then "Tickets"
  else if includes lowerPath "/agent" then "Agents"
  else if includes lowerPath "/client" then "Clients"
  else if includes lowerPath "/site" then "Sites"
  else if includes lowerPath "/user" then "Users"
  else if includes lowerPath "/asset" then "Assets"
  else if includes lowerPath "/invoice" then "Invoicing"
  else if includes lowerPath "/report" then "Reports"
  else if includes lowerPath "/address" then "Addresses"
  else if includes lowerPath "/appointment" then "Appointments"
  else if includes lowerPath "/project" then "Projects"
  else if includes lowerPath "/contract" then "Contracts"
  else if includes lowerPath "/supplier" then "Suppliers"
  else if includes lowerPath "/product" then "Products"
  else if includes lowerPath "/kb" || includes lowerPath "/knowledge"
       then "Knowledge Base"
  else if includes lowerPath "/integration" then "Integrations"
  else if includes lowerPath "/webhook" then "Webhooks"
  else if includes lowerPath "/api" then "API Management"
  else "Other".

Definition rules : list Rule :=
  [ ("/actions", "Actions");
    ("/ticket", "Tickets");
    ("/agent", "Agents");
    ("/client", "Clients");
    ("/site", "Sites");
    ("/user", "Users");
    ("/asset", "Assets");
    ("/invoice", "Invoicing");
    ("/report", "Reports");
    ("/address", "Addresses");
    ("/appointment", "Appointments");
    ("/project", "Projects");
    ("/contract", "Contracts");
    ("/supplier", "Suppliers");
    ("/product", "Products");
    ("/kb", "Knowledge Base");
    ("/knowledge", "Knowledge Base");
    ("/integration", "Integrations");
    ("/webhook", "Webhooks");
    ("/api", "API Management") ].

End HaloPSA.

(** ** JavaScript values and exceptions *)

Module Js.

(** A JSON-shaped JavaScript value.  An object lists its properties in
    enumeration order; property names are distinct. *)
Inductive JsVal : Type :=
| JUndefined
| JNull
| JBool (b : bool)
| JNum (n : Z)
| JStr (s : string)
| JArr (items : list JsVal)
| JObj (fields : list (string * JsVal)).

(** An [Error] object: its [name] and its [message]. *)
Record JsError : Type := { err_name : string; err_message : string }.

Definition Error (msg : string) : JsError :=
  {| err_name := "Error"; err_message := msg |}.
Definition TypeError (msg : string) : JsError :=
  {| err_name := "TypeError"; err_message := msg |}.
Definition SyntaxError (msg : string) : JsError :=
  {| err_name := "SyntaxError"; err_message := msg |}.

(** [String(error)], also what a template literal makes of an error. *)
Definition error_toString (e : JsError) : string :=
  err_name e ++ ": " ++ err_message e.

Inductive Result (A : Type) : Type :=
| Ok (a : A)
| Throw (e : JsError).
Arguments Ok {A} a.
Arguments Throw {A} e.

Definition is_ok {A : Type} (r : Result A) : bool :=
  match r with Ok _ => true | Throw _ => false end.

(** Truthiness, as [if (v)] and [v && ...] test it. *)
Definition truthy (v : JsVal) : bool :=
  match v with
  | JUndefined | JNull => false
  | JBool b => b
  | JNum n => negb (n =? 0)%Z
  | JStr s => negb (s =? "")
  | JArr _ | JObj _ => true
  end.

(** [String(v)] and template-literal interpolation.  An array prints its
    items separated by commas, null and undefined items as nothing.  A
    number prints as its digits, as JavaScript prints the integers it holds
    exactly; an object prints as an object without a [toString] of its own
    does. *)
Fixpoint toStr (v : JsVal) : string :=
  match v with
  | JUndefined => "undefined"
  | JNull => "null"
  | JBool true => "true"
  | JBool false => "false"
  | JNum n => string_of_Z n
  | JStr s => s
  | JArr items =>
      join "," (map (fun x => match x with
                              | JUndefined | JNull => ""
                              | _ => toStr x
                              end) items)
  | JObj _ => "[object Object]"
  end.

(** [typeof v === 'object'] (true of null as well). *)
Definition typeof_object (v : JsVal) : bool :=
  match v with
  | JNull | JArr _ | JObj _ => true
  | _ => false
  end.

Fixpoint lookup (key : string) (fields : list (string * JsVal)) : option JsVal :=
  match fields with
  | [] => None
  | (k, v) :: rest => if k =? key then Some v else lookup key rest
  end.

(** [obj[key]] for a property that is not an array index or [length]:
    reading a property of undefined or null throws, a missing property reads
    as undefined. *)
Definition getProp (obj : JsVal) (key : string) : Result JsVal :=
  match obj with
  | JUndefined =>
      Throw (TypeError ("Cannot read properties of undefined (reading '" ++ key ++ "')"))
  | JNull =>
      Throw (TypeError ("Cannot read properties of null (reading '" ++ key ++ "')"))
  | JObj fields =>
      Ok (match lookup key fields with Some v => v | None => JUndefined end)
  | _ => Ok JUndefined
  end.

(** [const { key, ... } = obj], where [obj] is the variable [name] and
    [key] the first property of the pattern: undefined and null cannot be
    destructured. *)
Definition destructure (name : string) (obj : JsVal) (key : string) : Result JsVal :=
  match obj with
  | JUndefined =>
      Throw (TypeError ("Cannot destructure property '" ++ key ++ "' of '" ++ name
                        ++ "' as it is undefined."))
  | JNull =>
      Throw (TypeError ("Cannot destructure property '" ++ key ++ "' of '" ++ name
                        ++ "' as it is null."))
  | _ => getProp obj key
  end.

(** [v?.key]: undefined when [v] is undefined or null, or has no such
    property. *)
Definition optProp (v : JsVal) (key : string) : JsVal :=
  match v with
  | JObj fields => match lookup key fields with Some x => x | None => JUndefined end
  | _ => JUndefined
  end.

(** [obj[key] = v] on the property list: an existing property keeps its
    place, a new one goes last. *)
Fixpoint set_prop (fields : list (string * JsVal)) (key : string) (v : JsVal)
    : list (string * JsVal) :=
  match fields with
  | [] => [(key, v)]
  | (k, x) :: rest =>
      if k =? key then (k, v) :: rest else (k, x) :: set_prop rest key v
  end.

(** The property [key] of a result object, [None] when the object has no
    such property. *)
Definition field (v : JsVal) (key : string) : option JsVal :=
  match v with
  | JObj fields => lookup key fields
  | _ => None
  end.

(** [a || b]. *)
Definition or_else (a b : JsVal) : JsVal := if truthy a then a else b.

Definition is_null (v : JsVal) : bool :=
  match v with JNull => true | _ => false end.

(** A number as arithmetic sees it: an integer or NaN. *)
Inductive Num : Type := Fin (z : Z) | NaN.

Fixpoint trim_left (s : string) : string :=
  match s with
  | String c s' => if is_space c then trim_left s' else s
  | EmptyString => EmptyString
  end.

Fixpoint trim_right (s : string) : string :=
  match s with
  | EmptyString => EmptyString
  | String c s' =>
      match trim_right s' with
      | EmptyString => if is_space c then EmptyString else String c EmptyString
      | t => String c t
      end
  end.

(** The value of a non-empty run of decimal digits. *)
Definition digits_value (s : string) : Num :=
  match s with
  | EmptyString => NaN
  | String _ _ =>
      match NilZero.uint_of_string s with
      | Some u => Fin (Z.of_uint u)
      | None => NaN
      end
  end.

(** [Number(s)] for a string that, white space at its ends apart, is empty
    (it is 0) or a run of decimal digits with at most one sign before it.
    The other numerals of JavaScript (with a fraction or an exponent,
    hexadecimal, octal or binary, the infinities) are outside the model:
    they read as NaN here, as the text that is no numeral does. *)
Definition number_of_string (s : string) : Num :=
  match trim_left (trim_right s) with
  | EmptyString => Fin 0
  | String c rest as t =>
      if Ascii.eqb c "+"%char then digits_value rest
      else if Ascii.eqb c "-"%char
      then match digits_value rest with Fin z => Fin (- z) | NaN => NaN end
      else digits_value t
  end.

(** [Number(v)]. *)
Definition toNumber (v : JsVal) : Num :=
  match v with
  | JUndefined => NaN
  | JNull => Fin 0
  | JBool true => Fin 1
  | JBool false => Fin 0
  | JNum n => Fin n
  | JStr s => number_of_string s
  | JArr _ => number_of_string (toStr v)
  | JObj _ => NaN
  end.

(** [a > b], [a >= b] and [Math.min(a, b)] on numbers: a comparison with
    NaN is false, a minimum with NaN is NaN. *)
Definition num_gt (a b : Num) : bool :=
  match a, b with Fin x, Fin y => (y <? x)%Z | _, _ => false end.
Definition num_ge (a b : Num) : bool :=
  match a, b with Fin x, Fin y => (y <=? x)%Z | _, _ => false end.
Definition num_min (a b : Num) : Num :=
  match a, b with Fin x, Fin y => Fin (Z.min x y) | _, _ => NaN end.

(** A number as a parameter declared [number] receives it: a finite value,
    written as a fraction, an infinity or NaN. *)
Inductive Number : Type :=
| Finite (q : Q)
| PosInfinity
| NegInfinity
| NotANumber.

Definition number_of_Z (z : Z) : Number := Finite (inject_Z z).

Definition number_of_Num (n : Num) : Number :=
  match n with Fin z => number_of_Z z | NaN => NotANumber end.

(** [Math.min(a, b)]. *)
Definition math_min (a b : Number) : Number :=
  match a, b with
  | NotANumber, _ | _, NotANumber => NotANumber
  | NegInfinity, _ | _, NegInfinity => NegInfinity
  | PosInfinity, x => x
  | x, PosInfinity => x
  | Finite x, Finite y => if Qle_bool x y then a else b
  end.

(** [n >= b] for a count [n]: false when [b] is NaN. *)
Definition count_ge (n : Z) (b : Number) : bool :=
  match b with
  | Finite q => Qle_bool q (inject_Z n)
  | NegInfinity => true
  | PosInfinity | NotANumber => false
  end.

(** [a || b] for a number [a]: the falsy numbers are 0 and NaN. *)
Definition number_or (a b : Number) : Number :=
  match a with
  | NotANumber => b
  | Finite q => if Qeq_bool q 0 then b else a
  | PosInfinity | NegInfinity => a
  end.

(** The characters of a string as one-character strings. *)
Fixpoint chars (s : string) : list JsVal :=
  match s with
  | EmptyString => []
  | String c s' => JStr (String c "") :: chars s'
  end.

(** What spreading [...v] into an array yields: the items of an array, the
    characters of a string; any other value is not iterable. *)
Definition spread (v : JsVal) : Result (list JsVal) :=
  match v with
  | JArr items => Ok items
  | JStr s => Ok (chars s)
  | _ => Throw (TypeError (toStr v ++ " is not iterable"))
  end.

(** [items.join(sep)] on an array of values. *)
Definition joinVals (sep : string) (items : list JsVal) : string :=
  join sep (map (fun x => match x with
                          | JUndefined | JNull => ""
                          | _ => toStr x
                          end) items).

(** [l.slice(start, end)]: a negative index counts from the end. *)
Definition slice {A : Type} (l : list A) (start stop : Z) : list A :=
  let len := Z.of_nat (List.length l) in
  let clamp := fun i => if (i <? 0)%Z then Z.max (len + i) 0 else Z.min i len in
  firstn (Z.to_nat (clamp stop - clamp start)) (skipn (Z.to_nat (clamp start)) l).

(** [names.sort()]: ascending by code units. *)
Fixpoint insert_sorted (x : string) (l : list string) : list string :=
  match l with
  | [] => [x]
  | y :: rest => if String.leb x y then x :: l else y :: insert_sorted x rest
  end.

Fixpoint sort (l : list string) : list string :=
  match l with
  | [] => []
  | x :: rest => insert_sorted x (sort rest)
  end.

Fixpoint indexed (i : nat) (l : list JsVal) : list (string * JsVal) :=
  match l with
  | [] => []
  | v :: rest => (string_of_nat i, v) :: indexed (S i) rest
  end.

(** [Object.entries(v)] of a value that is not undefined or null: the
    properties of an object, the indexed items of an array, the indexed
    characters of a string, nothing for a number or a boolean. *)
Definition entries (v : JsVal) : list (string * JsVal) :=
  match v with
  | JObj fields => fields
  | JArr items => indexed 0 items
  | JStr s => indexed 0 (chars s)
  | _ => []
  end.

(** [v.length]. *)
Definition lengthOf (v : JsVal) : JsVal :=
  match v with
  | JArr items => JNum (Z.of_nat (List.length items))
  | JStr s => JNum (Z.of_nat (String.length s))
  | JObj fields =>
      match lookup "length" fields with Some x => x | None => JUndefined end
  | _ => JUndefined
  end.

End Js.

Import Js.

(** ** Dates *)

(** The part of [Date] the clients use.  A time value is a number of
    milliseconds since the epoch; the fields of a date are read and written
    in the local time of the host. *)
Module Date.

Local Open Scope Z_scope.

(** The time zone of the host: the offset of local time from UTC
    (milliseconds) in force at an instant, and the offset by which a local
    time value is read back as an instant.  Where the offset changes, a local
    time names no instant or two; the second function is the choice the host
    makes there. *)
Record Zone : Type := {
  offset_at : Z -> Z;
  offset_of_local : Z -> Z
}.

Definition msPerSecond : Z := 1000.
Definition msPerMinute : Z := 60000.
Definition msPerHour : Z := 3600000.
Definition msPerDay : Z := 86400000.

Definition Day (t : Z) : Z := t / msPerDay.
Definition HourFromTime (t : Z) : Z := (t / msPerHour) mod 24.
Definition MinFromTime (t : Z) : Z := (t / msPerMinute) mod 60.
Definition SecFromTime (t : Z) : Z := (t / msPerSecond) mod 60.
Definition msFromTime (t : Z) : Z := t mod msPerSecond.

Definition MakeTime (hour min sec ms : Z) : Z :=
  hour * msPerHour + min * msPerMinute + sec * msPerSecond + ms.

Definition MakeDate (day time : Z) : Z := day * msPerDay + time.

Definition LocalTime (z : Zone) (t : Z) : Z := t + offset_at z t.

Definition UTC (z : Zone) (t : Z) : Z := t - offset_of_local z t.

(** [TimeClip]: a time value further than 8.64e15 ms from the epoch makes
    an invalid date, here [None]. *)
Definition TimeClip (t : Z) : option Z :=
  if Z.abs t <=? 8640000000000000 then Some t else None.

(** [date.getSeconds()] of the date with time value [t]. *)
Definition getSeconds (z : Zone) (t : Z) : Z := SecFromTime (LocalTime z t).

(** [date.setSeconds(sec)]: the new time value of the date. *)
Definition setSeconds (z : Zone) (t : Z) (sec : Z) : option Z :=
  let local := LocalTime z t in
  TimeClip (UTC z (MakeDate (Day local)
                     (MakeTime (HourFromTime local) (MinFromTime local) sec
                               (msFromTime local)))).

(** The offset in force at the instant [t] is also the one by which the
    local time [d] milliseconds later is read back: no change of offset
    comes in between. *)
Definition steady (z : Zone) (t d : Z) : Prop :=
  offset_of_local z (LocalTime z t + d) = offset_at z t.

(** The instant is a time value of a valid date. *)
Definition in_range (t : Z) : Prop := Z.abs t <= 8640000000000000.

(** A host on UTC. *)
Definition utc : Zone :=
  {| offset_at := fun _ => 0; offset_of_local := fun _ => 0 |}.

End Date.

(** ** HTTP exchanges and the effects of a client *)

Module Http.

Inductive Body : Type :=
| NoBody
| FormBody (params : list (string * string))   (* URLSearchParams *)
| JsonBody (v : JsVal)                         (* JSON.stringify(v) *)
| RawBody (v : JsVal).                         (* a value passed as it is *)

(** A request as [fetch] receives it.  [query] holds the parameters a
    [URLSearchParams] appends to the address; their percent-encoding is not
    modelled. *)
Record Request : Type := {
  url : string;
  query : list (string * string);
  method : string;
  headers : list (string * string);
  body : Body
}.

(** A response: [json] is what [response.json()] parses out of [text], or
    [None] when the text is not JSON. *)
Record Response (A : Type) : Type := {
  status : Z;
  statusText : string;
  contentType : option string;
  text : string;
  json : option A
}.
Arguments status {A} r.
Arguments statusText {A} r.
Arguments contentType {A} r.
Arguments text {A} r.
Arguments json {A} r.

(** [response.ok]. *)
Definition ok {A : Type} (r : Response A) : bool :=
  (200 <=? status r)%Z && (status r <=? 299)%Z.

(** The declared shape of a token endpoint's answer. *)
Record TokenResponse : Type := {
  access_token : string;
  token_type : string;
  expires_in : Z;                               (* seconds *)
  scope : string
}.

(** What surrounds a client: what the token endpoint and the resource
    endpoints answer, the time a request takes (milliseconds), and the time
    zone of the host.  A network failure is a thrown error. *)
Record Network : Type := {
  token_endpoint : Request -> Result (Response TokenResponse);
  resource : Request -> Result (Response JsVal);
  latency : Request -> Z;
  zone : Date.Zone
}.

(** The token cache every client carries. *)
Record Client : Type := {
  accessToken : option string;
  tokenExpiry : option Z                        (* milliseconds *)
}.

Definition fresh_client : Client :=
  {| accessToken := None; tokenExpiry := None |}.

Inductive Sent : Type :=
| TokenExchange (r : Request)
| ResourceCall (r : Request).

(** The state a client call runs in: the client's fields, the clock and the
    requests sent so far. *)
Record World : Type := {
  client : Client;
  now : Z;
  sent : list Sent
}.

Definition Eff (A : Type) : Type := World -> Result A * World.

Definition ret {A : Type} (a : A) : Eff A := fun w => (Ok a, w).

Definition throw {A : Type} (e : JsError) : Eff A := fun w => (Throw e, w).

Definition bind {A B : Type} (m : Eff A) (k : A -> Eff B) : Eff B :=
  fun w =>
    match m w with
    | (Ok a, w') => k a w'
    | (Throw e, w') => (Throw e, w')
    end.

(** [try { body } catch (error) { handler }]: what the body did to the
    state before it threw stays done. *)
Definition try_catch {A : Type} (body : Eff A) (handler : JsError -> Eff A) : Eff A :=
  fun w =>
    match body w with
    | (Ok a, w') => (Ok a, w')
    | (Throw e, w') => handler e w'
    end.

Definition lift {A : Type} (r : Result A) : Eff A := fun w => (r, w).

Definition get_client : Eff Client := fun w => (Ok (client w), w).

Definition set_accessToken (t : option string) : Eff unit :=
  fun w =>
    (Ok tt, {| client := {| accessToken := t; tokenExpiry := tokenExpiry (client w) |};
               now := now w; sent := sent w |}).

Definition set_tokenExpiry (e : option Z) : Eff unit :=
  fun w =>
    (Ok tt, {| client := {| accessToken := accessToken (client w); tokenExpiry := e |};
               now := now w; sent := sent w |}).

(** [Date.now()], [new Date()]. *)
Definition clock : Eff Z := fun w => (Ok (now w), w).

Definition fetch_token (nw : Network) (r : Request) : Eff (Response TokenResponse) :=
  fun w =>
    (token_endpoint nw r,
     {| client := client w; now := (now w + latency nw r)%Z;
        sent := sent w ++ [TokenExchange r] |}).

Definition fetch (nw : Network) (r : Request) : Eff (Response JsVal) :=
  fun w =>
    (resource nw r,
     {| client := client w; now := (now w + latency nw r)%Z;
        sent := sent w ++ [ResourceCall r] |}).

(** [await response.json()].  The message of the error for a body that is
    not JSON is the engine's, and depends on the body; one message stands
    for them all. *)
Definition response_json {A : Type} (r : Response A) : Eff A :=
  match json r with
  | Some v => ret v
  | None => throw (SyntaxError "Unexpected token in JSON")
  end.

(** [this.accessToken && this.tokenExpiry && this.tokenExpiry > new Date()]:
    the test all three clients make before they reuse the cached token. *)
Definition token_valid (c : Client) (t : Z) : bool :=
  match accessToken c, tokenExpiry c with
  | Some tok, Some e => negb (tok =? "") && (t <? e)%Z
  | _, _ => false
  end.

Definition exchanges (l : list Sent) : nat :=
  List.length (filter (fun s => match s with TokenExchange _ => true | _ => false end) l).

Definition bearer (c : Client) : string :=
  "Bearer " ++ match accessToken c with Some t => t | None => "null" end.

End Http.

Import Http.

Declare Scope eff_scope.
Delimit Scope eff_scope with eff.
Notation "x <- m ;; k" := (bind m (fun x => k))
  (at level 61, m at next level, right associativity) : eff_scope.
Notation "m ;;; k" := (bind m (fun _ => k))
  (at level 61, right associativity) : eff_scope.

(** ** Token lifecycle of the three clients *)

Module NinjaOneClient.

Record AuthConfig : Type := {
  clientId : string;
  clientSecret : string;
  region : string;
  authScope : string
}.

(** [getRegionUrl]: an unknown region falls back to the 'us' address.  The
    table of regions is an object, in which the two lower-case names that
    every object inherits are found as well: they give the constructor of
    objects and their prototype, which the client then uses as text. *)
Definition getRegionUrl (region : string) : string :=
  let r := toLowerCase region in
  if r =? "eu" then "https://eu.ninjarmm.com"
  else if r =? "us" then "https://api.ninjarmm.com"
  else if r =? "ca" then "https://ca.ninjarmm.com"
  else if r =? "oc" then "https://oc.ninjarmm.com"
  else if r =? "app" then "https://app.ninjarmm.com"
  else if r =? "constructor" then "function Object() { [native code] }"
  else if r =? "__proto__" then "[object Object]"
  else "https://api.ninjarmm.com".

Definition token_request (cfg : AuthConfig) : Request :=
  {| url := getRegionUrl (region cfg) ++ "/ws/oauth/token";
     query := [];
     method := "POST";
     headers := [("Content-Type", "application/x-www-form-urlencoded")];
     body := FormBody [("grant_type", "client_credentials");
                       ("client_id", clientId cfg);
                       ("client_secret", clientSecret cfg);
                       ("scope", authScope cfg)] |}.

(** [authenticate]: the expiry is a date made after the answer, whose
    seconds are then set to [getSeconds() + expires_in - 60] in the local time
    of the host.  An invalid date is never later than another date; the
    cache keeps it as no expiry at all, which the validity test treats alike. *)
Definition authenticate (nw : Network) (cfg : AuthConfig) : Eff unit :=
  try_catch
    (response <- fetch_token nw (token_request cfg) ;;
     if negb (ok response)
     then throw (Error ("Authentication failed: " ++ string_of_Z (status response)
                        ++ " " ++ statusText response))
     else
       data <- response_json response ;;
       set_accessToken (Some (access_token data)) ;;;
       expiryTime <- clock ;;
       set_tokenExpiry
         (Date.setSeconds (zone nw) expiryTime
            (Date.getSeconds (zone nw) expiryTime + expires_in data - 60)%Z))%eff
    (fun _ => throw (Error "Failed to authenticate with NinjaOne API")).

Definition ensureAuthenticated (nw : Network) (cfg : AuthConfig) : Eff unit :=
  (c <- get_client ;;
   t <- clock ;;
   if token_valid c t then ret tt else authenticate nw cfg)%eff.

Definition api_request (cfg : AuthConfig) (c : Client)
    (path : string) (meth : string) (payload : Body) : Request :=
  {| url := getRegionUrl (region cfg) ++ path;
     query := [];
     method := meth;
     headers := [("Accept", "application/json");
                 ("Content-Type", "application/json");
                 ("Authorization", bearer c)];
     body := payload |}.

(** [request(path, options)]: the answer is always read as JSON. *)
Definition request (nw : Network) (cfg : AuthConfig)
    (path : string) (meth : string) (payload : Body) : Eff JsVal :=
  (ensureAuthenticated nw cfg ;;;
   c <- get_client ;;
   response <- fetch nw (api_request cfg c path meth payload) ;;
   if negb (ok response)
   then throw (Error ("API request failed: " ++ string_of_Z (status response)
                      ++ " " ++ statusText response))
   else response_json response)%eff.

End NinjaOneClient.

Module HaloPSAClient.

Record HaloPSAConfig : Type := {
  haloUrl : string;
  clientId : string;
  clientSecret : string;
  tenant : string
}.

Definition token_request (cfg : HaloPSAConfig) : Request :=
  {| url := haloUrl cfg ++ "/auth/token";
     query := [];
     method := "POST";
     headers := [("Content-Type", "application/x-www-form-urlencoded");
                 ("Accept", "application/json")];
     body := FormBody [("grant_type", "client_credentials");
                       ("client_id", clientId cfg);
                       ("client_secret", clientSecret cfg);
                       ("scope", "all")] |}.

(** [authenticate]: the validity test is its first statement; the expiry is
    the date [new Date(Date.now() + (expires_in - 60) * 1000)] (an invalid
    date is kept as no expiry at all, which the validity test treats
    alike). *)
Definition authenticate (nw : Network) (cfg : HaloPSAConfig) : Eff unit :=
  (c <- get_client ;;
   t <- clock ;;
   if token_valid c t then ret tt
   else
     try_catch
       (response <- fetch_token nw (token_request cfg) ;;
        if negb (ok response)
        then throw (Error ("Authentication failed: " ++ string_of_Z (status response)
                           ++ " - " ++ text response))
        else
          tokenData <- response_json response ;;
          set_accessToken (Some (access_token tokenData)) ;;;
          let expiryMs := ((expires_in tokenData - 60) * 1000)%Z in
          t' <- clock ;;
          set_tokenExpiry (Date.TimeClip (t' + expiryMs)%Z))
       (fun error =>
          throw (Error ("Failed to authenticate with HaloPSA: " ++ error_toString error))))%eff.

(** The body [executeQuery] posts: [JSON.stringify([query])]. *)
Definition report_query (sql : JsVal) : JsVal :=
  JArr [JObj [("_loadreportonly", JBool true); ("sql", sql)]].

Definition report_request (cfg : HaloPSAConfig) (c : Client) (sql : JsVal) : Request :=
  {| url := haloUrl cfg ++ "/api/Report" ++ "?tenant=" ++ tenant cfg;
     query := [];
     method := "POST";
     headers := [("accept", "*/*");
                 ("accept-language", "en-GB,en-US;q=0.9,en;q=0.8");
                 ("authorization", bearer c);
                 ("Content-Type", "application/json")];
     body := JsonBody (report_query sql) |}.

(** [executeQuery(sql)]. *)
Definition executeQuery (nw : Network) (cfg : HaloPSAConfig) (sql : JsVal) : Eff JsVal :=
  (authenticate nw cfg ;;;
   c <- get_client ;;
   try_catch
     (response <- fetch nw (report_request cfg c sql) ;;
      if negb (ok response)
      then throw (Error ("Query execution failed: " ++ string_of_Z (status response)
                         ++ " - " ++ text response))
      else response_json response)
     (fun error => throw (Error ("Failed to execute query: " ++ error_toString error))))%eff.

Definition sends_body (meth : string) : bool :=
  (meth =? "POST") || (meth =? "PUT") || (meth =? "PATCH").

(** The parameters [makeApiCall] appends: the tenant, then every entry of
    [queryParams] that is neither undefined nor null. *)
Definition call_query (cfg : HaloPSAConfig) (queryParams : JsVal) : list (string * string) :=
  ("tenant", tenant cfg) ::
  (if truthy queryParams
   then map (fun kv => (fst kv, toStr (snd kv)))
            (filter (fun kv => match snd kv with
                               | JUndefined | JNull => false
                               | _ => true
                               end) (entries queryParams))
   else []).

Definition call_body (meth : string) (payload : JsVal) : Body :=
  if truthy payload && sends_body meth
  then (if typeof_object payload then JsonBody payload else RawBody payload)
  else NoBody.

(** What [makeApiCall] returns: parsed JSON or raw text. *)
Inductive Payload : Type :=
| Parsed (v : JsVal)
| Raw (s : string).

Definition api_request (cfg : HaloPSAConfig) (c : Client)
    (path : string) (meth : string) (payload : JsVal) (queryParams : JsVal) : Request :=
  {| url := haloUrl cfg ++ path;
     query := call_query cfg queryParams;
     method := meth;
     headers := [("accept", "application/json");
                 ("authorization", bearer c);
                 ("Content-Type", "application/json")];
     body := call_body meth payload |}.

(** [makeApiCall(path, method, body, queryParams)] of the HaloPSA client. *)
Definition makeApiCall (nw : Network) (cfg : HaloPSAConfig)
    (path : string) (meth : string) (payload : JsVal) (queryParams : JsVal)
    : Eff Payload :=
  (authenticate nw cfg ;;;
   c <- get_client ;;
   try_catch
     (response <- fetch nw (api_request cfg c path meth payload queryParams) ;;
      if negb (ok response)
      then throw (Error ("API call failed: " ++ string_of_Z (status response)
                         ++ " - " ++ text response))
      else
        match contentType response with
        | Some ct =>
            if negb (ct =? "") && includes ct "application/json"
            then v <- response_json response ;; ret (Parsed v)
            else ret (Raw (text response))
        | None => ret (Raw (text response))
        end)
     (fun error => throw (Error ("Failed to make API call: " ++ error_toString error))))%eff.

End HaloPSAClient.

Module ConnectWiseRMMClient.

Record Config : Type := {
  clientId : string;
  clientSecret : string;
  baseUrl : string
}.

Definition token_request (cfg : Config) : Request :=
  {| url := baseUrl cfg ++ "/v1/token";
     query := [];
     method := "POST";
     headers := [("Content-Type", "application/json"); ("Accept", "application/json")];
     body := JsonBody (JObj [("grant_type", JStr "client_credentials");
                             ("client_id", JStr (clientId cfg));
                             ("client_secret", JStr (clientSecret cfg));
                             ("scope", JStr "")]) |}.

(** [authenticate]: the expiry is the date
    [new Date(Date.now() + expires_in * 1000)]. *)
Definition authenticate (nw : Network) (cfg : Config) : Eff unit :=
  (c <- get_client ;;
   t <- clock ;;
   if token_valid c t then ret tt
   else
     try_catch
       (response <- fetch_token nw (token_request cfg) ;;
        if negb (ok response)
        then throw (Error ("Authentication failed: " ++ string_of_Z (status response)
                           ++ " " ++ statusText response))
        else
          data <- response_json response ;;
          set_accessToken (Some (access_token data)) ;;;
          t' <- clock ;;
          set_tokenExpiry (Date.TimeClip (t' + expires_in data * 1000)%Z))
       (fun error => throw (Error ("Authentication failed: " ++ err_message error))))%eff.

Definition sends_body (meth : string) : bool :=
  let m := toUpperCase meth in
  (m =? "POST") || (m =? "PUT") || (m =? "PATCH").

Definition request_query (queryParams : JsVal) : list (string * string) :=
  if truthy queryParams
  then map (fun kv => (fst kv, toStr (snd kv)))
           (filter (fun kv => match snd kv with
                              | JUndefined | JNull => false
                              | _ => true
                              end) (entries queryParams))
  else [].

Definition api_request (cfg : Config) (c : Client)
    (meth : string) (path : string) (data : JsVal) (queryParams : JsVal) : Request :=
  {| url := baseUrl cfg ++ path;
     query := request_query queryParams;
     method := meth;
     headers := [("Authorization", bearer c);
                 ("Accept", "application/json");
                 ("Content-Type", "application/json")];
     body := if truthy data && sends_body meth then JsonBody data else NoBody |}.

(** [makeRequest(method, path, data, queryParams)]: an empty answer is
    [null], any other answer is parsed as JSON. *)
Definition makeRequest (nw : Network) (cfg : Config)
    (meth : string) (path : string) (data : JsVal) (queryParams : JsVal)
    : Eff JsVal :=
  (authenticate nw cfg ;;;
   c <- get_client ;;
   try_catch
     (response <- fetch nw (api_request cfg c meth path data queryParams) ;;
      if negb (ok response)
      then throw (Error ("API request failed: " ++ string_of_Z (status response)
                         ++ " " ++ statusText response ++ " - " ++ text response))
      else
        if negb (text response =? "")
        then response_json response
        else ret JNull)
     (fun error => throw (Error ("API request failed: " ++ err_message error))))%eff.

End ConnectWiseRMMClient.

(** ** Interleaved callers of one client

    The runtime is single-threaded and cooperative: a caller runs until it
    awaits.  A caller of [ensureAuthenticated] runs the validity test and,
    when the test fails, issues the token request in the same turn, then
    waits; when the answer arrives it stores the token and the expiry.  An
    interleaving is a list of such turns. *)

Module Interleaving.

Inductive Phase : Type := Idle | Awaiting | Finished.

Inductive Event : Type :=
| Call (i : nat)                          (* caller [i] enters and runs to its await *)
| Answer (i : nat) (data : TokenResponse) (* the endpoint's answer resumes caller [i] *)
| Reject (i : nat)                        (* the endpoint's refusal resumes caller [i] *)
| Tick (ms : Z).                          (* time passes *)

Record Sys : Type := {
  cache : Client;
  time : Z;
  issued : nat;                           (* token requests sent so far *)
  phase : nat -> Phase
}.

Definition set_phase (f : nat -> Phase) (i : nat) (p : Phase) : nat -> Phase :=
  fun j => if Nat.eqb j i then p else f j.

Definition initial (c : Client) (t : Z) : Sys :=
  {| cache := c; time := t; issued := 0; phase := fun _ => Idle |}.

Definition step (s : Sys) (e : Event) : Sys :=
  match e with
  | Call i =>
      match phase s i with
      | Idle =>
          if token_valid (cache s) (time s)
          then {| cache := cache s; time := time s; issued := issued s;
                  phase := set_phase (phase s) i Finished |}
          else {| cache := cache s; time := time s; issued := S (issued s);
                  phase := set_phase (phase s) i Awaiting |}
      | _ => s
      end
  | Answer i data =>
      match phase s i with
      | Awaiting =>
          {| cache := {| accessToken := Some (access_token data);
                         tokenExpiry := Some (time s + (expires_in data - 60) * 1000)%Z |};
             time := time s; issued := issued s;
             phase := set_phase (phase s) i Finished |}
      | _ => s
      end
  | Reject i =>
      match phase s i with
      | Awaiting =>
          {| cache := cache s; time := time s; issued := issued s;
             phase := set_phase (phase s) i Finished |}
      | _ => s
      end
  | Tick ms =>
      {| cache := cache s; time := (time s + ms)%Z; issued := issued s;
         phase := phase s |}
  end.

Definition run (events : list Event) (s : Sys) : Sys := fold_left step events s.

End Interleaving.

(** ** Worlds and networks used in the statements *)

(** The world after one successful exchange that took [lat] milliseconds
    and granted [tok], with the expiry the client computed. *)
Definition refreshed (w : World) (r : Request) (lat : Z) (tok : string) (expiry : Z) : World :=
  {| client := {| accessToken := Some tok; tokenExpiry := Some expiry |};
     now := (now w + lat)%Z;
     sent := sent w ++ [TokenExchange r] |}.

(** The same, with the date the client made for the expiry, which may be an
    invalid date. *)
Definition refreshed_to (w : World) (r : Request) (lat : Z) (tok : string)
    (expiry : option Z) : World :=
  {| client := {| accessToken := Some tok; tokenExpiry := expiry |};
     now := (now w + lat)%Z;
     sent := sent w ++ [TokenExchange r] |}.

Definition start_world (t : Z) : World :=
  {| client := fresh_client; now := t; sent := [] |}.

Module Sample.

Definition grant : TokenResponse :=
  {| access_token := "tok"; token_type := "Bearer"; expires_in := 3600; scope := "all" |}.

Definition answer {A : Type} (ctype : option string) (txt : string) (parsed : option A)
    : Response A :=
  {| status := 200; statusText := "OK"; contentType := ctype; text := txt; json := parsed |}.

(** A network that grants [grant] at once and answers every resource call
    with the plain text "pong"; the host is on UTC. *)
Definition net : Network :=
  {| token_endpoint := fun _ => Ok (answer (Some "application/json") "{}" (Some grant));
     resource := fun _ => Ok (answer (Some "text/plain") "pong" None);
     latency := fun _ => 0%Z;
     zone := Date.utc |}.

Definition ninja : NinjaOneClient.AuthConfig :=
  {| NinjaOneClient.clientId := "id"; NinjaOneClient.clientSecret := "secret";
     NinjaOneClient.region := "eu"; NinjaOneClient.authScope := "monitoring" |}.

Definition halo : HaloPSAClient.HaloPSAConfig :=
  {| HaloPSAClient.haloUrl := "https://halo.example"; HaloPSAClient.clientId := "id";
     HaloPSAClient.clientSecret := "secret"; HaloPSAClient.tenant := "acme" |}.

Definition connectwise : ConnectWiseRMMClient.Config :=
  {| ConnectWiseRMMClient.clientId := "id"; ConnectWiseRMMClient.clientSecret := "secret";
     ConnectWiseRMMClient.baseUrl := "https://cw.example" |}.

End Sample.

(** ** The schema catalog *)

(** The API description: [paths] maps a path to its path item (an object
    from method to operation), [componentSchemas] is [components.schemas]
    when the document has it. *)
Record SchemaDocument : Type := {
  info : JsVal;
  servers : JsVal;
  paths : list (string * JsVal);
  componentSchemas : option (list (string * JsVal))
}.

(** [path.toLowerCase().includes(pathPattern.toLowerCase())]. *)
Definition path_matches (pathPattern path : string) : bool :=
  includes (toLowerCase path) (toLowerCase pathPattern).

Module EndpointDetails.

(** The entries of a path item as the NinjaOne and HaloPSA clients walk
    them: nothing unless the item is a non-null object. *)
Definition method_entries (pathObj : JsVal) : list (string * JsVal) :=
  if truthy pathObj && typeof_object pathObj then entries pathObj else [].

(** Summary mode: the methods in upper case and the first summary found. *)
Definition summary_entry (pathObj : JsVal) : JsVal :=
  let es := method_entries pathObj in
  let methods := map (fun e => JStr (toUpperCase (fst e))) es in
  let summary :=
    fold_left (fun summary e =>
                 if negb (truthy summary) && truthy (optProp (snd e) "summary")
                 then optProp (snd e) "summary" else summary)
              es (JStr "") in
  JObj [("methods", JArr methods); ("summary", summary)].

(** Detail mode: one filtered object per method.  [withDescription] tells
    the HaloPSA copy, which also keeps the description, from the NinjaOne
    copy. *)
Definition filtered_method (withDescription includeSchemas includeExamples : bool)
    (methodObj : JsVal) : JsVal :=
  JObj ([("summary", optProp methodObj "summary")]
        ++ (if withDescription then [("description", optProp methodObj "description")] else [])
        ++ [("operationId", optProp methodObj "operationId");
            ("tags", optProp methodObj "tags")]
        ++ (if includeSchemas
            then [("parameters", optProp methodObj "parameters");
                  ("requestBody", optProp methodObj "requestBody");
                  ("responses", optProp methodObj "responses")]
            else [])
        ++ (if includeExamples && truthy (optProp methodObj "examples")
            then [("examples", optProp methodObj "examples")]
            else []))%list.

Definition detail_entry (withDescription includeSchemas includeExamples : bool)
    (pathObj : JsVal) : JsVal :=
  JObj (fold_left (fun filteredPathObj e =>
                     set_prop filteredPathObj (fst e)
                       (filtered_method withDescription includeSchemas includeExamples (snd e)))
                  (method_entries pathObj) []).

Definition entry_for (withDescription summaryOnly includeSchemas includeExamples : bool)
    (pathObj : JsVal) : JsVal :=
  if summaryOnly then summary_entry pathObj
  else detail_entry withDescription includeSchemas includeExamples pathObj.

(** The loop over the path entries: it stops as soon as [matchCount] has
    reached [Math.min(maxEndpoints, 50)]. *)
Fixpoint scan (withDescription summaryOnly includeSchemas includeExamples : bool)
    (pathPattern : string) (maxEndpoints : Z)
    (pathEntries : list (string * JsVal))
    (matchingPaths : list (string * JsVal)) (matchCount : Z)
    : list (string * JsVal) * Z :=
  match pathEntries with
  | [] => (matchingPaths, matchCount)
  | (path, pathObj) :: rest =>
      if (matchCount >=? Z.min maxEndpoints 50)%Z then (matchingPaths, matchCount)
      else if path_matches pathPattern path
      then scan withDescription summaryOnly includeSchemas includeExamples
             pathPattern maxEndpoints rest
             (set_prop matchingPaths path
                (entry_for withDescription summaryOnly includeSchemas includeExamples pathObj))
             (matchCount + 1)%Z
      else scan withDescription summaryOnly includeSchemas includeExamples
             pathPattern maxEndpoints rest matchingPaths matchCount
  end.

(** The cap as a number of entries, and an entry as the result shows it. *)
Definition cap (maxEndpoints : Z) : nat := Z.to_nat (Z.min maxEndpoints 50).

Definition shown (withDescription summaryOnly includeSchemas includeExamples : bool)
    (e : string * JsVal) : string * JsVal :=
  (fst e, entry_for withDescription summaryOnly includeSchemas includeExamples (snd e)).

Definition matching (pathPattern : string) (l : list (string * JsVal))
    : list (string * JsVal) :=
  filter (fun e => path_matches pathPattern (fst e)) l.

(** [getApiEndpointDetails] on the loaded description. *)
Definition getApiEndpointDetails (withDescription : bool) (schema : SchemaDocument)
    (pathPattern : string) (summaryOnly includeSchemas : bool)
    (maxEndpoints : Z) (includeExamples : bool) : JsVal :=
  let pathEntries := paths schema in
  let '(matchingPaths, matchCount) :=
    scan withDescription summaryOnly includeSchemas includeExamples
         pathPattern maxEndpoints pathEntries [] 0%Z in
  let result :=
    [("pathPattern", JStr pathPattern);
     ("matchingPaths", JObj matchingPaths);
     ("matchCount", JNum matchCount);
     ("totalMatches",
      JNum (Z.of_nat (List.length
                        (filter (fun e => path_matches pathPattern (fst e)) pathEntries))));
     ("limited", JBool (matchCount >=? Z.min maxEndpoints 50)%Z)] in
  JObj (if includeSchemas && negb summaryOnly && (0 <? matchCount)%Z
        then set_prop result "components"
               (JObj [("schemas",
                       match componentSchemas schema with
                       | Some all => JObj (firstn 20 all)
                       | None => JUndefined
                       end)])
        else result).

End EndpointDetails.

(** The same method for every [maxEndpoints] its signature admits: any
    number, or none, which the default parameter makes 10.  The entries are
    added as above; what differs is the comparison that stops the loop and
    sets [limited]. *)
Module EndpointDetailsAny.

(** [Math.min(maxEndpoints, 50)]. *)
Definition cap (maxEndpoints : Number) : Number :=
  math_min maxEndpoints (number_of_Z 50).

(** The loop over the path entries, which stops when
    [matchCount >= Math.min(maxEndpoints, 50)]. *)
Fixpoint scan (withDescription summaryOnly includeSchemas includeExamples : bool)
    (pathPattern : string) (maxEndpoints : Number)
    (pathEntries : list (string * JsVal))
    (matchingPaths : list (string * JsVal)) (matchCount : Z)
    : list (string * JsVal) * Z :=
  match pathEntries with
  | [] => (matchingPaths, matchCount)
  | (path, pathObj) :: rest =>
      if count_ge matchCount (cap maxEndpoints) then (matchingPaths, matchCount)
      else if path_matches pathPattern path
      then scan withDescription summaryOnly includeSchemas includeExamples
             pathPattern maxEndpoints rest
             (set_prop matchingPaths path
                (EndpointDetails.entry_for withDescription summaryOnly includeSchemas
                   includeExamples pathObj))
             (matchCount + 1)%Z
      else scan withDescription summaryOnly includeSchemas includeExamples
             pathPattern maxEndpoints rest matchingPaths matchCount
  end.

(** [getApiEndpointDetails] on the loaded description; [maxEndpoints] is
    [None] when the caller passes none (or undefined). *)
Definition getApiEndpointDetails (withDescription : bool) (schema : SchemaDocument)
    (pathPattern : string) (summaryOnly includeSchemas : bool)
    (maxEndpoints : option Number) (includeExamples : bool) : JsVal :=
  let maxEndpoints :=
    match maxEndpoints with Some n => n | None => number_of_Z 10 end in
  let pathEntries := paths schema in
  let '(matchingPaths, matchCount) :=
    scan withDescription summaryOnly includeSchemas includeExamples
         pathPattern maxEndpoints pathEntries [] 0%Z in
  let result :=
    [("pathPattern", JStr pathPattern);
     ("matchingPaths", JObj matchingPaths);
     ("matchCount", JNum matchCount);
     ("totalMatches",
      JNum (Z.of_nat (List.length
                        (filter (fun e => path_matches pathPattern (fst e)) pathEntries))));
     ("limited", JBool (count_ge matchCount (cap maxEndpoints)))] in
  JObj (if includeSchemas && negb summaryOnly && (0 <? matchCount)%Z
        then set_prop result "components"
               (JObj [("schemas",
                       match componentSchemas schema with
                       | Some all => JObj (firstn 20 all)
                       | None => JUndefined
                       end)])
        else result).

End EndpointDetailsAny.

Module NinjaOneCatalog.
(** [NinjaOneClient.getApiEndpointDetails], on the fetched description: with
    an integer as [maxEndpoints], and with any number or none. *)
Definition getApiEndpointDetails := EndpointDetails.getApiEndpointDetails false.
Definition getApiEndpointDetailsAny := EndpointDetailsAny.getApiEndpointDetails false.
End NinjaOneCatalog.

Module HaloPSACatalog.

(** [HaloPSAClient.getApiEndpointDetails], on the bundled description: with
    an integer as [maxEndpoints], and with any number or none. *)
Definition getApiEndpointDetails := EndpointDetails.getApiEndpointDetails true.
Definition getApiEndpointDetailsAny := EndpointDetailsAny.getApiEndpointDetails true.

(** The text [searchApiEndpoints] searches for one operation. *)
Definition searchableText (path : string) (methodObj : JsVal) : Result string :=
  match spread (or_else (optProp methodObj "tags") (JArr [])) with
  | Throw e => Throw e
  | Ok tags =>
      Ok (toLowerCase
            (joinVals " " ([JStr path;
                            or_else (optProp methodObj "summary") (JStr "");
                            or_else (optProp methodObj "description") (JStr "")]
                           ++ tags)))
  end.

Definition found (path method : string) (methodObj : JsVal) : JsVal :=
  JObj [("path", JStr path);
        ("method", JStr (toUpperCase method));
        ("summary", optProp methodObj "summary");
        ("description", optProp methodObj "description");
        ("tags", optProp methodObj "tags")].

Fixpoint search_methods (query path : string) (methods : list (string * JsVal))
    (matchingEndpoints : list JsVal) : Result (list JsVal) :=
  match methods with
  | [] => Ok matchingEndpoints
  | (method, methodObj) :: rest =>
      match searchableText path methodObj with
      | Throw e => Throw e
      | Ok text =>
          search_methods query path rest
            (if includes text (toLowerCase query)
             then matchingEndpoints ++ [found path method methodObj]
             else matchingEndpoints)
      end
  end.

Fixpoint search_paths (query : string) (pathEntries : list (string * JsVal))
    (matchingEndpoints : list JsVal) : Result (list JsVal) :=
  match pathEntries with
  | [] => Ok matchingEndpoints
  | (path, pathObj) :: rest =>
      match search_methods query path (EndpointDetails.method_entries pathObj)
              matchingEndpoints with
      | Throw e => Throw e
      | Ok found => search_paths query rest found
      end
  end.

(** [searchApiEndpoints(query, limit, skip)]: the whole lowercased query
    must occur in the text; the matches are then paginated. *)
Definition searchApiEndpoints (schema : SchemaDocument)
    (query : string) (limit skip : Z) : Result JsVal :=
  match search_paths query (paths schema) [] with
  | Throw e =>
      Throw (Error ("Failed to search API endpoints: " ++ error_toString e))
  | Ok matchingEndpoints =>
      let paginatedResults := slice matchingEndpoints skip (skip + limit) in
      let total := Z.of_nat (List.length matchingEndpoints) in
      let returned := Z.of_nat (List.length paginatedResults) in
      Ok (JObj [("query", JStr query);
                ("results", JArr paginatedResults);
                ("returnedCount", JNum returned);
                ("totalResults", JNum total);
                ("skipped", JNum skip);
                ("hasMore", JBool (skip + returned <? total)%Z);
                ("message",
                 JStr ("Found " ++ string_of_Z total ++ " endpoints matching "
                       ++ dquote ++ query ++ dquote ++ ". Showing "
                       ++ string_of_Z returned
                       ++ " starting from position " ++ string_of_Z skip ++ "."))])
  end.

End HaloPSACatalog.

Module HaloPSASchemas.

(** The four variables the [forEach] of [getApiSchemas] updates. *)
Record Scan : Type := {
  schemas : list (string * JsVal);
  matchingSchemaNames : list string;
  schemaCount : Z;
  skippedCount : Z
}.

Definition pattern_given (schemaPattern : option string) : bool :=
  match schemaPattern with
  | Some p => negb (p =? "")
  | None => false
  end.

(** [schemaPattern && !name.toLowerCase().includes(schemaPattern.toLowerCase())] *)
Definition filtered_out (schemaPattern : option string) (name : string) : bool :=
  match schemaPattern with
  | Some p => negb (p =? "") && negb (includes (toLowerCase name) (toLowerCase p))
  | None => false
  end.

(** One turn of the [forEach] callback. *)
Definition visit (schemaPattern : option string) (limit skip : Z)
    (st : Scan) (e : string * JsVal) : Scan :=
  let '(name, schemaObj) := e in
  if filtered_out schemaPattern name then st
  else
    let names := (matchingSchemaNames st ++ [name])%list in
    if (skippedCount st <? skip)%Z
    then {| schemas := schemas st; matchingSchemaNames := names;
            schemaCount := schemaCount st; skippedCount := (skippedCount st + 1)%Z |}
    else if (schemaCount st >=? limit)%Z
    then {| schemas := schemas st; matchingSchemaNames := names;
            schemaCount := schemaCount st; skippedCount := skippedCount st |}
    else {| schemas := set_prop (schemas st) name schemaObj;
            matchingSchemaNames := names;
            schemaCount := (schemaCount st + 1)%Z; skippedCount := skippedCount st |}.

Definition scan_all (schemaPattern : option string) (limit skip : Z)
    (allSchemas : list (string * JsVal)) : Scan :=
  fold_left (visit schemaPattern limit skip) allSchemas
    {| schemas := []; matchingSchemaNames := []; schemaCount := 0; skippedCount := 0 |}.

(** [getApiSchemas(schemaPattern, limit, skip, listNames)]. *)
Definition getApiSchemas (schema : SchemaDocument)
    (schemaPattern : option string) (limit skip : Z) (listNames : bool) : JsVal :=
  let allSchemas := match componentSchemas schema with Some all => all | None => [] end in
  let st := scan_all schemaPattern limit skip allSchemas in
  let matching := Z.of_nat (List.length (matchingSchemaNames st)) in
  let totalSchemaCount := Z.of_nat (List.length allSchemas) in
  let result :=
    [("schemas", JObj (schemas st));
     ("returnedCount", JNum (schemaCount st));
     ("matchingCount", JNum matching);
     ("totalSchemasInAPI", JNum totalSchemaCount);
     ("skipped", JNum skip);
     ("limited", JBool (schemaCount st >=? limit)%Z);
     ("hasMore", JBool (skip + schemaCount st <? matching)%Z);
     ("message",
      JStr (match schemaPattern with
            | Some p =>
                if negb (p =? "")
                then "Showing " ++ string_of_Z (schemaCount st) ++ " of "
                     ++ string_of_Z matching ++ " schemas matching " ++ dquote ++ p
                     ++ dquote ++ " (skipped " ++ string_of_Z skip ++ ")"
                else "Showing " ++ string_of_Z (schemaCount st)
                     ++ " schemas starting from position " ++ string_of_Z skip
                     ++ ". Total: " ++ string_of_Z totalSchemaCount ++ "."
            | None =>
                "Showing " ++ string_of_Z (schemaCount st)
                ++ " schemas starting from position " ++ string_of_Z skip
                ++ ". Total: " ++ string_of_Z totalSchemaCount ++ "."
            end))] in
  JObj (if listNames || (matching <=? 20)%Z
        then set_prop result "schemaNames"
               (JArr (map JStr (sort (matchingSchemaNames st))))
        else set_prop result "hint"
               (JStr (string_of_Z matching
                      ++ " schemas match. Set listNames=true to see all names."))).

End HaloPSASchemas.

Module ConnectWiseCatalog.

(** The options of [getEndpointDetails]; an undefined option takes its
    default when the options are destructured. *)
Record Options : Type := {
  includeSchemas : JsVal;
  includeExamples : JsVal;
  summaryOnly : JsVal;
  maxEndpoints : option Number
}.

Definition with_default (v d : JsVal) : JsVal :=
  match v with JUndefined => d | _ => v end.

(** The copy of a response the endpoint keeps: its description and content
    (a response is an object). *)
Definition response_entry (r : JsVal) : JsVal :=
  JObj [("description", optProp r "description"); ("content", optProp r "content")].

Definition endpoint (includeSchemas includeExamples summaryOnly : JsVal)
    (path method : string) (op : JsVal) : JsVal :=
  let base :=
    [("path", JStr path);
     ("method", JStr (toUpperCase method));
     ("operationId", optProp op "operationId");
     ("summary", optProp op "summary");
     ("description", optProp op "description");
     ("tags", or_else (optProp op "tags") (JArr []))] in
  if truthy summaryOnly then JObj base
  else
    let e1 := if truthy (optProp op "parameters")
              then set_prop base "parameters" (optProp op "parameters") else base in
    let e2 := if truthy (optProp op "requestBody") && truthy includeSchemas
              then set_prop e1 "requestBody" (optProp op "requestBody") else e1 in
    let e3 := if truthy (optProp op "responses") && truthy includeSchemas
              then set_prop e2 "responses"
                     (JObj (fold_left (fun acc cr => set_prop acc (fst cr) (response_entry (snd cr)))
                                      (entries (optProp op "responses")) []))
              else e2 in
    let example :=
      optProp (optProp (optProp (optProp op "requestBody") "content") "application/json")
              "example" in
    let e4 := if truthy includeExamples && truthy example
              then set_prop e3 "example" example else e3 in
    let e5 := if truthy (optProp op "security")
              then set_prop e4 "security" (optProp op "security") else e4 in
    JObj e5.

(** [matchingEndpoints.length >= maxEndpoints]. *)
Definition reached (matchingEndpoints : list JsVal) (maxEndpoints : Number) : bool :=
  count_ge (Z.of_nat (List.length matchingEndpoints)) maxEndpoints.

(** The inner loop, over the operations of one path item. *)
Fixpoint collect_methods (includeSchemas includeExamples summaryOnly : JsVal)
    (maxEndpoints : Number) (path : string) (ops : list (string * JsVal))
    (matchingEndpoints : list JsVal) : list JsVal :=
  match ops with
  | [] => matchingEndpoints
  | (method, operation) :: rest =>
      if negb (typeof_object operation) || is_null operation
      then collect_methods includeSchemas includeExamples summaryOnly maxEndpoints
             path rest matchingEndpoints
      else
        let pushed := (matchingEndpoints
                       ++ [endpoint includeSchemas includeExamples summaryOnly
                             path method operation])%list in
        if reached pushed maxEndpoints then pushed
        else collect_methods includeSchemas includeExamples summaryOnly maxEndpoints
               path rest pushed
  end.

(** The outer loop, over the paths the pattern accepts. *)
Fixpoint collect_paths (includeSchemas includeExamples summaryOnly : JsVal)
    (maxEndpoints : Number) (pattern_test : string -> bool)
    (pathEntries : list (string * JsVal)) (matchingEndpoints : list JsVal)
    : list JsVal :=
  match pathEntries with
  | [] => matchingEndpoints
  | (path, pathItem) :: rest =>
      if negb (pattern_test path)
      then collect_paths includeSchemas includeExamples summaryOnly maxEndpoints
             pattern_test rest matchingEndpoints
      else
        let collected :=
          collect_methods includeSchemas includeExamples summaryOnly maxEndpoints
            path (entries pathItem) matchingEndpoints in
        if reached collected maxEndpoints then collected
        else collect_paths includeSchemas includeExamples summaryOnly maxEndpoints
               pattern_test rest collected
  end.

(** [getEndpointDetails(pathPattern, options)] when the memo table has no
    entry for the call (a later call with the same pattern and options is
    answered from the table with this same result).  [pattern] is what
    [new RegExp(pathPattern, 'i')] gives: the [test] of the expression, or
    the error thrown for a pattern that is not a regular expression.  The
    expression is made after the schema is checked.  The path items are
    objects, as the [OpenAPIPath] interface declares. *)
Definition getEndpointDetails (schema : option SchemaDocument)
    (pattern : Result (string -> bool)) (options : Options) : Result JsVal :=
  match schema with
  | None => Throw (Error "Schema not loaded")
  | Some doc =>
      let includeSchemas := with_default (includeSchemas options) (JBool true) in
      let includeExamples := with_default (includeExamples options) (JBool false) in
      let summaryOnly := with_default (summaryOnly options) (JBool false) in
      let maxEndpoints :=
        match maxEndpoints options with Some n => n | None => number_of_Z 10 end in
      match pattern with
      | Throw e => Throw e
      | Ok pattern_test =>
          let matchingEndpoints :=
            collect_paths includeSchemas includeExamples summaryOnly maxEndpoints
              pattern_test (paths doc) [] in
          Ok (JObj [("matchCount", JNum (Z.of_nat (List.length matchingEndpoints)));
                    ("endpoints", JArr matchingEndpoints)])
      end
  end.

(** A pattern without regular-expression metacharacters tests, with the
    [i] flag, for a case-insensitive occurrence. *)
Definition literal_test (pathPattern : string) : string -> bool :=
  fun path => path_matches pathPattern path.

(** [new RegExp(p, 'i')] for such a pattern; without a pattern the
    expression accepts every path.  The examples use it for [new RegExp]. *)
Definition literal_regexp (p : JsVal) : Result (string -> bool) :=
  match p with
  | JUndefined => Ok (fun _ => true)
  | _ => Ok (literal_test (toStr p))
  end.

(** [Math.min(K || 10, 50)] for a number [K]: the limit the tool handler
    passes to the client. *)
Definition tool_maxEndpoints (K : Number) : Number :=
  math_min (number_or K (number_of_Z 10)) (number_of_Z 50).

(** The case [connectwise_get_endpoint_details] of the tool handler: it
    caps [maxEndpoints] at 50 before it calls the client.  [regexp] is
    [new RegExp(_, 'i')]. *)
Definition endpoint_details_tool (schema : option SchemaDocument)
    (regexp : JsVal -> Result (string -> bool)) (args : JsVal) : Result JsVal :=
  getEndpointDetails schema (regexp (optProp args "pathPattern"))
    {| includeSchemas := optProp args "includeSchemas";
       includeExamples := optProp args "includeExamples";
       summaryOnly := optProp args "summaryOnly";
       maxEndpoints :=
         Some (number_of_Num
                 (num_min (toNumber (or_else (optProp args "maxEndpoints") (JNum 10)))
                          (Fin 50))) |}.

(** The text [searchEndpoints] searches for one operation. *)
Definition searchableText (path method : string) (op : JsVal) : Result string :=
  match spread (or_else (optProp op "tags") (JArr [])) with
  | Throw e => Throw e
  | Ok tags =>
      Ok (toLowerCase
            (joinVals " " ([JStr path; JStr method;
                            or_else (optProp op "operationId") (JStr "");
                            or_else (optProp op "summary") (JStr "");
                            or_else (optProp op "description") (JStr "")]
                           ++ tags)))
  end.

(** The line a match adds to the results. *)
Definition result_line (path method : string) (op : JsVal) : string :=
  toUpperCase method ++ " " ++ path ++ " - "
  ++ toStr (or_else (optProp op "summary") (JStr "No summary")).

(** [searchTerms.every(term => searchableText.includes(term))]. *)
Definition every_term (searchTerms : list string) (text : string) : bool :=
  forallb (fun term => includes text term) searchTerms.

Fixpoint search_methods (searchTerms : list string) (path : string)
    (ops : list (string * JsVal)) (results : list string) : Result (list string) :=
  match ops with
  | [] => Ok results
  | (method, operation) :: rest =>
      if negb (typeof_object operation) || is_null operation
      then search_methods searchTerms path rest results
      else
        match searchableText path method operation with
        | Throw e => Throw e
        | Ok text =>
            search_methods searchTerms path rest
              (if every_term searchTerms text
               then results ++ [result_line path method operation]
               else results)
        end
  end.

Fixpoint search_paths (searchTerms : list string)
    (pathEntries : list (string * JsVal)) (results : list string)
    : Result (list string) :=
  match pathEntries with
  | [] => Ok results
  | (path, pathItem) :: rest =>
      match search_methods searchTerms path (entries pathItem) results with
      | Throw e => Throw e
      | Ok found => search_paths searchTerms rest found
      end
  end.

(** [searchEndpoints(query)]; the path items are objects, as the
    [OpenAPIPath] interface declares. *)
Definition searchEndpoints (schema : option SchemaDocument) (query : string)
    : Result (list string) :=
  match schema with
  | None => Throw (Error "Schema not loaded")
  | Some doc => search_paths (splitWs (toLowerCase query)) (paths doc) []
  end.

End ConnectWiseCatalog.

(** ** Notions the statements use *)



(** A small API description used to run the catalog. *)
Module SampleDoc.

Definition operation (summary : string) (tags : list string) : JsVal :=
  JObj [("summary", JStr summary); ("tags", JArr (map JStr tags))].

Definition doc : SchemaDocument :=
  {| info := JObj [("title", JStr "Sample API")];
     servers := JArr [];
     paths :=
       [("/v2/devices", JObj [("get", operation "List devices" ["Devices"])]);
        ("/v2/device/{id}", JObj [("get", operation "Get a device" ["Devices"]);
                                  ("patch", operation "Update a device" ["Devices"])]);
        ("/v2/tickets", JObj [("post", operation "Create a service ticket" ["Service"])]);
        ("/v2/device/{id}/software", JObj [("get", operation "Software inventory" ["Devices"])]);
        ("/v2/Device/{id}/alerts", JObj [("get", operation "Alerts of a device" ["Alerts"])]);
        ("/v2/organization/{id}/devices", JObj [("get", operation "Devices of an organization" ["Devices"])])];
     componentSchemas :=
       Some [("Ticket", JObj [("type", JStr "object")]);
             ("Agent", JObj [("type", JStr "object")]);
             ("TicketType", JObj [("type", JStr "string")]);
             ("NewTicket", JObj [("type", JStr "object")]);
             ("ticketNote", JObj [("type", JStr "object")]);
             ("TicketStatus", JObj [("type", JStr "integer")])] |}.

End SampleDoc.

(** The paths of the description that a pattern matches, in document order. *)
Definition matching_paths (doc : SchemaDocument) (pathPattern : string)
    : list (string * JsVal) :=
  filter (fun e => path_matches pathPattern (fst e)) (paths doc).

(** The number of entries a limit lets through: the least count that is
    not below it.  No count reaches NaN or the positive infinity. *)
Definition allowance (limit : Number) : option nat :=
  match limit with
  | Finite q => Some (Z.to_nat (Qceiling q))
  | NegInfinity => Some 0%nat
  | PosInfinity | NotANumber => None
  end.

(** The first entries of a list that a limit lets through. *)
Definition allowed {A : Type} (limit : Number) (l : list A) : list A :=
  match allowance limit with
  | Some n => firstn n l
  | None => l
  end.

(** What the specification asks of the result [r] of an endpoint-details
    query for [pathPattern] with [maxEndpoints = K], for any number [K]: the
    entries are the first matching paths, in document order, as many as
    [min(K, 50)] lets through: no more than 50 unless [K] is NaN, and no
    more than [min(K, 50)] when [K] is a non-negative integer.  [matchCount]
    counts them, [totalMatches] counts all matching paths, and [limited] is
    true whenever entries were left out. *)
Definition truncation_report (r : JsVal) (doc : SchemaDocument)
    (pathPattern : string) (K : Number) : Prop :=
  exists shown : list (string * JsVal),
    field r "matchingPaths" = Some (JObj shown) /\
    map fst shown
      = map fst (allowed (math_min K (number_of_Z 50)) (matching_paths doc pathPattern)) /\
    (K <> NotANumber -> (List.length shown <= 50)%nat) /\
    (forall k, K = number_of_Z k ->
       (Z.of_nat (List.length shown) <= Z.max 0 (Z.min k 50))%Z) /\
    field r "matchCount" = Some (JNum (Z.of_nat (List.length shown))) /\
    field r "totalMatches"
      = Some (JNum (Z.of_nat (List.length (matching_paths doc pathPattern)))) /\
    ((List.length shown < List.length (matching_paths doc pathPattern))%nat ->
     field r "limited" = Some (JBool true)).

(** What [getEndpointDetails] of the ConnectWise client reports instead:
    the endpoints and their number, and nothing about truncation. *)
Definition bare_report (r : JsVal) (bound : Z) : Prop :=
  exists endpoints : list JsVal,
    r = JObj [("matchCount", JNum (Z.of_nat (List.length endpoints)));
              ("endpoints", JArr endpoints)] /\
    (Z.of_nat (List.length endpoints) <= bound)%Z /\
    field r "totalMatches" = None /\
    field r "limited" = None.

(** ** The candidates of a search, as each client walks them *)

(** [typeof v === 'object' && v !== null]. *)
Definition is_operation (v : JsVal) : bool := typeof_object v && negb (is_null v).

(** A candidate: path, method and operation. *)
Definition Candidate : Type := string * string * JsVal.

Definition connectwise_candidates (pathEntries : list (string * JsVal))
    : list Candidate :=
  flat_map (fun pe => map (fun me => (fst pe, fst me, snd me))
                          (filter (fun me => is_operation (snd me)) (entries (snd pe))))
           pathEntries.

Definition connectwise_line (c : Candidate) : string :=
  let '(path, method, op) := c in ConnectWiseCatalog.result_line path method op.

(** The candidate's text holds every one of the terms. *)
Definition connectwise_selected (terms : list string) (c : Candidate) : bool :=
  let '(path, method, op) := c in
  match ConnectWiseCatalog.searchableText path method op with
  | Ok text => ConnectWiseCatalog.every_term terms text
  | Throw _ => false
  end.

Definition halopsa_candidates (pathEntries : list (string * JsVal))
    : list Candidate :=
  flat_map (fun pe => map (fun me => (fst pe, fst me, snd me))
                          (EndpointDetails.method_entries (snd pe)))
           pathEntries.

Definition halopsa_found (c : Candidate) : JsVal :=
  let '(path, method, op) := c in HaloPSACatalog.found path method op.

(** The candidate's text holds the whole query as one piece. *)
Definition halopsa_selected (query : string) (c : Candidate) : bool :=
  let '(path, method, op) := c in
  match HaloPSACatalog.searchableText path op with
  | Ok text => includes text (toLowerCase query)
  | Throw _ => false
  end.

(** The tags of the operation can be spread into the searched text: they
    are absent, an array or a string. *)
Definition searchable (c : Candidate) : Prop :=
  exists tags, spread (or_else (optProp (snd c) "tags") (JArr [])) = Ok tags.

(** [t] occurs in [s]. *)
Definition occurs_in (t s : string) : Prop := exists pre post, s = pre ++ t ++ post.

(** ** The tool handlers *)

(** The response envelope: one text item, and the [isError] flag when the
    handler sets it. *)
Record Envelope : Type := {
  content : string;
  isError : bool
}.

Definition success (t : string) : Envelope := {| content := t; isError := false |}.

Definition resource_calls (l : list Sent) : list Request :=
  flat_map (fun s => match s with ResourceCall r => [r] | TokenExchange _ => [] end) l.

Module HaloPSAReporting.

(** [value.replace(/'/g, "''")]: only a string has [replace]. *)
Definition replaceQuotes (what : string) (v : JsVal) : Result string :=
  match v with
  | JStr s => Ok (escapeQuotes s)
  | _ => Throw (TypeError (what ++ ".replace is not a function"))
  end.

(** [columns.join(', ')]: only an array has [join]. *)
Definition joinColumns (columns : JsVal) : Result string :=
  match columns with
  | JArr items => Ok (joinVals ", " items)
  | _ => Throw (TypeError "columns.join is not a function")
  end.

(** [columns && columns.length > 0]. *)
Definition has_columns (columns : JsVal) : bool :=
  truthy columns && num_gt (toNumber (lengthOf columns)) (Fin 0).

(** The select list: the columns joined, or [*]. *)
Definition select_list (columns : JsVal) : Result string :=
  if has_columns columns then joinColumns columns else Ok "*".

(** One condition of the WHERE clause. *)
Definition condition (kv : string * JsVal) : string :=
  let '(key, value) := kv in
  match value with
  | JNull => key ++ " IS NULL"
  | JStr s => key ++ " = '" ++ escapeQuotes s ++ "'"
  | _ => key ++ " = " ++ toStr value
  end.

(** [conditions && Object.keys(conditions).length > 0], and the clause. *)
Definition where_clause (conditions : JsVal) : string :=
  if truthy conditions && (0 <? List.length (entries conditions))%nat
  then " WHERE " ++ join " AND " (map condition (entries conditions))
  else "".

Definition order_clause (orderBy : JsVal) : string :=
  if truthy orderBy then " ORDER BY " ++ toStr orderBy else "".

(** The query [halopsa_build_query] builds from its five arguments: first
    without TOP, then, when [limit] is truthy, once more with it. *)
Definition build (tableName columns conditions orderBy limit : JsVal) : Result string :=
  match select_list columns with
  | Throw e => Throw e
  | Ok cols =>
      let query := "SELECT " ++ cols ++ " FROM " ++ toStr tableName
                   ++ where_clause conditions ++ order_clause orderBy in
      if truthy limit
      then Ok ("SELECT TOP " ++ toStr limit ++ " " ++ cols ++ " FROM " ++ toStr tableName
               ++ where_clause conditions ++ order_clause orderBy)
      else Ok query
  end.

(** The case [halopsa_build_query]: the arguments are destructured, which
    throws when there is no argument object. *)
Definition build_query (args : JsVal) : Result string :=
  match destructure "args" args "tableName" with
  | Throw e => Throw e
  | Ok tableName =>
      build tableName (optProp args "columns") (optProp args "conditions")
            (optProp args "orderBy") (optProp args "limit")
  end.

Definition columns_select : string :=
  "SELECT " ++ nl
  ++ "          Table_name as [Table Name]," ++ nl
  ++ "          Column_name as [Column Name]," ++ nl
  ++ "          Data_type as [Data Type]," ++ nl
  ++ "          Character_maximum_length as [Max Characters]," ++ nl
  ++ "          Is_nullable as [Can be Null?]" ++ nl
  ++ "        FROM information_schema.columns".

(** The SQL of [halopsa_list_tables]. *)
Definition list_tables_sql (filter : JsVal) : Result string :=
  if truthy filter
  then match replaceQuotes "filter" filter with
       | Throw e => Throw e
       | Ok escapedFilter =>
           Ok ("SELECT Name FROM sys.tables" ++ " WHERE LOWER(Name) LIKE '%"
               ++ toLowerCase escapedFilter ++ "%'")
       end
  else Ok "SELECT Name FROM sys.tables".

(** The SQL of [halopsa_list_columns]. *)
Definition list_columns_sql (tableName columnFilter : JsVal) : Result string :=
  match (if truthy tableName
         then match replaceQuotes "tableName" tableName with
              | Throw e => Throw e
              | Ok escapedTable =>
                  Ok ["LOWER(Table_name) = '" ++ toLowerCase escapedTable ++ "'"]
              end
         else Ok []) with
  | Throw e => Throw e
  | Ok c1 =>
      match (if truthy columnFilter
             then match replaceQuotes "columnFilter" columnFilter with
                  | Throw e => Throw e
                  | Ok escapedFilter =>
                      Ok (c1 ++ [("LOWER(Column_name) LIKE '%"
                                  ++ toLowerCase escapedFilter ++ "%'")%string])%list
                  end
             else Ok c1) with
      | Throw e => Throw e
      | Ok conditions =>
          Ok (if (0 <? List.length conditions)%nat
              then columns_select ++ " WHERE " ++ join " AND " conditions
              else columns_select)
      end
  end.

(** The SQL of [halopsa_table_info]. *)
Definition table_info_sql (tableName : JsVal) : Result string :=
  if negb (truthy tableName) then Throw (Error "Table name is required")
  else match replaceQuotes "tableName" tableName with
       | Throw e => Throw e
       | Ok escapedTable =>
           Ok (columns_select ++ nl ++ "        WHERE LOWER(Table_name) = '"
               ++ toLowerCase escapedTable ++ "'")
       end.

Section Handler.

Variable nw : Network.
Variable cfg : HaloPSAClient.HaloPSAConfig.

(** [JSON.stringify(value, null, 2)]. *)
Variable stringify : JsVal -> string.

(** How the rows of a report are turned into the answer of
    [halopsa_list_tables], [halopsa_list_columns] (given the table name) and
    [halopsa_table_info] (given the table name): mapping, sorting and
    grouping of the rows.  Each may throw on rows of an unexpected shape, and
    the last throws when the table has no columns. *)
Variable present_tables : JsVal -> Result JsVal.
Variable present_columns : JsVal -> JsVal -> Result JsVal.
Variable present_table_info : JsVal -> JsVal -> Result JsVal.

(** The [switch] of the handler. *)
Definition dispatch (name : string) (args : JsVal) : Eff Envelope :=
  if name =? "halopsa_list_tables" then
    (filter <- lift (destructure "args" args "filter") ;;
     sql <- lift (list_tables_sql filter) ;;
     result <- HaloPSAClient.executeQuery nw cfg (JStr sql) ;;
     shown <- lift (present_tables result) ;;
     ret (success (stringify shown)))%eff
  else if name =? "halopsa_list_columns" then
    (tableName <- lift (destructure "args" args "tableName") ;;
     sql <- lift (list_columns_sql tableName (optProp args "columnFilter")) ;;
     result <- HaloPSAClient.executeQuery nw cfg (JStr sql) ;;
     shown <- lift (present_columns tableName result) ;;
     ret (success (stringify shown)))%eff
  else if name =? "halopsa_query" then
    (sql <- lift (destructure "args" args "sql") ;;
     result <- HaloPSAClient.executeQuery nw cfg sql ;;
     ret (success (stringify result)))%eff
  else if name =? "halopsa_table_info" then
    (tableName <- lift (destructure "args" args "tableName") ;;
     sql <- lift (table_info_sql tableName) ;;
     result <- HaloPSAClient.executeQuery nw cfg (JStr sql) ;;
     shown <- lift (present_table_info tableName result) ;;
     ret (success (stringify shown)))%eff
  else if name =? "halopsa_build_query" then
    (query <- lift (build_query args) ;;
     ret (success query))%eff
  else throw (Error ("Unknown tool: " ++ name)).

(** The call-tool request handler: the whole [switch] runs inside [try]. *)
Definition handler (name : string) (args : JsVal) : Eff Envelope :=
  try_catch (dispatch name args)
    (fun error => ret {| content := "Error: " ++ err_message error; isError := true |}).

End Handler.

End HaloPSAReporting.

(** ** The query the builder is asked for *)

(** The arguments of [halopsa_build_query] as the tool declares them, and
    the SQL text the specification describes for them. *)
Module BuildQuery.

(** A table name and, each optional, column names, conditions (a value for
    each of a list of keys), an ordering and a limit. *)
Record Query : Type := {
  tableName : string;
  columns : option (list string);
  conditions : option (list (string * JsVal));
  orderBy : option string;
  limit : option Z
}.



(** The pieces of a text between its single quotes: none of them holds a
    quote, and put together again with a quote between them they are the
    text. *)
Fixpoint pieces (s : string) : list string :=
  match s with
  | EmptyString => [EmptyString]
  | String c rest =>
      if Ascii.eqb c "'"%char then EmptyString :: pieces rest
      else match pieces rest with
           | p :: ps => String c p :: ps
           | [] => [String c EmptyString]
           end
  end.

(** A string as an SQL literal: between single quotes, every single quote
    of the string written twice. *)
Definition literal (s : string) : string := "'" ++ join "''" (pieces s) ++ "'".



(** One condition: [key IS NULL] for null, the quoted literal for a string,
    the digits for a number. *)
Definition condition (kv : string * JsVal) : string :=
  match snd kv with
  | JNull => fst kv ++ " IS NULL"
  | JStr s => fst kv ++ " = " ++ literal s
  | JNum n => fst kv ++ " = " ++ string_of_Z n
  | _ => fst kv
  end.

(** The column list: the names separated by commas, or [*] when there are
    none. *)
Definition column_list (q : Query) : string :=
  match columns q with
  | Some (c :: cs) => join ", " (c :: cs)
  | _ => "*"
  end.

(** The WHERE clause: the conditions joined by AND, nothing when there are
    none. *)
Definition where_clause (q : Query) : string :=
  match conditions q with
  | Some (c :: cs) => " WHERE " ++ join " AND " (map condition (c :: cs))
  | _ => ""
  end.

(** The ORDER BY clause, nothing when no ordering (or an empty one) is
    given. *)
Definition order_clause (q : Query) : string :=
  match orderBy q with
  | Some EmptyString | None => ""
  | Some o => " ORDER BY " ++ o
  end.

(** What follows SELECT, or SELECT TOP n, in the query. *)
Definition body (q : Query) : string :=
  column_list q ++ " FROM " ++ tableName q ++ where_clause q ++ order_clause q.

(** The SQL text: with TOP when a limit other than 0 is given. *)
Definition text (q : Query) : string :=
  match limit q with
  | Some n => if (n =? 0)%Z then "SELECT " ++ body q
              else "SELECT TOP " ++ string_of_Z n ++ " " ++ body q
  | None => "SELECT " ++ body q
  end.

End BuildQuery.

Module NinjaOneServer.

(** The environment variables the server reads. *)
Record ProcessEnv : Type := {
  NINJAONE_CLIENT_ID : option string;
  NINJAONE_CLIENT_SECRET : option string;
  NINJAONE_REGION : option string;
  NINJAONE_SCOPE : option string
}.

Definition unset (v : option string) : bool :=
  match v with
  | Some s => s =? ""
  | None => true
  end.

Definition or_default (v : option string) (d : string) : string :=
  match v with
  | Some s => if s =? "" then d else s
  | None => d
  end.

(** [initializeClient]: it throws when a credential is missing. *)
Definition initializeClient (env : ProcessEnv) : Result NinjaOneClient.AuthConfig :=
  if unset (NINJAONE_CLIENT_ID env) || unset (NINJAONE_CLIENT_SECRET env)
  then Throw (Error
    "NINJAONE_CLIENT_ID and NINJAONE_CLIENT_SECRET environment variables are required")
  else Ok {| NinjaOneClient.clientId := or_default (NINJAONE_CLIENT_ID env) "";
             NinjaOneClient.clientSecret := or_default (NINJAONE_CLIENT_SECRET env) "";
             NinjaOneClient.region := or_default (NINJAONE_REGION env) "us";
             NinjaOneClient.authScope := or_default (NINJAONE_SCOPE env) "monitoring" |}.

(** A case of the [switch]: the client method it calls and, for each
    argument in order, the key [getArg] reads and its default. *)
Record Case : Type := {
  calls : string;
  reads : list (string * JsVal)
}.

Definition arg (key : string) : string * JsVal := (key, JUndefined).

(** The cases of the [switch], by operation name. *)
Definition cases : list (string * Case) :=
  [ ("ninjaone_get_organizations",
     {| calls := "getOrganizations"; reads := [arg "pageSize"; arg "after"] |});
    ("ninjaone_get_organization",
     {| calls := "getOrganization"; reads := [arg "id"] |});
    ("ninjaone_get_devices",
     {| calls := "getDevices"; reads := [arg "pageSize"; arg "after"; arg "df"] |});
    ("ninjaone_get_device",
     {| calls := "getDevice"; reads := [arg "id"] |});
    ("ninjaone_get_devices_by_org",
     {| calls := "getDevicesByOrganization";
        reads := [arg "orgId"; arg "pageSize"; arg "after"] |});
    ("ninjaone_get_alerts",
     {| calls := "getAlerts"; reads := [arg "status"; arg "since"] |});
    ("ninjaone_reset_alert",
     {| calls := "resetAlert"; reads := [arg "uid"] |});
    ("ninjaone_get_activities",
     {| calls := "getActivities";
        reads := [arg "pageSize"; arg "after"; arg "since"; arg "type"] |});
    ("ninjaone_get_device_activities",
     {| calls := "getDeviceActivities";
        reads := [arg "deviceId"; arg "pageSize"; arg "after"; arg "since"] |});
    ("ninjaone_get_device_software",
     {| calls := "getDeviceSoftware"; reads := [arg "deviceId"] |});
    ("ninjaone_get_org_software",
     {| calls := "getOrganizationSoftware"; reads := [arg "orgId"] |});
    ("ninjaone_get_policies",
     {| calls := "getPolicies"; reads := [] |});
    ("ninjaone_get_policy",
     {| calls := "getPolicy"; reads := [arg "id"] |});
    ("ninjaone_get_locations",
     {| calls := "getLocations"; reads := [arg "pageSize"; arg "after"] |});
    ("ninjaone_get_location",
     {| calls := "getLocation"; reads := [arg "id"] |});
    ("ninjaone_get_users",
     {| calls := "getUsers"; reads := [arg "pageSize"; arg "after"] |});
    ("ninjaone_get_device_roles",
     {| calls := "getDeviceRoles"; reads := [] |});
    ("ninjaone_get_device_custom_fields",
     {| calls := "getDeviceCustomFields"; reads := [arg "deviceId"] |});
    ("ninjaone_update_device_custom_fields",
     {| calls := "updateDeviceCustomFields"; reads := [arg "deviceId"; arg "fields"] |});
    ("ninjaone_get_jobs",
     {| calls := "getJobs"; reads := [arg "pageSize"; arg "after"; arg "status"] |});
    ("ninjaone_get_job",
     {| calls := "getJob"; reads := [arg "id"] |});
    ("ninjaone_get_tasks",
     {| calls := "getTasks"; reads := [arg "pageSize"; arg "after"] |});
    ("ninjaone_run_script",
     {| calls := "runScript";
        reads := [arg "deviceId"; arg "scriptId"; arg "parameters"] |});
    ("ninjaone_get_api_schema_overview",
     {| calls := "getApiSchemaOverview"; reads := [] |});
    ("ninjaone_get_api_endpoint_details",
     {| calls := "getApiEndpointDetails";
        reads := [arg "pathPattern"; ("summaryOnly", JBool false);
                  ("includeSchemas", JBool true); ("maxEndpoints", JNum 10);
                  ("includeExamples", JBool false)] |});
    ("ninjaone_search_devices",
     {| calls := "searchDevices";
        reads := [arg "hostname"; arg "status"; arg "os"; arg "organization";
                  arg "location"; arg "deviceType"; arg "pageSize"; arg "after"] |});
    ("ninjaone_api_call",
     {| calls := "makeApiCall";
        reads := [arg "path"; arg "method"; arg "body"; arg "queryParams"] |}) ].

Fixpoint find_case (name : string) (l : list (string * Case)) : option Case :=
  match l with
  | [] => None
  | (n, c) :: rest => if n =? name then Some c else find_case name rest
  end.

(** [getArg(key, defaultValue)]: the argument when the bag is an object
    that has the key, the default otherwise. *)
Definition getArg (args : JsVal) (key : string) (defaultValue : JsVal) : JsVal :=
  if truthy args && typeof_object args
  then match lookup key (entries args) with
       | Some v => v
       | None => defaultValue
       end
  else defaultValue.

(** The server: the module variable [ninjaClient] and the world its client
    acts on. *)
Record Server : Type := {
  ninjaClient : option NinjaOneClient.AuthConfig;
  world : World
}.

(** What the handler did: it returned an envelope or it threw. *)
Definition Outcome : Type := Result Envelope * Server.

Section Handler.

Variable env : ProcessEnv.

(** [JSON.stringify(result, null, 2)]. *)
Variable stringify : JsVal -> string.

(** The methods of the client, by name, applied to the arguments the case
    read: any call on the client, which may throw. *)
Variable client_method :
  NinjaOneClient.AuthConfig -> string -> list JsVal -> Eff JsVal.

(** The [switch] of the handler. *)
Definition dispatch (c : NinjaOneClient.AuthConfig) (name : string) (args : JsVal)
    : Eff Envelope :=
  match find_case name cases with
  | Some case =>
      (result <- client_method c (calls case)
                   (map (fun kd => getArg args (fst kd) (snd kd)) (reads case)) ;;
       ret (success (stringify result)))%eff
  | None => throw (Error ("Unknown tool: " ++ name))
  end.

(** The call-tool request handler: the client is initialized before the
    [try], the [switch] runs inside it. *)
Definition handler (name : string) (args : JsVal) (s : Server) : Outcome :=
  match (match ninjaClient s with
         | Some c => Ok c
         | None => initializeClient env
         end) with
  | Throw e => (Throw e, s)
  | Ok c =>
      let '(r, w') :=
        try_catch (dispatch c name args)
          (fun error => ret {| content := "Error: " ++ err_message error;
                               isError := false |})
          (world s) in
      (r, {| ninjaClient := Some c; world := w' |})
  end.

End Handler.

End NinjaOneServer.

(** ** Calls in sequence, and networks that refuse *)

(** The exchange with the token endpoint fails: the network fails, the
    answer is not 2xx, or its body is not JSON. *)
Definition exchange_fails (nw : Network) (r : Request) : Prop :=
  match token_endpoint nw r with
  | Throw _ => True
  | Ok resp => ok resp = false \/ json resp = None
  end.

(** The world in which a call is made at the instant [t]. *)
Definition at_time (t : Z) (w : World) : World :=
  {| client := client w; now := t; sent := sent w |}.

(** The same call made at each of the given instants, one after the other. *)
Fixpoint calls_at (call : Eff unit) (times : list Z) (w : World) : World :=
  match times with
  | [] => w
  | t :: rest => calls_at call rest (snd (call (at_time t w)))
  end.

(** The world after a refused exchange: only the clock and the log moved. *)
Definition refused (w : World) (r : Request) (lat : Z) : World :=
  {| client := client w; now := (now w + lat)%Z;
     sent := (sent w ++ [TokenExchange r])%list |}.

Module SampleNets.

(** A token endpoint that answers 401. *)
Definition denying : Network :=
  {| token_endpoint := fun _ =>
       Ok {| status := 401; statusText := "Unauthorized";
             contentType := Some "text/plain"; text := "bad credentials";
             json := None |};
     resource := fun _ => Ok (Sample.answer (Some "text/plain") "pong" None);
     latency := fun _ => 5%Z;
     zone := Date.utc |}.

(** A token endpoint whose grants last exactly 60 seconds. *)
Definition short_grant : TokenResponse :=
  {| access_token := "tok"; token_type := "Bearer"; expires_in := 60; scope := "all" |}.

Definition short_lived : Network :=
  {| token_endpoint := fun _ =>
       Ok (Sample.answer (Some "application/json") "{}" (Some short_grant));
     resource := fun _ => Ok (Sample.answer (Some "text/plain") "pong" None);
     latency := fun _ => 0%Z;
     zone := Date.utc |}.

(** A host whose clocks go forward by one hour at the instant [change]: the
    local times of the hour that is skipped are read back with the offset in
    force before the change. *)
Definition clocks_forward (change : Z) : Date.Zone :=
  {| Date.offset_at := fun t => if (t <? change)%Z then 0%Z else 3600000%Z;
     Date.offset_of_local :=
       fun t => if (t <? change + 3600000)%Z then 0%Z else 3600000%Z |}.

(** A host whose clocks go back by one hour at the instant [change]: the
    local times of the hour that comes twice are read back as the earlier of
    the two instants. *)
Definition clocks_back (change : Z) : Date.Zone :=
  {| Date.offset_at := fun t => if (t <? change)%Z then 3600000%Z else 0%Z;
     Date.offset_of_local :=
       fun t => if (t <? change + 3600000)%Z then 3600000%Z else 0%Z |}.

(** A network that grants a token for [E] seconds at once, on a host in the
    given time zone. *)
Definition granting (E : Z) (z : Date.Zone) : Network :=
  {| token_endpoint := fun _ =>
       Ok (Sample.answer (Some "application/json") "{}"
             (Some {| access_token := "tok"; token_type := "Bearer";
                      expires_in := E; scope := "all" |}));
     resource := fun _ => Ok (Sample.answer (Some "text/plain") "pong" None);
     latency := fun _ => 0%Z;
     zone := z |}.

End SampleNets.

(** ** Reading strings *)

(** Every character of the string is white space. *)
Fixpoint blank (s : string) : bool :=
  match s with
  | EmptyString => true
  | String c s' => is_space c && blank s'
  end.

(** No character of the string is white space. *)
Fixpoint spaceless (s : string) : bool :=
  match s with
  | EmptyString => true
  | String c s' => negb (is_space c) && spaceless s'
  end.

(** Every character of the string is an ASCII character (below 128).  On
    such text [toLowerCase] and [toUpperCase] change the letters A to Z and
    a to z and nothing else, in JavaScript as here; outside ASCII the case
    mappings of JavaScript also change other letters, and may change the
    length of the text. *)
Fixpoint ascii_only (s : string) : bool :=
  match s with
  | EmptyString => true
  | String c s' => (nat_of_ascii c <? 128)%nat && ascii_only s'
  end.

(** How SQL reads the inside of a quoted literal: two single quotes stand
    for one, and a single quote on its own ends the literal, so the text is
    the inside of one literal only when it has no such quote. *)
Fixpoint read_literal (s : string) : option string :=
  match s with
  | EmptyString => Some EmptyString
  | String c rest =>
      if Ascii.eqb c "'"%char
      then match rest with
           | String c2 rest2 =>
               if Ascii.eqb c2 "'"%char
               then option_map (String "'"%char) (read_literal rest2)
               else None
           | EmptyString => None
           end
      else option_map (String c) (read_literal rest)
  end.

(** ** All the endpoints of the paths a pattern accepts *)

(** The endpoint objects of every operation of every accepted path, in
    document order: what [getEndpointDetails] of the ConnectWise client
    would collect if nothing stopped its loops. *)
Definition connectwise_endpoints (includeSchemas includeExamples summaryOnly : JsVal)
    (pattern_test : string -> bool) (pathEntries : list (string * JsVal))
    : list JsVal :=
  flat_map (fun pe =>
              map (fun me => ConnectWiseCatalog.endpoint includeSchemas includeExamples
                               summaryOnly (fst pe) (fst me) (snd me))
                  (filter (fun me => is_operation (snd me)) (entries (snd pe))))
           (filter (fun pe => pattern_test (fst pe)) pathEntries).

(** ** The call-tool handler of the ConnectWise server *)

Module ConnectWiseServer.

(** The path [connectwise_get_sites] asks for. *)
Definition sitesPath (args : JsVal) : string :=
  if truthy (optProp args "companyId")
  then "/api/platform/v1/company/companies/" ++ toStr (optProp args "companyId") ++ "/sites"
  else "/api/platform/v1/company/sites".

(** The path [connectwise_get_devices] asks for. *)
Definition devicePath (args : JsVal) : string :=
  if truthy (optProp args "clientId") && truthy (optProp args "siteId")
  then "/api/platform/v1/device/clients/" ++ toStr (optProp args "clientId")
       ++ "/sites/" ++ toStr (optProp args "siteId") ++ "/endpoints"
  else if truthy (optProp args "clientId")
  then "/api/platform/v1/device/clients/" ++ toStr (optProp args "clientId")
       ++ "/endpoints"
  else "/api/platform/v1/device/endpoints".

(** [if (args?.key) ticketParams.key = args.key]. *)
Definition copy_truthy (args : JsVal) (key : string)
    (params : list (string * JsVal)) : list (string * JsVal) :=
  if truthy (optProp args key) then set_prop params key (optProp args key) else params.

(** The query parameters [connectwise_get_tickets] passes on. *)
Definition ticketParams (args : JsVal) : JsVal :=
  let p0 := [] in
  let p1 := copy_truthy args "pageSize" p0 in
  let p2 := copy_truthy args "pageNum" p1 in
  let p3 := copy_truthy args "companyIds" p2 in
  let p4 := copy_truthy args "statusNames" p3 in
  let p5 := copy_truthy args "priorityNames" p4 in
  let p6 := copy_truthy args "summary" p5 in
  JObj p6.

(** The body [connectwise_create_ticket] posts. *)
Definition newTicket (args : JsVal) : JsVal :=
  JObj [("summary", optProp args "summary");
        ("detail", optProp args "detail");
        ("companyId", optProp args "companyId");
        ("siteId", optProp args "siteId");
        ("priorityId", optProp args "priorityId");
        ("statusId", optProp args "statusId")].

(** [client.searchEndpoints(args?.query as string)]: the client tests that
    its description is loaded, then calls [toLowerCase] on what it was
    given. *)
Definition searchEndpoints (schema : option SchemaDocument) (query : JsVal)
    : Result (list string) :=
  match schema, query with
  | None, _ => Throw (Error "Schema not loaded")
  | Some _, JStr q => ConnectWiseCatalog.searchEndpoints schema q
  | Some _, JUndefined =>
      Throw (TypeError "Cannot read properties of undefined (reading 'toLowerCase')")
  | Some _, JNull =>
      Throw (TypeError "Cannot read properties of null (reading 'toLowerCase')")
  | Some _, _ => Throw (TypeError "query.toLowerCase is not a function")
  end.

Section Handler.

Variable nw : Network.
Variable cfg : ConnectWiseRMMClient.Config.

(** The description the client loaded when it was built, if it could. *)
Variable schema : option SchemaDocument.

(** [JSON.stringify(value, null, 2)]. *)
Variable stringify : JsVal -> string.

(** [client.getSchemaOverview()], which may throw. *)
Variable getSchemaOverview : Result JsVal.

(** [new RegExp(pathPattern, 'i')]: the [test] of the expression, or the
    error thrown for a pattern that is not a regular expression. *)
Variable regexp : JsVal -> Result (string -> bool).

(** [client.makeRequest] when the method it is given is not a string. *)
Variable makeRequest_untyped : JsVal -> string -> JsVal -> JsVal -> Eff JsVal.

Definition get (path : string) : Eff Envelope :=
  (result <- ConnectWiseRMMClient.makeRequest nw cfg "GET" path JUndefined JUndefined ;;
   ret (success (stringify result)))%eff.

(** The [switch] of the handler. *)
Definition dispatch (name : string) (args : JsVal) : Eff Envelope :=
  if name =? "connectwise_get_schema_overview" then
    (overview <- lift getSchemaOverview ;;
     ret (success (stringify overview)))%eff
  else if name =? "connectwise_get_endpoint_details" then
    (details <- lift (ConnectWiseCatalog.endpoint_details_tool schema regexp args) ;;
     ret (success (stringify details)))%eff
  else if name =? "connectwise_search_endpoints" then
    (results <- lift (searchEndpoints schema (optProp args "query")) ;;
     ret (success (stringify
                     (JObj [("results", JArr (map JStr results));
                            ("count", JNum (Z.of_nat (List.length results)))]))))%eff
  else if name =? "connectwise_api_call" then
    (response <-
       match optProp args "method" with
       | JStr m =>
           ConnectWiseRMMClient.makeRequest nw cfg m (toStr (optProp args "path"))
             (optProp args "body") (optProp args "queryParams")
       | m =>
           makeRequest_untyped m (toStr (optProp args "path"))
             (optProp args "body") (optProp args "queryParams")
       end ;;
     ret (success (stringify response)))%eff
  else if name =? "connectwise_get_companies" then
    get "/api/platform/v1/company/companies"
  else if name =? "connectwise_get_company" then
    get ("/api/platform/v1/company/companies/" ++ toStr (optProp args "companyId"))
  else if name =? "connectwise_get_sites" then
    get (sitesPath args)
  else if name =? "connectwise_get_devices" then
    get (devicePath args)
  else if name =? "connectwise_get_device" then
    get ("/api/platform/v1/device/endpoints/" ++ toStr (optProp args "endpointId"))
  else if name =? "connectwise_get_tickets" then
    (tickets <- ConnectWiseRMMClient.makeRequest nw cfg "GET"
                  "/api/platform/v1/service/ticketing/tickets" JNull (ticketParams args) ;;
     ret (success (stringify tickets)))%eff
  else if name =? "connectwise_get_ticket" then
    get ("/api/platform/v1/service/ticketing/tickets/" ++ toStr (optProp args "ticketId"))
  else if name =? "connectwise_create_ticket" then
    (ticket <- ConnectWiseRMMClient.makeRequest nw cfg "POST"
                 "/api/platform/v1/service/ticketing/tickets" (newTicket args) JUndefined ;;
     ret (success (stringify ticket)))%eff
  else throw (Error ("Unknown tool: " ++ name)).

(** The call-tool request handler: the whole [switch] runs inside [try]. *)
Definition handler (name : string) (args : JsVal) : Eff Envelope :=
  try_catch (dispatch name args)
    (fun error => ret {| content := "Error: " ++ err_message error; isError := true |}).

End Handler.

End ConnectWiseServer.

(** What a test for truthiness lets through of a value. *)
Definition truthy_part (v : JsVal) : JsVal := if truthy v then v else JUndefined.

(** ** The HaloPSA server that also serves the API description *)

Module HaloPSAServer.

(** The tools the server lists, with the arguments their input schemas
    declare and those they require. *)
Record ToolSchema : Type := {
  tool_name : string;
  properties : list string;
  required : list string
}.

Definition tools : list ToolSchema :=
  [ {| tool_name := "halopsa_list_tables"; properties := ["filter"]; required := [] |};
    {| tool_name := "halopsa_list_columns";
       properties := ["tableName"; "columnFilter"]; required := ["tableName"] |};
    {| tool_name := "halopsa_query";
       properties := ["sql"; "loadReportOnly"]; required := ["sql"] |};
    {| tool_name := "halopsa_table_info";
       properties := ["tableName"]; required := ["tableName"] |};
    {| tool_name := "halopsa_build_query";
       properties := ["tableName"; "columns"; "conditions"; "orderBy"; "limit"];
       required := ["tableName"] |};
    {| tool_name := "halopsa_list_api_endpoints";
       properties := ["category"; "limit"; "skip"]; required := [] |};
    {| tool_name := "halopsa_get_api_endpoint_details";
       properties := ["pathPattern"; "summaryOnly"; "includeSchemas"; "maxEndpoints";
                      "includeExamples"];
       required := ["pathPattern"] |};
    {| tool_name := "halopsa_search_api_endpoints";
       properties := ["query"; "limit"; "skip"]; required := ["query"] |};
    {| tool_name := "halopsa_get_api_schemas";
       properties := ["schemaPattern"; "limit"; "skip"; "listNames"]; required := [] |};
    {| tool_name := "halopsa_api_call";
       properties := ["path"; "method"; "body"; "queryParams"]; required := ["path"] |} ].

(** The message of the error a missing argument raises. *)
Definition required_message (key : string) : string :=
  if key =? "tableName" then "Table name is required"
  else if key =? "sql" then "SQL query is required"
  else if key =? "pathPattern" then "Path pattern is required"
  else if key =? "query" then "Search query is required"
  else if key =? "path" then "API path is required"
  else "".

Definition list_columns_select : string :=
  nl ++ "          SELECT " ++ nl
  ++ "            c.TABLE_NAME," ++ nl
  ++ "            c.COLUMN_NAME," ++ nl
  ++ "            c.DATA_TYPE," ++ nl
  ++ "            c.CHARACTER_MAXIMUM_LENGTH," ++ nl
  ++ "            c.IS_NULLABLE," ++ nl
  ++ "            c.COLUMN_DEFAULT" ++ nl
  ++ "          FROM INFORMATION_SCHEMA.COLUMNS c" ++ nl
  ++ "        ".

(** The SQL of [halopsa_list_columns]: the table name is required. *)
Definition list_columns_sql (tableName columnFilter : JsVal) : Result string :=
  if negb (truthy tableName) then Throw (Error "Table name is required")
  else
    match HaloPSAReporting.replaceQuotes "tableName" tableName with
    | Throw e => Throw e
    | Ok escapedTable =>
        let c1 := ["LOWER(c.TABLE_NAME) = '" ++ toLowerCase escapedTable ++ "'"] in
        match (if truthy columnFilter
               then match HaloPSAReporting.replaceQuotes "columnFilter" columnFilter with
                    | Throw e => Throw e
                    | Ok escapedFilter =>
                        Ok (c1 ++ [("LOWER(c.COLUMN_NAME) LIKE '%"
                                    ++ toLowerCase escapedFilter ++ "%'")%string])%list
                    end
               else Ok c1) with
        | Throw e => Throw e
        | Ok conditions =>
            Ok (list_columns_select
                ++ (if (0 <? List.length conditions)%nat
                    then " WHERE " ++ join " AND " conditions else "")
                ++ " ORDER BY c.TABLE_NAME, c.ORDINAL_POSITION")
        end
    end.

(** The SQL of [halopsa_table_info]: the text before the table name and
    the text after it. *)
Definition table_info_select : string :=
  nl ++ "          SELECT " ++ nl
  ++ "            c.COLUMN_NAME," ++ nl
  ++ "            c.DATA_TYPE," ++ nl
  ++ "            c.CHARACTER_MAXIMUM_LENGTH," ++ nl
  ++ "            c.IS_NULLABLE," ++ nl
  ++ "            c.COLUMN_DEFAULT," ++ nl
  ++ "            c.ORDINAL_POSITION" ++ nl
  ++ "          FROM INFORMATION_SCHEMA.COLUMNS c" ++ nl
  ++ "          WHERE LOWER(c.TABLE_NAME) = '".

Definition table_info_order : string :=
  "'" ++ nl ++ "          ORDER BY c.ORDINAL_POSITION" ++ nl ++ "        ".

Definition table_info_sql (tableName : JsVal) : Result string :=
  if negb (truthy tableName) then Throw (Error "Table name is required")
  else
    match HaloPSAReporting.replaceQuotes "tableName" tableName with
    | Throw e => Throw e
    | Ok escapedTable =>
        Ok (table_info_select ++ toLowerCase escapedTable ++ table_info_order)
    end.

(** [typeof v === 'number'] and [Array.isArray(v)]. *)
Definition typeof_number (v : JsVal) : bool :=
  match v with JNum _ => true | _ => false end.

Definition isArray (v : JsVal) : bool :=
  match v with JArr _ => true | _ => false end.

(** One clause of the WHERE of [halopsa_build_query]. *)
Definition whereClause (kv : string * JsVal) : string :=
  let '(key, value) := kv in
  match value with
  | JStr s => key ++ " = '" ++ escapeQuotes s ++ "'"
  | JNull => key ++ " IS NULL"
  | _ => key ++ " = " ++ toStr value
  end.

(** The query [halopsa_build_query] generates, piece after piece. *)
Definition generatedQuery (tableName columns conditions orderBy limit : JsVal) : string :=
  let q0 := "SELECT " in
  let q1 := if truthy limit && typeof_number limit
            then q0 ++ "TOP " ++ toStr limit ++ " " else q0 in
  let q2 := if truthy columns && isArray columns
               && num_gt (toNumber (lengthOf columns)) (Fin 0)
            then q1 ++ match columns with
                       | JArr items => joinVals ", " items
                       | _ => ""
                       end
            else q1 ++ "*" in
  let q3 := q2 ++ " FROM " ++ toStr tableName in
  let q4 := if truthy conditions && typeof_object conditions
               && (0 <? List.length (entries conditions))%nat
            then q3 ++ " WHERE " ++ join " AND " (map whereClause (entries conditions))
            else q3 in
  if truthy orderBy then q4 ++ " ORDER BY " ++ toStr orderBy else q4.

(** What [halopsa_build_query] answers, before it is printed. *)
Definition build_query (args : JsVal) : Result JsVal :=
  let tableName := optProp args "tableName" in
  let columns := optProp args "columns" in
  let conditions := optProp args "conditions" in
  let orderBy := optProp args "orderBy" in
  let limit := optProp args "limit" in
  if negb (truthy tableName) then Throw (Error "Table name is required")
  else
    Ok (JObj [("generatedQuery",
               JStr (generatedQuery tableName columns conditions orderBy limit));
              ("components",
               JObj [("table", tableName);
                     ("columns", or_else columns (JArr [JStr "*"]));
                     ("conditions", or_else conditions (JObj []));
                     ("orderBy", or_else orderBy (JStr "none"));
                     ("limit", or_else limit (JStr "none"))])]).

(** What [JSON.stringify] is given of the result of [makeApiCall]. *)
Definition payload_value (p : HaloPSAClient.Payload) : JsVal :=
  match p with
  | HaloPSAClient.Parsed v => v
  | HaloPSAClient.Raw s => JStr s
  end.

Section Handler.

Variable nw : Network.
Variable cfg : HaloPSAClient.HaloPSAConfig.

(** [JSON.stringify(value, null, 2)]. *)
Variable stringify : JsVal -> string.

(** The TypeError that destructuring the arguments raises when there is
    no argument object, by the first property destructured. *)
Variable destructure_error : string -> JsError.

(** How the rows of a report are turned into the answer of
    [halopsa_list_tables] (given the filter), [halopsa_list_columns] (given
    the two filters) and [halopsa_table_info] (given the table name). *)
Variable present_tables : JsVal -> JsVal -> Result JsVal.
Variable present_columns : JsVal -> JsVal -> JsVal -> Result JsVal.
Variable present_table_info : JsVal -> JsVal -> Result JsVal.

(** The methods of the client that read the bundled API description, on
    the arguments as they come. *)
Variable listApiEndpoints : JsVal -> JsVal -> JsVal -> Result JsVal.
Variable getApiEndpointDetails : JsVal -> JsVal -> JsVal -> JsVal -> JsVal -> Result JsVal.
Variable searchApiEndpoints : JsVal -> JsVal -> JsVal -> Result JsVal.
Variable getApiSchemas : JsVal -> JsVal -> JsVal -> JsVal -> Result JsVal.

(** [makeApiCall] when the path or the method it is given is not a
    string. *)
Variable makeApiCall_untyped : JsVal -> JsVal -> JsVal -> JsVal -> Eff JsVal.

(** [const { first, ... } = args]. *)
Definition destructure (args : JsVal) (first : string) : Eff unit :=
  match args with
  | JUndefined | JNull => throw (destructure_error first)
  | _ => ret tt
  end.

(** [if (!value) throw new Error(message)]. *)
Definition require (value : JsVal) (message : string) : Eff unit :=
  if negb (truthy value) then throw (Error message) else ret tt.

(** The [switch] of the handler. *)
Definition dispatch (name : string) (args : JsVal) : Eff Envelope :=
  if name =? "halopsa_list_tables" then
    (destructure args "filter" ;;;
     sql <- lift (HaloPSAReporting.list_tables_sql (optProp args "filter")) ;;
     result <- HaloPSAClient.executeQuery nw cfg (JStr sql) ;;
     shown <- lift (present_tables (optProp args "filter") result) ;;
     ret (success (stringify shown)))%eff
  else if name =? "halopsa_list_columns" then
    (destructure args "tableName" ;;;
     sql <- lift (list_columns_sql (optProp args "tableName")
                    (optProp args "columnFilter")) ;;
     result <- HaloPSAClient.executeQuery nw cfg (JStr sql) ;;
     shown <- lift (present_columns (optProp args "tableName")
                      (optProp args "columnFilter") result) ;;
     ret (success (stringify shown)))%eff
  else if name =? "halopsa_query" then
    (destructure args "sql" ;;;
     require (optProp args "sql") "SQL query is required" ;;;
     result <- HaloPSAClient.executeQuery nw cfg (optProp args "sql") ;;
     ret (success (stringify result)))%eff
  else if name =? "halopsa_table_info" then
    (destructure args "tableName" ;;;
     sql <- lift (table_info_sql (optProp args "tableName")) ;;
     result <- HaloPSAClient.executeQuery nw cfg (JStr sql) ;;
     shown <- lift (present_table_info (optProp args "tableName") result) ;;
     ret (success (stringify shown)))%eff
  else if name =? "halopsa_build_query" then
    (destructure args "tableName" ;;;
     built <- lift (build_query args) ;;
     ret (success (stringify built)))%eff
  else if name =? "halopsa_list_api_endpoints" then
    (destructure args "category" ;;;
     result <- lift (listApiEndpoints (optProp args "category") (optProp args "limit")
                       (optProp args "skip")) ;;
     ret (success (stringify result)))%eff
  else if name =? "halopsa_get_api_endpoint_details" then
    (destructure args "pathPattern" ;;;
     require (optProp args "pathPattern") "Path pattern is required" ;;;
     result <- lift (getApiEndpointDetails (optProp args "pathPattern")
                       (optProp args "summaryOnly") (optProp args "includeSchemas")
                       (optProp args "maxEndpoints") (optProp args "includeExamples")) ;;
     ret (success (stringify result)))%eff
  else if name =? "halopsa_search_api_endpoints" then
    (destructure args "query" ;;;
     require (optProp args "query") "Search query is required" ;;;
     result <- lift (searchApiEndpoints (optProp args "query") (optProp args "limit")
                       (optProp args "skip")) ;;
     ret (success (stringify result)))%eff
  else if name =? "halopsa_get_api_schemas" then
    (destructure args "schemaPattern" ;;;
     result <- lift (getApiSchemas (optProp args "schemaPattern") (optProp args "limit")
                       (optProp args "skip") (optProp args "listNames")) ;;
     ret (success (stringify result)))%eff
  else if name =? "halopsa_api_call" then
    (destructure args "path" ;;;
     require (optProp args "path") "API path is required" ;;;
     result <-
       match optProp args "path", or_else (optProp args "method") (JStr "GET") with
       | JStr path, JStr method =>
           (payload <- HaloPSAClient.makeApiCall nw cfg path method
                         (optProp args "body") (optProp args "queryParams") ;;
            ret (payload_value payload))
       | path, method =>
           makeApiCall_untyped path method (optProp args "body")
             (optProp args "queryParams")
       end ;;
     ret (success (stringify result)))%eff
  else throw (Error ("Unknown tool: " ++ name)).

(** The call-tool request handler: the whole [switch] runs inside [try]. *)
Definition handler (name : string) (args : JsVal) : Eff Envelope :=
  try_catch (dispatch name args)
    (fun error => ret {| content := "Error: " ++ err_message error; isError := true |}).

End Handler.

End HaloPSAServer.

(** ** The overview of the API description *)

Module SchemaOverview.

(** The two variables the [forEach] of [getApiSchemaOverview] updates. *)
Record Walk : Type := {
  pathGroups : list (string * list string);
  allPaths : list JsVal
}.

(** [if (!pathGroups[category]) pathGroups[category] = [];
    pathGroups[category].push(path)]. *)
Fixpoint push_group (groups : list (string * list string)) (category path : string)
    : list (string * list string) :=
  match groups with
  | [] => [(category, [path])]
  | (c, ps) :: rest =>
      if c =? category then (c, ps ++ [path])%list :: rest
      else (c, ps) :: push_group rest category path
  end.

(** The entry of one path in [allPaths]: its methods in upper case and the
    first summary found among its operations. *)
Definition path_info (path : string) (pathObj : JsVal) : JsVal :=
  let es := EndpointDetails.method_entries pathObj in
  let methods := map (fun e => JStr (toUpperCase (fst e))) es in
  let summary :=
    fold_left (fun summary e =>
                 if negb (truthy summary) && truthy (optProp (snd e) "summary")
                 then optProp (snd e) "summary" else summary)
              es (JStr "") in
  JObj [("path", JStr path); ("methods", JArr methods); ("summary", summary)].

(** One turn of the [forEach] callback. *)
Definition visit (categorize : string -> string) (st : Walk) (e : string * JsVal)
    : Walk :=
  {| pathGroups := push_group (pathGroups st) (categorize (fst e)) (fst e);
     allPaths := (allPaths st ++ [path_info (fst e) (snd e)])%list |}.

Definition groups_object (groups : list (string * list string))
    : list (string * JsVal) :=
  map (fun g => (fst g, JArr (map JStr (snd g)))) groups.

(** [getApiSchemaOverview] on the description, given the categorizer and
    the closing message of the client. *)
Definition overview (categorize : string -> string) (message : string)
    (schema : SchemaDocument) : JsVal :=
  let st := fold_left (visit categorize) (paths schema)
              {| pathGroups := []; allPaths := [] |} in
  JObj [("info", info schema);
        ("servers", servers schema);
        ("totalPaths", JNum (Z.of_nat (List.length (allPaths st))));
        ("pathGroups", JObj (groups_object (pathGroups st)));
        ("allPaths", JArr (slice (allPaths st) 0 100));
        ("message", JStr message)].

End SchemaOverview.

(** What the overview [r] of the description [doc] says when the paths are
    categorized by [categorize]: the number of paths, the description of the
    first 100 of them, and one group for each category that occurs, holding
    the paths of that category in document order. *)
Definition overview_report (categorize : string -> string) (doc : SchemaDocument)
    (r : JsVal) : Prop :=
  field r "totalPaths" = Some (JNum (Z.of_nat (List.length (paths doc)))) /\
  field r "allPaths"
  = Some (JArr (map (fun e => SchemaOverview.path_info (fst e) (snd e))
                    (firstn 100 (paths doc)))) /\
  exists groups,
    field r "pathGroups" = Some (JObj (SchemaOverview.groups_object groups)) /\
    NoDup (map fst groups) /\
    forall category ps,
      In (category, ps) groups <->
      ps <> [] /\
      ps = filter (fun p => categorize p =? category) (map fst (paths doc)).

Module NinjaOneOverview.
(** [NinjaOneClient.getApiSchemaOverview], on the fetched description. *)
Definition getApiSchemaOverview : SchemaDocument -> JsVal :=
  SchemaOverview.overview NinjaOne.categorizeApiPath
    "Use ninjaone_get_api_endpoint_details with a specific path to get full endpoint information".
End NinjaOneOverview.

Module HaloPSAOverview.
(** [HaloPSAClient.getApiSchemaOverview], on the bundled description. *)
Definition getApiSchemaOverview : SchemaDocument -> JsVal :=
  SchemaOverview.overview HaloPSA.categorizeApiPath
    "Use halopsa_get_api_endpoint_details with a specific path pattern to get full endpoint information".
End HaloPSAOverview.

(** ** The methods of the NinjaOne client *)

Module NinjaOneMethods.

(** [value.toString()]. *)
Definition toString (what : string) (v : JsVal) : Result string :=
  match v with
  | JUndefined =>
      Throw (TypeError "Cannot read properties of undefined (reading 'toString')")
  | JNull => Throw (TypeError "Cannot read properties of null (reading 'toString')")
  | JObj fields =>
      match lookup "toString" fields with
      | Some _ => Throw (TypeError (what ++ ".toString is not a function"))
      | None => Ok (toStr v)
      end
  | _ => Ok (toStr v)
  end.

(** A parameter with a default value: the default stands in for
    [undefined] only. *)
Definition defaulted (v d : JsVal) : JsVal :=
  match v with JUndefined => d | _ => v end.

(** [if (value) params.append(key, value)]. *)
Definition optional (key : string) (value : JsVal) : list (string * string) :=
  if truthy value then [(key, toStr value)] else [].

(** [new URLSearchParams({ pageSize: pageSize.toString() })] and the
    parameters appended to it. *)
Definition paged (pageSize : JsVal) (more : list (string * string))
    : Result (list (string * string)) :=
  match toString "pageSize" (defaulted pageSize (JNum 25)) with
  | Throw e => Throw e
  | Ok size => Ok (("pageSize", size) :: more)
  end.

(** The status table of [searchDevices].  The key looked up is in upper
    case, and no property an object inherits has such a name. *)
Definition statusMap (key : string) : option string :=
  if key =? "ONLINE" then Some "false"
  else if key =? "OFFLINE" then Some "true"
  else if key =? "STALE" then Some "true"
  else None.

Definition is_digit (c : ascii) : bool :=
  let n := nat_of_ascii c in (48 <=? n)%nat && (n <=? 57)%nat.

Fixpoint all_digits (s : string) : bool :=
  match s with
  | EmptyString => true
  | String c s' => is_digit c && all_digits s'
  end.

(** [/^\d+$/.test(value)]. *)
Definition numeric (value : JsVal) : bool :=
  negb (toStr value =? "") && all_digits (toStr value).

Definition contains (field : string) (value : JsVal) : string :=
  field ++ " contains " ++ dquote ++ toStr value ++ dquote.

(** The filter for an organization or a location: by number or by name. *)
Definition id_or_name (idField nameField : string) (value : JsVal) : string :=
  if numeric value then idField ++ " = " ++ toStr value
  else contains nameField value.

(** The filters [searchDevices] builds, in the order it pushes them. *)
Definition searchDevices_filters
    (hostname status os organization location deviceType : JsVal)
    : Result (list string) :=
  let f1 := if truthy hostname then [contains "systemName" hostname] else [] in
  match (if truthy status
         then match status with
              | JStr s =>
                  Ok (match statusMap (toUpperCase s) with
                      | Some offlineValue =>
                          (f1 ++ [("offline = " ++ offlineValue)%string])%list
                      | None => f1
                      end)
              | _ => Throw (TypeError "status.toUpperCase is not a function")
              end
         else Ok f1) with
  | Throw e => Throw e
  | Ok f2 =>
      let f3 := if truthy os then (f2 ++ [contains "os" os])%list else f2 in
      let f4 := if truthy organization
                then (f3 ++ [id_or_name "organizationId" "organizationName"
                               organization])%list
                else f3 in
      let f5 := if truthy location
                then (f4 ++ [id_or_name "locationId" "locationName" location])%list
                else f4 in
      let f6 := if truthy deviceType
                then (f5 ++ [("nodeClass = " ++ dquote ++ toStr deviceType
                              ++ dquote)%string])%list
                else f5 in
      Ok f6
  end.

(** The query parameters of [searchDevices]. *)
Definition searchDevices_params
    (hostname status os organization location deviceType pageSize after : JsVal)
    : Result (list (string * string)) :=
  match searchDevices_filters hostname status os organization location deviceType with
  | Throw e => Throw e
  | Ok filters =>
      paged pageSize
        (optional "after" after
         ++ (if (0 <? List.length filters)%nat
             then [("df", join " AND " filters)] else []))%list
  end.

(** The request for the API description, which needs no token. *)
Definition docs_request : Request :=
  {| url := "https://app.ninjarmm.com/apidocs/NinjaRMM-API-v2.json";
     query := [];
     method := "GET";
     headers := [];
     body := NoBody |}.

(** The body [makeApiCall] sends. *)
Definition call_body (meth : string) (payload : JsVal) : Body :=
  if truthy payload && ((meth =? "POST") || (meth =? "PUT") || (meth =? "PATCH"))
  then (if typeof_object payload then JsonBody payload else RawBody payload)
  else NoBody.

(** The parameters [makeApiCall] appends to the path. *)
Definition call_params (queryParams : JsVal) : list (string * string) :=
  if truthy queryParams && (0 <? List.length (entries queryParams))%nat
  then map (fun kv => (fst kv, toStr (snd kv)))
           (filter (fun kv => match snd kv with
                              | JUndefined | JNull => false
                              | _ => true
                              end) (entries queryParams))
  else [].

Section Methods.

Variable nw : Network.

(** [URLSearchParams.prototype.toString]: the parameters, encoded. *)
Variable encode : list (string * string) -> string.

(** What [getApiSchemaOverview] and [getApiEndpointDetails] (given its
    five arguments) make of the description they fetched. *)
Variable overview_of : JsVal -> Result JsVal.
Variable details_of : JsVal -> list JsVal -> Result JsVal.

(** [makeApiCall] when the path is not a string, or the method is neither
    a string nor left out. *)
Variable makeApiCall_untyped :
  NinjaOneClient.AuthConfig -> JsVal -> JsVal -> JsVal -> JsVal -> Eff JsVal.

Variable cfg : NinjaOneClient.AuthConfig.

Definition get (path : string) : Eff JsVal :=
  NinjaOneClient.request nw cfg path "GET" NoBody.

(** A listing: [request(`${path}?${params}`)]. *)
Definition listing (path : string) (params : Result (list (string * string)))
    : Eff JsVal :=
  match params with
  | Throw e => throw e
  | Ok ps => get (path ++ "?" ++ encode ps)
  end.

Definition getOrganizations (pageSize after : JsVal) : Eff JsVal :=
  listing "/v2/organizations" (paged pageSize (optional "after" after)).

Definition getOrganization (id : JsVal) : Eff JsVal :=
  get ("/v2/organization/" ++ toStr id).

Definition getDevices (pageSize after df : JsVal) : Eff JsVal :=
  listing "/v2/devices"
    (paged pageSize (optional "after" after ++ optional "df" df)%list).

Definition getDevice (id : JsVal) : Eff JsVal :=
  get ("/v2/device/" ++ toStr id).

Definition getDevicesByOrganization (orgId pageSize after : JsVal) : Eff JsVal :=
  listing ("/v2/organization/" ++ toStr orgId ++ "/devices")
    (paged pageSize (optional "after" after)).

Definition searchDevices
    (hostname status os organization location deviceType pageSize after : JsVal)
    : Eff JsVal :=
  listing "/v2/devices"
    (searchDevices_params hostname status os organization location deviceType
       pageSize after).

Definition getAlerts (status since : JsVal) : Eff JsVal :=
  listing "/v2/alerts" (Ok (optional "status" status ++ optional "since" since)%list).

Definition resetAlert (uid : JsVal) : Eff JsVal :=
  NinjaOneClient.request nw cfg ("/v2/alert/" ++ toStr uid) "DELETE" NoBody.

Definition getActivities (pageSize after since type : JsVal) : Eff JsVal :=
  listing "/v2/activities"
    (paged pageSize (optional "after" after ++ optional "since" since
                     ++ optional "type" type)%list).

Definition getDeviceActivities (deviceId pageSize after since : JsVal) : Eff JsVal :=
  listing ("/v2/device/" ++ toStr deviceId ++ "/activities")
    (paged pageSize (optional "after" after ++ optional "since" since)%list).

Definition getDeviceSoftware (deviceId : JsVal) : Eff JsVal :=
  get ("/v2/device/" ++ toStr deviceId ++ "/software").

Definition getOrganizationSoftware (orgId : JsVal) : Eff JsVal :=
  get ("/v2/organization/" ++ toStr orgId ++ "/software").

Definition getPolicies : Eff JsVal := get "/v2/policies".

Definition getPolicy (id : JsVal) : Eff JsVal :=
  get ("/v2/policy/" ++ toStr id).

Definition getLocations (pageSize after : JsVal) : Eff JsVal :=
  listing "/v2/locations" (paged pageSize (optional "after" after)).

Definition getLocation (id : JsVal) : Eff JsVal :=
  get ("/v2/location/" ++ toStr id).

Definition getUsers (pageSize after : JsVal) : Eff JsVal :=
  listing "/v2/users" (paged pageSize (optional "after" after)).

Definition getDeviceRoles : Eff JsVal := get "/v2/device-roles".

Definition getDeviceCustomFields (deviceId : JsVal) : Eff JsVal :=
  get ("/v2/device/" ++ toStr deviceId ++ "/custom-fields").

Definition updateDeviceCustomFields (deviceId fields : JsVal) : Eff JsVal :=
  NinjaOneClient.request nw cfg ("/v2/device/" ++ toStr deviceId ++ "/custom-fields")
    "PATCH" (JsonBody fields).

Definition getJobs (pageSize after status : JsVal) : Eff JsVal :=
  listing "/v2/jobs"
    (paged pageSize (optional "after" after ++ optional "status" status)%list).

Definition getJob (id : JsVal) : Eff JsVal :=
  get ("/v2/job/" ++ toStr id).

Definition getTasks (pageSize after : JsVal) : Eff JsVal :=
  listing "/v2/tasks" (paged pageSize (optional "after" after)).

Definition runScript (deviceId scriptId parameters : JsVal) : Eff JsVal :=
  NinjaOneClient.request nw cfg
    ("/v2/device/" ++ toStr deviceId ++ "/script/" ++ toStr scriptId ++ "/run")
    "POST" (if truthy parameters then JsonBody parameters else NoBody).

(** [makeApiCall(path, method = 'GET', body, queryParams)]. *)
Definition makeApiCall (path method payload queryParams : JsVal) : Eff JsVal :=
  match path, defaulted method (JStr "GET") with
  | JStr p, JStr m =>
      let paramString := encode (call_params queryParams) in
      let url :=
        if truthy queryParams && (0 <? List.length (entries queryParams))%nat
           && negb (paramString =? "")
        then p ++ (if includes p "?" then "&" else "?") ++ paramString
        else p in
      NinjaOneClient.request nw cfg url m (call_body m payload)
  | _, _ => makeApiCall_untyped cfg path method payload queryParams
  end.

(** The description, fetched anew by each of the two methods that read
    it. *)
Definition fetch_docs : Eff JsVal :=
  (response <- fetch nw docs_request ;;
   if negb (ok response)
   then throw (Error ("Failed to fetch API schema: " ++ string_of_Z (status response)
                      ++ " " ++ statusText response))
   else response_json response)%eff.

Definition getApiSchemaOverview : Eff JsVal :=
  try_catch (schema <- fetch_docs ;; lift (overview_of schema))%eff
    (fun _ => throw (Error "Failed to fetch NinjaOne API schema overview")).

Definition getApiEndpointDetails (args : list JsVal) : Eff JsVal :=
  try_catch (schema <- fetch_docs ;; lift (details_of schema args))%eff
    (fun _ => throw (Error "Failed to fetch NinjaOne API endpoint details")).

End Methods.

(** The methods by name, on the arguments a case of the handler read. *)
Definition client_method (nw : Network) (encode : list (string * string) -> string)
    (overview_of : JsVal -> Result JsVal) (details_of : JsVal -> list JsVal -> Result JsVal)
    (untyped : NinjaOneClient.AuthConfig -> JsVal -> JsVal -> JsVal -> JsVal -> Eff JsVal)
    (cfg : NinjaOneClient.AuthConfig) (name : string) (args : list JsVal) : Eff JsVal :=
  let a := fun i => nth i args JUndefined in
  if name =? "getOrganizations" then getOrganizations nw encode cfg (a 0%nat) (a 1%nat)
  else if name =? "getOrganization" then getOrganization nw cfg (a 0%nat)
  else if name =? "getDevices" then getDevices nw encode cfg (a 0%nat) (a 1%nat) (a 2%nat)
  else if name =? "getDevice" then getDevice nw cfg (a 0%nat)
  else if name =? "getDevicesByOrganization"
  then getDevicesByOrganization nw encode cfg (a 0%nat) (a 1%nat) (a 2%nat)
  else if name =? "getAlerts" then getAlerts nw encode cfg (a 0%nat) (a 1%nat)
  else if name =? "resetAlert" then resetAlert nw cfg (a 0%nat)
  else if name =? "getActivities"
  then getActivities nw encode cfg (a 0%nat) (a 1%nat) (a 2%nat) (a 3%nat)
  else if name =? "getDeviceActivities"
  then getDeviceActivities nw encode cfg (a 0%nat) (a 1%nat) (a 2%nat) (a 3%nat)
  else if name =? "getDeviceSoftware" then getDeviceSoftware nw cfg (a 0%nat)
  else if name =? "getOrganizationSoftware" then getOrganizationSoftware nw cfg (a 0%nat)
  else if name =? "getPolicies" then getPolicies nw cfg
  else if name =? "getPolicy" then getPolicy nw cfg (a 0%nat)
  else if name =? "getLocations" then getLocations nw encode cfg (a 0%nat) (a 1%nat)
  else if name =? "getLocation" then getLocation nw cfg (a 0%nat)
  else if name =? "getUsers" then getUsers nw encode cfg (a 0%nat) (a 1%nat)
  else if name =? "getDeviceRoles" then getDeviceRoles nw cfg
  else if name =? "getDeviceCustomFields" then getDeviceCustomFields nw cfg (a 0%nat)
  else if name =? "updateDeviceCustomFields"
  then updateDeviceCustomFields nw cfg (a 0%nat) (a 1%nat)
  else if name =? "getJobs" then getJobs nw encode cfg (a 0%nat) (a 1%nat) (a 2%nat)
  else if name =? "getJob" then getJob nw cfg (a 0%nat)
  else if name =? "getTasks" then getTasks nw encode cfg (a 0%nat) (a 1%nat)
  else if name =? "runScript" then runScript nw cfg (a 0%nat) (a 1%nat) (a 2%nat)
  else if name =? "getApiSchemaOverview" then getApiSchemaOverview nw overview_of
  else if name =? "getApiEndpointDetails" then getApiEndpointDetails nw details_of args
  else if name =? "searchDevices"
  then searchDevices nw encode cfg (a 0%nat) (a 1%nat) (a 2%nat) (a 3%nat) (a 4%nat)
         (a 5%nat) (a 6%nat) (a 7%nat)
  else if name =? "makeApiCall"
  then makeApiCall nw encode untyped cfg (a 0%nat) (a 1%nat) (a 2%nat) (a 3%nat)
  else throw (TypeError ("ninjaClient." ++ name ++ " is not a function")).

End NinjaOneMethods.

(** ** Calls that only read *)

(** Whatever the state it starts in, the computation sends to resource
    endpoints nothing but GET requests without a body. *)
Definition only_gets {A : Type} (m : Eff A) : Prop :=
  forall w, exists l,
    resource_calls (sent (snd (m w))) = (resource_calls (sent w) ++ l)%list /\
    forall r, In r l -> method r = "GET" /\ body r = NoBody.

(** ** Facts about strings *)

Lemma startsWith_spec (s t : string) :
  startsWith s t = true <-> exists rest, s = t ++ rest.
Proof.
  revert s; induction t as [|a t IH]; intros s.
  - destruct s; simpl; split; intros; eauto.
  - destruct s as [|b s]; simpl.
    + split; [discriminate | intros [r Hr]; discriminate].
    + rewrite andb_true_iff, Ascii.eqb_eq, IH. split.
      * intros [-> [r ->]]. now exists r.
      * intros [r Hr]. injection Hr as -> ->. split; eauto.
Qed.

Lemma includes_spec (s t : string) :
  includes s t = true <-> exists pre post, s = pre ++ t ++ post.
Proof.
  induction s as [|c s IH].
  - cbn [includes]. rewrite orb_false_r, startsWith_spec. split.
    + intros [r Hr]. now exists "", r.
    + intros [pre [post H]]. destruct pre; simpl in H.
      * now exists post.
      * discriminate.
  - cbn [includes]. rewrite orb_true_iff, startsWith_spec, IH. split.
    + intros [[r Hr] | [pre [post H]]].
      * now exists "", r.
      * exists (String c pre), post. simpl. now rewrite H.
    + intros [pre [post H]]. destruct pre as [|c' pre]; simpl in H.
      * left. now exists post.
      * right. injection H as _ H. now exists pre, post.
Qed.


(** The string functions on small inputs. *)
Example splitWs_samples :
  splitWs "ticket create" = ["ticket"; "create"] /\
  splitWs " a  b " = [""; "a"; "b"; ""] /\
  splitWs "" = [""] /\
  splitWs ("a" ++ nl ++ "b") = ["a"; "b"].
Proof. repeat split. Qed.

Example string_samples :
  toLowerCase "/V2/Device/{ID}" = "/v2/device/{id}" /\
  toUpperCase "get" = "GET" /\
  includes "/v2/devices" "/device" = true /\
  includes "/v2/devices" "/Device" = false /\
  includes "abc" "" = true /\
  join ", " ["a"; "b"; "c"] = "a, b, c" /\
  escapeQuotes "O'Neil" = "O''Neil" /\
  string_of_Z (-12) = "-12" /\
  number_of_string " 42 " = Fin 42 /\
  number_of_string "-7" = Fin (-7) /\
  number_of_string "+-5" = NaN /\
  number_of_string "-" = NaN /\
  number_of_string "abc" = NaN /\
  toStr (JArr [JNum 1; JNull; JStr "x"]) = "1,,x" /\
  sort ["b"; "a"; "B"; "ab"] = ["B"; "a"; "ab"; "b"].
Proof. repeat split. Qed.

(** ** Categorization *)

Lemma first_match_none (rules : list Rule) (path : string) :
  (forall r, In r rules -> includes path (fst r) = false) ->
  first_match rules path = "Other".
Proof.
  induction rules as [|[m c] rest IH]; simpl; intros H; [reflexivity|].
  pose proof (H (m, c) (or_introl eq_refl)) as E; simpl in E; rewrite E.
  apply IH. intros r Hr. apply H. now right.
Qed.

Lemma first_match_first (pre post : list Rule) (r : Rule) (path : string) :
  (forall r', In r' pre -> includes path (fst r') = false) ->
  includes path (fst r) = true ->
  first_match (pre ++ r :: post)%list path = snd r.
Proof.
  induction pre as [|[m c] pre IH]; simpl; intros Hpre Hr.
  - destruct r as [m c]; simpl in *. now rewrite Hr.
  - pose proof (Hpre (m, c) (or_introl eq_refl)) as E; simpl in E; rewrite E.
    apply IH; [|exact Hr].
    intros r' Hr'. apply Hpre. now right.
Qed.

Lemma NinjaOne_categorize_table (path : string) :
  NinjaOne.categorizeApiPath path = first_match NinjaOne.rules path.
Proof.
  unfold NinjaOne.categorizeApiPath, NinjaOne.rules, first_match.
  repeat match goal with
         | |- context [includes path ?m] => destruct (includes path m); simpl
         end; reflexivity.
Qed.

Lemma HaloPSA_categorize_table (path : string) :
  HaloPSA.categorizeApiPath path =
  first_match HaloPSA.rules (toLowerCase path).
Proof.
  unfold HaloPSA.categorizeApiPath, HaloPSA.rules, first_match.
  generalize (toLowerCase path) as p; intros p; cbv zeta.
  repeat match goal with
         | |- context [includes p ?m] => destruct (includes p m); simpl
         end; reflexivity.
Qed.

(** ** Token lifecycle *)

Lemma token_valid_iff (c : Client) (t : Z) :
  token_valid c t = true <->
  exists tok e, accessToken c = Some tok /\ tok <> "" /\
                tokenExpiry c = Some e /\ (t < e)%Z.
Proof.
  unfold token_valid. destruct (accessToken c) as [tok|], (tokenExpiry c) as [e|].
  - rewrite andb_true_iff, negb_true_iff, String.eqb_neq, Z.ltb_lt. split.
    + intros [H1 H2]. now exists tok, e.
    + intros (tok' & e' & [= <-] & H1 & [= <-] & H2). now split.
  - split; [discriminate | intros (? & ? & _ & _ & [=] & _)].
  - split; [discriminate | intros (? & ? & [=] & _)].
  - split; [discriminate | intros (? & ? & [=] & _)].
Qed.

(** A valid cached token is reused: nothing is sent and nothing changes. *)
Lemma NinjaOne_reuses_valid_token nw cfg (w : World) :
  token_valid (client w) (now w) = true ->
  NinjaOneClient.ensureAuthenticated nw cfg w = (Ok tt, w).
Proof.
  intros H. unfold NinjaOneClient.ensureAuthenticated, bind, get_client, clock.
  now rewrite H.
Qed.

Lemma HaloPSA_reuses_valid_token nw cfg (w : World) :
  token_valid (client w) (now w) = true ->
  HaloPSAClient.authenticate nw cfg w = (Ok tt, w).
Proof.
  intros H. unfold HaloPSAClient.authenticate, bind, get_client, clock.
  now rewrite H.
Qed.

Lemma ConnectWise_reuses_valid_token nw cfg (w : World) :
  token_valid (client w) (now w) = true ->
  ConnectWiseRMMClient.authenticate nw cfg w = (Ok tt, w).
Proof.
  intros H. unfold ConnectWiseRMMClient.authenticate, bind, get_client, clock.
  now rewrite H.
Qed.

(** Setting the seconds of a date to its own seconds plus [d] moves the
    local time by [d] seconds; the instant is that local time read back. *)
Lemma setSeconds_shift (z : Date.Zone) (t d : Z) :
  Date.setSeconds z t (Date.getSeconds z t + d)
  = Date.TimeClip (Date.UTC z (Date.LocalTime z t + d * 1000)).
Proof.
  unfold Date.setSeconds, Date.getSeconds. cbv zeta.
  generalize (Date.LocalTime z t); intros l.
  f_equal. f_equal.
  unfold Date.MakeDate, Date.MakeTime, Date.Day, Date.HourFromTime, Date.MinFromTime,
    Date.SecFromTime, Date.msFromTime, Date.msPerDay, Date.msPerHour, Date.msPerMinute,
    Date.msPerSecond.
  Z.to_euclidean_division_equations. lia.
Qed.

(** Where the offset does not change in between and the result is a valid
    date, the instant itself moves by [d] seconds. *)
Lemma setSeconds_steady (z : Date.Zone) (t d : Z) :
  Date.steady z t (d * 1000) -> Date.in_range (t + d * 1000) ->
  Date.setSeconds z t (Date.getSeconds z t + d) = Some (t + d * 1000)%Z.
Proof.
  intros Hs Hr. rewrite setSeconds_shift. unfold Date.UTC. rewrite Hs.
  unfold Date.LocalTime, Date.TimeClip.
  replace (t + Date.offset_at z t + d * 1000 - Date.offset_at z t)%Z
    with (t + d * 1000)%Z by lia.
  unfold Date.in_range in Hr. apply Z.leb_le in Hr. now rewrite Hr.
Qed.

(** On a host on UTC the offset never changes. *)
Lemma utc_steady (t d : Z) : Date.steady Date.utc t d.
Proof. reflexivity. Qed.

(** A time value within the range of dates is a valid date. *)
Lemma TimeClip_in_range (t : Z) : Date.in_range t -> Date.TimeClip t = Some t.
Proof.
  unfold Date.in_range, Date.TimeClip. intros H. apply Z.leb_le in H. now rewrite H.
Qed.

Lemma TimeClip_cases (t : Z) : Date.TimeClip t = Some t \/ Date.TimeClip t = None.
Proof. unfold Date.TimeClip. destruct (Z.abs t <=? _)%Z; auto. Qed.

(** Without a valid token the NinjaOne client makes one exchange and caches
    the date it makes of the instant of the answer. *)
Lemma NinjaOne_refresh_date nw cfg (w : World) resp data :
  token_valid (client w) (now w) = false ->
  token_endpoint nw (NinjaOneClient.token_request cfg) = Ok resp ->
  ok resp = true -> json resp = Some data ->
  let lat := latency nw (NinjaOneClient.token_request cfg) in
  NinjaOneClient.ensureAuthenticated nw cfg w =
  (Ok tt, refreshed_to w (NinjaOneClient.token_request cfg) lat (access_token data)
            (Date.setSeconds (zone nw) (now w + lat)
               (Date.getSeconds (zone nw) (now w + lat) + (expires_in data - 60)))).
Proof.
  intros Hv Hn Hok Hj lat.
  unfold NinjaOneClient.ensureAuthenticated, bind at 1 2, get_client, clock.
  rewrite Hv. unfold NinjaOneClient.authenticate, try_catch, bind at 1, fetch_token.
  rewrite Hn, Hok. cbn [negb]. unfold bind, response_json. rewrite Hj.
  cbn. subst lat. unfold refreshed_to. now rewrite Z.add_sub_assoc.
Qed.

(** Where the offset of the host does not change before the expiry, that
    date is the instant of the answer plus [expires_in - 60] seconds. *)
Lemma NinjaOne_refresh nw cfg (w : World) resp data :
  token_valid (client w) (now w) = false ->
  token_endpoint nw (NinjaOneClient.token_request cfg) = Ok resp ->
  ok resp = true -> json resp = Some data ->
  let issued := (now w + latency nw (NinjaOneClient.token_request cfg))%Z in
  Date.steady (zone nw) issued ((expires_in data - 60) * 1000) ->
  Date.in_range (issued + (expires_in data - 60) * 1000) ->
  NinjaOneClient.ensureAuthenticated nw cfg w =
  (Ok tt, refreshed w (NinjaOneClient.token_request cfg)
            (latency nw (NinjaOneClient.token_request cfg))
            (access_token data)
            (issued + (expires_in data - 60) * 1000)).
Proof.
  intros Hv Hn Hok Hj issued Hs Hr.
  rewrite (NinjaOne_refresh_date nw cfg w resp data Hv Hn Hok Hj). cbv zeta.
  fold issued. now rewrite setSeconds_steady.
Qed.

Lemma HaloPSA_refresh_date nw cfg (w : World) resp data :
  token_valid (client w) (now w) = false ->
  token_endpoint nw (HaloPSAClient.token_request cfg) = Ok resp ->
  ok resp = true -> json resp = Some data ->
  HaloPSAClient.authenticate nw cfg w =
  (Ok tt, refreshed_to w (HaloPSAClient.token_request cfg)
            (latency nw (HaloPSAClient.token_request cfg))
            (access_token data)
            (Date.TimeClip (now w + latency nw (HaloPSAClient.token_request cfg)
                            + (expires_in data - 60) * 1000))).
Proof.
  intros Hv Hn Hok Hj.
  unfold HaloPSAClient.authenticate, bind at 1 2, get_client, clock.
  rewrite Hv. unfold try_catch, bind at 1, fetch_token.
  rewrite Hn, Hok. cbn [negb]. unfold bind, response_json. rewrite Hj.
  reflexivity.
Qed.

Lemma HaloPSA_refresh nw cfg (w : World) resp data :
  token_valid (client w) (now w) = false ->
  token_endpoint nw (HaloPSAClient.token_request cfg) = Ok resp ->
  ok resp = true -> json resp = Some data ->
  Date.in_range (now w + latency nw (HaloPSAClient.token_request cfg)
                 + (expires_in data - 60) * 1000) ->
  HaloPSAClient.authenticate nw cfg w =
  (Ok tt, refreshed w (HaloPSAClient.token_request cfg)
            (latency nw (HaloPSAClient.token_request cfg))
            (access_token data)
            (now w + latency nw (HaloPSAClient.token_request cfg)
             + (expires_in data - 60) * 1000)).
Proof.
  intros Hv Hn Hok Hj Hr.
  rewrite (HaloPSA_refresh_date nw cfg w resp data Hv Hn Hok Hj).
  now rewrite TimeClip_in_range.
Qed.

(** The ConnectWise client caches the instant of the answer plus
    [expires_in] seconds: the 60 seconds are not taken off. *)
Lemma ConnectWise_refresh_date nw cfg (w : World) resp data :
  token_valid (client w) (now w) = false ->
  token_endpoint nw (ConnectWiseRMMClient.token_request cfg) = Ok resp ->
  ok resp = true -> json resp = Some data ->
  ConnectWiseRMMClient.authenticate nw cfg w =
  (Ok tt, refreshed_to w (ConnectWiseRMMClient.token_request cfg)
            (latency nw (ConnectWiseRMMClient.token_request cfg))
            (access_token data)
            (Date.TimeClip (now w + latency nw (ConnectWiseRMMClient.token_request cfg)
                            + expires_in data * 1000))).
Proof.
  intros Hv Hn Hok Hj.
  unfold ConnectWiseRMMClient.authenticate, bind at 1 2, get_client, clock.
  rewrite Hv. unfold try_catch, bind at 1, fetch_token.
  rewrite Hn, Hok. cbn [negb]. unfold bind, response_json. rewrite Hj.
  reflexivity.
Qed.

Lemma ConnectWise_refresh nw cfg (w : World) resp data :
  token_valid (client w) (now w) = false ->
  token_endpoint nw (ConnectWiseRMMClient.token_request cfg) = Ok resp ->
  ok resp = true -> json resp = Some data ->
  Date.in_range (now w + latency nw (ConnectWiseRMMClient.token_request cfg)
                 + expires_in data * 1000) ->
  ConnectWiseRMMClient.authenticate nw cfg w =
  (Ok tt, refreshed w (ConnectWiseRMMClient.token_request cfg)
            (latency nw (ConnectWiseRMMClient.token_request cfg))
            (access_token data)
            (now w + latency nw (ConnectWiseRMMClient.token_request cfg)
             + expires_in data * 1000)).
Proof.
  intros Hv Hn Hok Hj Hr.
  rewrite (ConnectWise_refresh_date nw cfg w resp data Hv Hn Hok Hj).
  now rewrite TimeClip_in_range.
Qed.

(** Whatever the endpoint answers, a client without a valid token sends
    exactly one token request. *)
Lemma NinjaOne_one_exchange nw cfg (w : World) :
  token_valid (client w) (now w) = false ->
  sent (snd (NinjaOneClient.ensureAuthenticated nw cfg w)) =
  (sent w ++ [TokenExchange (NinjaOneClient.token_request cfg)])%list.
Proof.
  intros Hv.
  unfold NinjaOneClient.ensureAuthenticated, bind at 1 2, get_client, clock.
  rewrite Hv. unfold NinjaOneClient.authenticate, try_catch, bind at 1, fetch_token.
  destruct (token_endpoint nw _) as [resp|e]; [|reflexivity].
  destruct (ok resp); cbn [negb]; [|reflexivity].
  unfold bind, response_json. destruct (json resp); reflexivity.
Qed.

Lemma HaloPSA_one_exchange nw cfg (w : World) :
  token_valid (client w) (now w) = false ->
  sent (snd (HaloPSAClient.authenticate nw cfg w)) =
  (sent w ++ [TokenExchange (HaloPSAClient.token_request cfg)])%list.
Proof.
  intros Hv.
  unfold HaloPSAClient.authenticate, bind at 1 2, get_client, clock.
  rewrite Hv. unfold try_catch, bind at 1, fetch_token.
  destruct (token_endpoint nw _) as [resp|e]; [|reflexivity].
  destruct (ok resp); cbn [negb]; [|reflexivity].
  unfold bind, response_json. destruct (json resp); reflexivity.
Qed.

Lemma ConnectWise_one_exchange nw cfg (w : World) :
  token_valid (client w) (now w) = false ->
  sent (snd (ConnectWiseRMMClient.authenticate nw cfg w)) =
  (sent w ++ [TokenExchange (ConnectWiseRMMClient.token_request cfg)])%list.
Proof.
  intros Hv.
  unfold ConnectWiseRMMClient.authenticate, bind at 1 2, get_client, clock.
  rewrite Hv. unfold try_catch, bind at 1, fetch_token.
  destruct (token_endpoint nw _) as [resp|e]; [|reflexivity].
  destruct (ok resp); cbn [negb]; [|reflexivity].
  unfold bind, response_json. destruct (json resp); reflexivity.
Qed.

(** A token stored with the margin is valid exactly before
    [issuedAt + (E - 60) s]. *)
Lemma margin_boundary (tok : string) (issuedAt E t : Z) :
  tok <> "" ->
  token_valid {| accessToken := Some tok;
                 tokenExpiry := Some (issuedAt + (E - 60) * 1000)%Z |} t = true
  <-> (t < issuedAt + (E - 60) * 1000)%Z.
Proof.
  intros Htok. unfold token_valid; cbn.
  apply String.eqb_neq in Htok. rewrite Htok. cbn. apply Z.ltb_lt.
Qed.

(** The NinjaOne and HaloPSA clients honour the 60-second margin: after a
    grant of [E] seconds answered at [issuedAt], a call at
    [issuedAt + (E - 60) s] exchanges again and any earlier call does not.
    The NinjaOne client computes the expiry on the local time of its host,
    so that this holds while the offset of the host does not change before
    the expiry. *)
Lemma margin_honoured nw ncfg hcfg (w w2 : World) resp data :
  token_valid (client w) (now w) = false ->
  ok resp = true -> json resp = Some data -> access_token data <> "" ->
  (token_endpoint nw (NinjaOneClient.token_request ncfg) = Ok resp ->
   let w1 := snd (NinjaOneClient.ensureAuthenticated nw ncfg w) in
   Date.steady (zone nw) (now w1) ((expires_in data - 60) * 1000) ->
   Date.in_range (now w1 + (expires_in data - 60) * 1000) ->
   client w2 = client w1 ->
   ((now w2 < now w1 + (expires_in data - 60) * 1000)%Z ->
    NinjaOneClient.ensureAuthenticated nw ncfg w2 = (Ok tt, w2)) /\
   (now w2 = (now w1 + (expires_in data - 60) * 1000)%Z ->
    exchanges (sent (snd (NinjaOneClient.ensureAuthenticated nw ncfg w2))) =
    S (exchanges (sent w2)))) /\
  (token_endpoint nw (HaloPSAClient.token_request hcfg) = Ok resp ->
   let w1 := snd (HaloPSAClient.authenticate nw hcfg w) in
   Date.in_range (now w1 + (expires_in data - 60) * 1000) ->
   client w2 = client w1 ->
   ((now w2 < now w1 + (expires_in data - 60) * 1000)%Z ->
    HaloPSAClient.authenticate nw hcfg w2 = (Ok tt, w2)) /\
   (now w2 = (now w1 + (expires_in data - 60) * 1000)%Z ->
    exchanges (sent (snd (HaloPSAClient.authenticate nw hcfg w2))) =
    S (exchanges (sent w2)))).
Proof.
  intros Hv Hok Hj Htok.
  assert (Hcount : forall l s, exchanges (l ++ [TokenExchange s])%list = S (exchanges l)).
  { intros l s. unfold exchanges. rewrite filter_app, length_app. cbn. lia. }
  split.
  - intros Hn w1. subst w1.
    rewrite (NinjaOne_refresh_date nw ncfg w resp data Hv Hn Hok Hj).
    cbv zeta. cbn [snd refreshed_to client now]. intros Hs Hr Hc.
    rewrite setSeconds_steady in Hc by assumption.
    split; intros Ht.
    + apply NinjaOne_reuses_valid_token. rewrite Hc.
      apply margin_boundary; [exact Htok | lia].
    + rewrite NinjaOne_one_exchange; [apply Hcount|]. rewrite Hc.
      apply not_true_is_false. intros Hval.
      apply margin_boundary in Hval; [lia | exact Htok].
  - intros Hn w1. subst w1.
    rewrite (HaloPSA_refresh_date nw hcfg w resp data Hv Hn Hok Hj).
    cbn [snd refreshed_to client now]. intros Hr Hc.
    rewrite TimeClip_in_range in Hc by assumption.
    split; intros Ht.
    + apply HaloPSA_reuses_valid_token. rewrite Hc.
      apply margin_boundary; [exact Htok | lia].
    + rewrite HaloPSA_one_exchange; [apply Hcount|]. rewrite Hc.
      apply not_true_is_false. intros Hval.
      apply margin_boundary in Hval; [lia | exact Htok].
Qed.

(** C1 (the claim fails on the ConnectWise client): after a grant of 3600
    seconds answered at instant 0 the ConnectWise client caches the expiry
    0 + 3600 s, so at 0 + 3600 s - 60 s, where the claim wants the token
    invalid, [authenticate] still returns without contacting the token
    endpoint.  The NinjaOne client, granted the same token, exchanges again
    at that instant. *)
Theorem ConnectWise_token_outlives_margin :
  let w1 := snd (ConnectWiseRMMClient.authenticate Sample.net Sample.connectwise
                   (start_world 0)) in
  tokenExpiry (client w1) = Some (0 + 3600 * 1000)%Z /\
  ConnectWiseRMMClient.authenticate Sample.net Sample.connectwise
    {| client := client w1; now := (0 + (3600 - 60) * 1000)%Z; sent := [] |}
  = (Ok tt, {| client := client w1; now := (0 + (3600 - 60) * 1000)%Z; sent := [] |}) /\
  exchanges (sent (snd (NinjaOneClient.ensureAuthenticated Sample.net Sample.ninja
    {| client := client (snd (NinjaOneClient.ensureAuthenticated Sample.net Sample.ninja
                                (start_world 0)));
       now := (0 + (3600 - 60) * 1000)%Z; sent := [] |}))) = 1%nat.
Proof. vm_compute. repeat split. Qed.

(** ** Concurrent callers *)

Import Interleaving.

Lemma calls_while_invalid (callers : list nat) (s : Sys) :
  token_valid (cache s) (time s) = false ->
  NoDup callers ->
  (forall i, In i callers -> phase s i = Idle) ->
  issued (run (map Call callers) s) = issued s + List.length callers.
Proof.
  revert s; induction callers as [|i rest IH]; intros s Hv Hnd Hidle; cbn.
  - lia.
  - inversion Hnd as [|? ? Hnotin Hnd']; subst.
    rewrite (Hidle i (or_introl eq_refl)), Hv.
    unfold run in IH. rewrite IH; cbn; [lia | exact Hv | exact Hnd' |].
    intros j Hj. unfold set_phase.
    destruct (Nat.eqb_spec j i) as [->|_]; [contradiction|].
    apply Hidle. now right.
Qed.

(** C6 (counterexample): two callers that both find no token before either
    answer arrives perform two token exchanges, not one. *)
Lemma two_callers_two_exchanges :
  (issued (run [Call 0; Call 1; Answer 0 Sample.grant; Answer 1 Sample.grant]
             (initial fresh_client 0)) <=? 1)%nat = false.
Proof. reflexivity. Qed.

(** C6 (as amended): refreshes are not collapsed.  When the callers all
    make their validity test while the cached token is absent or expired,
    before any answer is stored, every one of them performs its own token
    exchange: N callers, N exchanges. *)
Theorem every_caller_refreshes (c : Client) (t : Z) (callers : list nat) :
  token_valid c t = false ->
  NoDup callers ->
  issued (run (map Call callers) (initial c t)) = List.length callers.
Proof.
  intros Hv Hnd.
  rewrite calls_while_invalid; [reflexivity | exact Hv | exact Hnd | reflexivity].
Qed.

Lemma every_caller_refreshes_witness :
  issued (run (map Call [0; 1; 2]) (initial fresh_client 0)) = 3.
Proof.
  apply (every_caller_refreshes fresh_client 0 [0; 1; 2]).
  - reflexivity.
  - repeat constructor; cbn; intuition discriminate.
Defined.

Lemma first_match_find (rules : list Rule) (path : string) :
  first_match rules path =
  match find (fun r => includes path (fst r)) rules with
  | Some r => snd r
  | None => "Other"
  end.
Proof.
  induction rules as [|[m c] rest IH]; cbn; [reflexivity|].
  destruct (includes path m); [reflexivity | exact IH].
Qed.

(** C7: [categorizeApiPath] is a function of the path alone that tries its
    (substring, category) rules in their textual order: its value is the
    category of the first rule of the table whose substring occurs in the path
    (the lowercased path, for the HaloPSA client), and "Other" when there is
    none.  So when the markers of two rules both occur, the rule that
    stands first in the table decides, whatever the order of the markers in
    the path. *)
Theorem categorizeApiPath_first_rule_wins (path : string) :
  NinjaOne.categorizeApiPath path =
    match find (fun r => includes path (fst r)) NinjaOne.rules with
    | Some r => snd r
    | None => "Other"
    end /\
  HaloPSA.categorizeApiPath path =
    match find (fun r => includes (toLowerCase path) (fst r)) HaloPSA.rules with
    | Some r => snd r
    | None => "Other"
    end /\
  (forall pre r1 mid r2 post,
     NinjaOne.rules = (pre ++ r1 :: mid ++ r2 :: post)%list ->
     includes path (fst r1) = true -> includes path (fst r2) = true ->
     (forall r, In r pre -> includes path (fst r) = false) ->
     NinjaOne.categorizeApiPath path = snd r1) /\
  (forall pre r1 mid r2 post,
     HaloPSA.rules = (pre ++ r1 :: mid ++ r2 :: post)%list ->
     includes (toLowerCase path) (fst r1) = true ->
     includes (toLowerCase path) (fst r2) = true ->
     (forall r, In r pre -> includes (toLowerCase path) (fst r) = false) ->
     HaloPSA.categorizeApiPath path = snd r1) /\
  NinjaOne.categorizeApiPath "/v2/organization/7/devices" = "Device Management" /\
  HaloPSA.categorizeApiPath "/api/Ticket" = "Tickets".
Proof.
  repeat split.
  - rewrite NinjaOne_categorize_table. apply first_match_find.
  - rewrite HaloPSA_categorize_table. apply first_match_find.
  - intros pre r1 mid r2 post Htable H1 _ Hpre.
    rewrite NinjaOne_categorize_table, Htable.
    now apply first_match_first.
  - intros pre r1 mid r2 post Htable H1 _ Hpre.
    rewrite HaloPSA_categorize_table, Htable.
    now apply first_match_first.
Qed.

(** ** Request dispatch: what a 2xx answer becomes *)

Lemma bind_ok {A B : Type} (m : Eff A) (k : A -> Eff B) (w w' : World) (a : A) :
  m w = (Ok a, w') -> bind m k w = k a w'.
Proof. intros H. unfold bind. now rewrite H. Qed.

Lemma run_pair {A : Type} (m : Eff A) (w : World) (a : A) :
  fst (m w) = Ok a -> m w = (Ok a, snd (m w)).
Proof. destruct (m w); cbn; now intros ->. Qed.

Lemma HaloPSA_makeApiCall_result nw cfg path meth payload qp (w : World) resp :
  fst (HaloPSAClient.authenticate nw cfg w) = Ok tt ->
  resource nw (HaloPSAClient.api_request cfg
                 (client (snd (HaloPSAClient.authenticate nw cfg w)))
                 path meth payload qp) = Ok resp ->
  ok resp = true ->
  fst (HaloPSAClient.makeApiCall nw cfg path meth payload qp w) =
  if match contentType resp with
     | Some ct => includes ct "application/json"
     | None => false
     end
  then match json resp with
       | Some v => Ok (HaloPSAClient.Parsed v)
       | None => Throw (Error "Failed to make API call: SyntaxError: Unexpected token in JSON")
       end
  else Ok (HaloPSAClient.Raw (text resp)).
Proof.
  intros Hauth Hres Hok. unfold HaloPSAClient.makeApiCall.
  rewrite (bind_ok _ _ _ _ _ (run_pair _ _ _ Hauth)).
  unfold bind at 1, get_client, try_catch, bind at 1, fetch.
  cbn [client]. rewrite Hres, Hok. cbn [negb].
  destruct (contentType resp) as [ct|]; [|reflexivity].
  destruct ct as [|c ct'] eqn:E; [reflexivity|]. rewrite <- E.
  replace (negb (ct =? "")) with true by (subst ct; reflexivity).
  cbn [andb]. destruct (includes ct "application/json"); [|reflexivity].
  unfold bind, response_json. destruct (json resp); reflexivity.
Qed.

Lemma NinjaOne_request_result nw cfg path meth payload (w : World) resp :
  fst (NinjaOneClient.ensureAuthenticated nw cfg w) = Ok tt ->
  resource nw (NinjaOneClient.api_request cfg
                 (client (snd (NinjaOneClient.ensureAuthenticated nw cfg w)))
                 path meth payload) = Ok resp ->
  ok resp = true ->
  fst (NinjaOneClient.request nw cfg path meth payload w) =
  match json resp with
  | Some v => Ok v
  | None => Throw (SyntaxError "Unexpected token in JSON")
  end.
Proof.
  intros Hauth Hres Hok. unfold NinjaOneClient.request.
  rewrite (bind_ok _ _ _ _ _ (run_pair _ _ _ Hauth)).
  unfold bind at 1, get_client, bind at 1, fetch.
  cbn [client]. rewrite Hres, Hok. cbn [negb].
  unfold response_json. destruct (json resp); reflexivity.
Qed.

Lemma ConnectWise_makeRequest_result nw cfg meth path data qp (w : World) resp :
  fst (ConnectWiseRMMClient.authenticate nw cfg w) = Ok tt ->
  resource nw (ConnectWiseRMMClient.api_request cfg
                 (client (snd (ConnectWiseRMMClient.authenticate nw cfg w)))
                 meth path data qp) = Ok resp ->
  ok resp = true ->
  fst (ConnectWiseRMMClient.makeRequest nw cfg meth path data qp w) =
  if text resp =? "" then Ok JNull
  else match json resp with
       | Some v => Ok v
       | None => Throw (Error "API request failed: Unexpected token in JSON")
       end.
Proof.
  intros Hauth Hres Hok. unfold ConnectWiseRMMClient.makeRequest.
  rewrite (bind_ok _ _ _ _ _ (run_pair _ _ _ Hauth)).
  unfold bind at 1, get_client, try_catch, bind at 1, fetch.
  cbn [client]. rewrite Hres, Hok. cbn [negb].
  destruct (text resp =? ""); cbn [negb]; [reflexivity|].
  unfold response_json. destruct (json resp); reflexivity.
Qed.

(** C8 (counterexample): a 200 answer of content type text/plain with the
    body "pong" is not returned as raw text by the NinjaOne and ConnectWise
    clients: both try to parse it as JSON and throw. *)
Lemma plain_text_answer_is_not_returned :
  fst (NinjaOneClient.request Sample.net Sample.ninja "/v2/policies" "GET" NoBody
         (start_world 0))
  = Throw (SyntaxError "Unexpected token in JSON") /\
  fst (ConnectWiseRMMClient.makeRequest Sample.net Sample.connectwise
         "GET" "/api/platform/v1/company/companies" JUndefined JUndefined
         (start_world 0))
  = Throw (Error "API request failed: Unexpected token in JSON") /\
  fst (HaloPSAClient.makeApiCall Sample.net Sample.halo "/api/Ticket" "GET"
         JUndefined JUndefined (start_world 0))
  = Ok (HaloPSAClient.Raw "pong").
Proof. vm_compute. repeat split. Qed.

(** C8 (as amended): for a dispatched request that is answered 2xx (after a
    successful authentication), the HaloPSA client's [makeApiCall] returns
    the parsed JSON body when the content type contains "application/json"
    (and fails when that body does not parse), and the raw text otherwise.
    The NinjaOne client's [request] parses every 2xx body as JSON, whatever
    the content type; the ConnectWise client's [makeRequest] returns null for
    an empty 2xx body and parses any other body as JSON, whatever the content
    type. *)
Theorem dispatch_2xx_result nw (w : World) (resp : Response JsVal) :
  ok resp = true ->
  (forall cfg path meth payload qp,
     fst (HaloPSAClient.authenticate nw cfg w) = Ok tt ->
     resource nw (HaloPSAClient.api_request cfg
                    (client (snd (HaloPSAClient.authenticate nw cfg w)))
                    path meth payload qp) = Ok resp ->
     fst (HaloPSAClient.makeApiCall nw cfg path meth payload qp w) =
     if match contentType resp with
        | Some ct => includes ct "application/json"
        | None => false
        end
     then match json resp with
          | Some v => Ok (HaloPSAClient.Parsed v)
          | None => Throw (Error "Failed to make API call: SyntaxError: Unexpected token in JSON")
          end
     else Ok (HaloPSAClient.Raw (text resp))) /\
  (forall cfg path meth payload,
     fst (NinjaOneClient.ensureAuthenticated nw cfg w) = Ok tt ->
     resource nw (NinjaOneClient.api_request cfg
                    (client (snd (NinjaOneClient.ensureAuthenticated nw cfg w)))
                    path meth payload) = Ok resp ->
     fst (NinjaOneClient.request nw cfg path meth payload w) =
     match json resp with
     | Some v => Ok v
     | None => Throw (SyntaxError "Unexpected token in JSON")
     end) /\
  (forall cfg meth path data qp,
     fst (ConnectWiseRMMClient.authenticate nw cfg w) = Ok tt ->
     resource nw (ConnectWiseRMMClient.api_request cfg
                    (client (snd (ConnectWiseRMMClient.authenticate nw cfg w)))
                    meth path data qp) = Ok resp ->
     fst (ConnectWiseRMMClient.makeRequest nw cfg meth path data qp w) =
     if text resp =? "" then Ok JNull
     else match json resp with
          | Some v => Ok v
          | None => Throw (Error "API request failed: Unexpected token in JSON")
          end).
Proof.
  intros Hok. repeat split; intros.
  - now apply HaloPSA_makeApiCall_result.
  - now apply NinjaOne_request_result.
  - now apply ConnectWise_makeRequest_result.
Qed.

Lemma dispatch_2xx_result_witness :
  fst (HaloPSAClient.makeApiCall Sample.net Sample.halo "/api/Ticket" "GET"
         JUndefined JUndefined (start_world 0))
  = Ok (HaloPSAClient.Raw "pong").
Proof.
  apply (proj1 (dispatch_2xx_result Sample.net (start_world 0)
                  (Sample.answer (Some "text/plain") "pong" None) eq_refl)
           Sample.halo "/api/Ticket" "GET" JUndefined JUndefined);
    reflexivity.
Defined.

(** ** Property lists *)

Lemma set_prop_new (fields : list (string * JsVal)) (key : string) (v : JsVal) :
  ~ In key (map fst fields) -> set_prop fields key v = (fields ++ [(key, v)])%list.
Proof.
  induction fields as [|[k x] rest IH]; cbn; intros Hnotin; [reflexivity|].
  destruct (String.eqb_spec k key) as [->|_].
  - exfalso. apply Hnotin. now left.
  - rewrite IH; [reflexivity|]. intros H. apply Hnotin. now right.
Qed.




(** ** Listing the component schemas *)










(** ** Endpoint details: the cap and the truncation report *)

(** The loop adds, in document order, the first matching paths that still
    fit under the cap. *)
Lemma details_scan_spec (wd so isc ie : bool) (pathPattern : string)
    (maxEndpoints : Z) (l acc : list (string * JsVal)) :
  NoDup (map fst l) ->
  (forall k, In k (map fst l) -> ~ In k (map fst acc)) ->
  EndpointDetails.scan wd so isc ie pathPattern maxEndpoints l acc
    (Z.of_nat (List.length acc))
  = ((acc ++ map (EndpointDetails.shown wd so isc ie)
               (firstn (EndpointDetails.cap maxEndpoints - List.length acc)
                       (EndpointDetails.matching pathPattern l)))%list,
     Z.of_nat (List.length acc
               + List.length
                   (firstn (EndpointDetails.cap maxEndpoints - List.length acc)
                           (EndpointDetails.matching pathPattern l)))).
Proof.
  unfold EndpointDetails.cap.
  revert acc; induction l as [|[path pathObj] l IH]; intros acc Hnd Hfresh.
  - cbn. rewrite firstn_nil. cbn. now rewrite app_nil_r, Nat.add_0_r.
  - cbn [EndpointDetails.scan].
    destruct (Z.geb_spec (Z.of_nat (List.length acc)) (Z.min maxEndpoints 50))
      as [Hfull|Hroom].
    + replace (Z.to_nat (Z.min maxEndpoints 50) - List.length acc)%nat
        with 0%nat by lia.
      cbn. now rewrite app_nil_r, Nat.add_0_r.
    + inversion Hnd as [|? ? Hnotin Hnd']; subst.
      unfold EndpointDetails.matching at 1 2. cbn [filter fst].
      fold (EndpointDetails.matching pathPattern l).
      destruct (path_matches pathPattern path) eqn:Hm.
      * rewrite set_prop_new by (apply Hfresh; now left).
        set (acc' := (acc ++ [_])%list).
        assert (Hlen : List.length acc' = S (List.length acc))
          by (subst acc'; rewrite length_app; cbn; lia).
        replace (Z.of_nat (List.length acc) + 1)%Z with (Z.of_nat (List.length acc'))
          by lia.
        rewrite IH; [|exact Hnd'|].
        -- rewrite Hlen.
           destruct (Z.to_nat (Z.min maxEndpoints 50) - List.length acc)%nat
             as [|k] eqn:Ek; [lia|].
           replace (Z.to_nat (Z.min maxEndpoints 50) - S (List.length acc))%nat
             with k by lia.
           cbn [firstn map List.length]. subst acc'.
           unfold EndpointDetails.shown at 2. cbn [fst snd].
           f_equal; [now rewrite <- app_assoc | lia].
        -- intros k Hk Hin. subst acc'. rewrite map_app in Hin.
           apply in_app_or in Hin as [Hin|Hin].
           ++ apply (Hfresh k); [now right | exact Hin].
           ++ cbn in Hin. destruct Hin as [<-|[]]. contradiction.
      * apply IH; [exact Hnd'|]. intros k Hk. apply Hfresh. now right.
Qed.

(** *** Numbers and counts *)

Lemma Qle_bool_inject (a b : Z) : Qle_bool (inject_Z a) (inject_Z b) = (a <=? b)%Z.
Proof. unfold Qle_bool, inject_Z; cbn. now rewrite !Z.mul_1_r. Qed.

Lemma Qeq_bool_inject (a b : Z) : Qeq_bool (inject_Z a) (inject_Z b) = (a =? b)%Z.
Proof.
  destruct (Z.eqb_spec a b) as [E|E].
  - apply Qeq_bool_iff. now subst.
  - apply not_true_is_false. intros H. apply Qeq_bool_iff in H.
    unfold Qeq, inject_Z in H. cbn in H. lia.
Qed.

(** A count is not below a fraction exactly when it is not below the
    fraction rounded up. *)
Lemma count_ge_ceiling (q : Q) (n : Z) :
  count_ge n (Finite q) = (Qceiling q <=? n)%Z.
Proof.
  cbn. destruct (Z.leb_spec (Qceiling q) n) as [H|H].
  - apply Qle_bool_iff. apply Qle_trans with (inject_Z (Qceiling q)).
    + apply Qle_ceiling.
    + now rewrite <- Zle_Qle.
  - apply not_true_is_false. intros Hq. apply Qle_bool_iff in Hq.
    pose proof (Qceiling_lt q) as Hc.
    assert (Hlt : (inject_Z (Qceiling q - 1) < inject_Z n)%Q)
      by (eapply Qlt_le_trans; eassumption).
    rewrite <- Zlt_Qlt in Hlt. lia.
Qed.

Lemma count_ge_allowance (limit : Number) (n : nat) :
  count_ge (Z.of_nat n) limit
  = match allowance limit with
    | Some k => (k <=? n)%nat
    | None => false
    end.
Proof.
  destruct limit as [q| | |]; try reflexivity.
  rewrite count_ge_ceiling. cbn [allowance].
  destruct (Z.leb_spec (Qceiling q) (Z.of_nat n)), (Nat.leb_spec (Z.to_nat (Qceiling q)) n);
    try reflexivity; lia.
Qed.

(** What [Math.min(K, 50)] lets through: nothing is let through for ever
    unless [K] is NaN, and at most 50 entries are. *)
Lemma allowance_cap (K : Number) :
  match allowance (math_min K (number_of_Z 50)) with
  | Some k => (k <= 50)%nat /\ K <> NotANumber
  | None => K = NotANumber
  end.
Proof.
  destruct K as [q| | |]; unfold math_min, number_of_Z; cbn [allowance].
  - destruct (Qle_bool q (inject_Z 50)) eqn:E; cbn [allowance].
    + split; [|discriminate].
      change (Qle_bool q (inject_Z 50)) with (count_ge 50 (Finite q)) in E.
      rewrite count_ge_ceiling in E. apply Z.leb_le in E. lia.
    + split; [|discriminate]. rewrite Qceiling_Z. lia.
  - split; [|discriminate]. rewrite Qceiling_Z. lia.
  - split; [lia | discriminate].
  - reflexivity.
Qed.

(** For an integer [k], [Math.min(k, 50)] lets the first [min(k, 50)]
    entries through. *)
Lemma allowance_cap_integer (k : Z) :
  allowance (math_min (number_of_Z k) (number_of_Z 50)) = Some (Z.to_nat (Z.min k 50)).
Proof.
  unfold number_of_Z, math_min. rewrite Qle_bool_inject.
  destruct (Z.leb_spec k 50); cbn [allowance]; rewrite Qceiling_Z; f_equal; lia.
Qed.

(** *** The NinjaOne and HaloPSA method *)

(** With a limit that lets [k] entries through, the loop is the loop with
    the integer limit [k]. *)
Lemma scan_any_capped (wd so isc ie : bool) (pathPattern : string) (K : Number)
    (k : nat) (l acc : list (string * JsVal)) (m : nat) :
  allowance (EndpointDetailsAny.cap K) = Some k ->
  EndpointDetailsAny.scan wd so isc ie pathPattern K l acc (Z.of_nat m)
  = EndpointDetails.scan wd so isc ie pathPattern (Z.of_nat k) l acc (Z.of_nat m).
Proof.
  intros Hk.
  assert (H50 : (k <= 50)%nat).
  { pose proof (allowance_cap K) as H. unfold EndpointDetailsAny.cap in Hk.
    rewrite Hk in H. tauto. }
  revert acc m; induction l as [|[path pathObj] l IH]; intros acc m; cbn; [reflexivity|].
  rewrite count_ge_allowance, Hk.
  replace (Z.of_nat m >=? Z.min (Z.of_nat k) 50)%Z with (k <=? m)%nat.
  - replace (Z.of_nat m + 1)%Z with (Z.of_nat (S m)) by lia. now rewrite !IH.
  - rewrite Z.geb_leb.
    destruct (Nat.leb_spec k m), (Z.leb_spec (Z.min (Z.of_nat k) 50) (Z.of_nat m));
      try reflexivity; lia.
Qed.

(** With NaN for a limit the loop never stops early. *)
Lemma scan_any_unbounded (wd so isc ie : bool) (pathPattern : string)
    (l acc : list (string * JsVal)) (n : Z) :
  NoDup (map fst l) ->
  (forall k, In k (map fst l) -> ~ In k (map fst acc)) ->
  EndpointDetailsAny.scan wd so isc ie pathPattern NotANumber l acc n
  = ((acc ++ map (EndpointDetails.shown wd so isc ie)
               (EndpointDetails.matching pathPattern l))%list,
     (n + Z.of_nat (List.length (EndpointDetails.matching pathPattern l)))%Z).
Proof.
  unfold EndpointDetails.matching.
  revert acc n; induction l as [|[path pathObj] l IH]; intros acc n Hnd Hfresh.
  - cbn. now rewrite app_nil_r, Z.add_0_r.
  - cbn [EndpointDetailsAny.scan filter fst].
    cbn [EndpointDetailsAny.cap math_min count_ge].
    inversion Hnd as [|? ? Hnotin Hnd']; subst.
    destruct (path_matches pathPattern path).
    + rewrite set_prop_new by (apply Hfresh; now left).
      rewrite IH; [|exact Hnd'|].
      * cbn [map List.length]. unfold EndpointDetails.shown at 2. cbn [fst snd].
        f_equal; [now rewrite <- app_assoc | lia].
      * intros k Hk Hin. rewrite map_app in Hin. apply in_app_or in Hin as [Hin|Hin].
        -- apply (Hfresh k); [now right | exact Hin].
        -- cbn in Hin. destruct Hin as [<-|[]]. contradiction.
    + apply IH; [exact Hnd'|]. intros k Hk. apply Hfresh. now right.
Qed.

(** What the loop returns, for any number. *)
Lemma scan_any_spec (wd so isc ie : bool) (pathPattern : string) (K : Number)
    (l : list (string * JsVal)) :
  NoDup (map fst l) ->
  let page := allowed (EndpointDetailsAny.cap K) (EndpointDetails.matching pathPattern l) in
  EndpointDetailsAny.scan wd so isc ie pathPattern K l [] 0%Z
  = (map (EndpointDetails.shown wd so isc ie) page, Z.of_nat (List.length page)).
Proof.
  intros Hnd page. subst page. unfold allowed.
  destruct (allowance (EndpointDetailsAny.cap K)) as [k|] eqn:Hk.
  - change 0%Z with (Z.of_nat 0).
    rewrite (scan_any_capped wd so isc ie pathPattern K k l [] 0 Hk).
    pose proof (details_scan_spec wd so isc ie pathPattern (Z.of_nat k) l [] Hnd) as H.
    cbn [List.length app Z.of_nat Nat.add] in H. rewrite Nat.sub_0_r in H.
    change (Z.of_nat 0) with 0%Z. rewrite H by (intros ? _ []).
    unfold EndpointDetails.cap.
    assert (H50 : (k <= 50)%nat).
    { pose proof (allowance_cap K) as Hc. unfold EndpointDetailsAny.cap in Hk.
      rewrite Hk in Hc. tauto. }
    replace (Z.to_nat (Z.min (Z.of_nat k) 50)) with k by lia. reflexivity.
  - assert (HK : K = NotANumber).
    { pose proof (allowance_cap K) as Hc. unfold EndpointDetailsAny.cap in Hk.
      now rewrite Hk in Hc. }
    subst K. rewrite scan_any_unbounded by (exact Hnd || intros ? _ []).
    reflexivity.
Qed.

Lemma details_report (withDescription : bool) (doc : SchemaDocument)
    (pathPattern : string) (summaryOnly includeSchemas : bool) (K : Number)
    (includeExamples : bool) :
  NoDup (map fst (paths doc)) ->
  truncation_report
    (EndpointDetailsAny.getApiEndpointDetails withDescription doc pathPattern
       summaryOnly includeSchemas (Some K) includeExamples)
    doc pathPattern K.
Proof.
  intros Hnd. unfold truncation_report, EndpointDetailsAny.getApiEndpointDetails.
  rewrite (scan_any_spec withDescription summaryOnly includeSchemas includeExamples
             pathPattern K (paths doc) Hnd).
  unfold EndpointDetails.matching, EndpointDetails.shown, EndpointDetailsAny.cap.
  fold (matching_paths doc pathPattern).
  set (page := allowed (math_min K (number_of_Z 50)) (matching_paths doc pathPattern)).
  set (show := fun e : string * JsVal => _).
  exists (map show page).
  assert (Hlen : List.length (map show page) = List.length page) by apply length_map.
  assert (Hkeys : map fst (map show page) = map fst page).
  { rewrite map_map. apply map_ext. now intros [p o]. }
  assert (H50 : K <> NotANumber -> (List.length page <= 50)%nat).
  { intros HK. subst page. unfold allowed.
    pose proof (allowance_cap K) as Hc.
    destruct (allowance (math_min K (number_of_Z 50))) as [k|]; [|contradiction].
    rewrite length_firstn. lia. }
  assert (Hint : forall k, K = number_of_Z k ->
            (Z.of_nat (List.length page) <= Z.max 0 (Z.min k 50))%Z).
  { intros k ->. subst page. unfold allowed. rewrite allowance_cap_integer.
    rewrite length_firstn. lia. }
  assert (Hlimited : (List.length page < List.length (matching_paths doc pathPattern))%nat ->
            count_ge (Z.of_nat (List.length page)) (math_min K (number_of_Z 50)) = true).
  { intros Hless. rewrite count_ge_allowance. subst page. unfold allowed in *.
    destruct (allowance (math_min K (number_of_Z 50))) as [k|]; [|lia].
    rewrite length_firstn in *. apply Nat.leb_le. lia. }
  rewrite Hlen.
  destruct (includeSchemas && negb summaryOnly && (0 <? Z.of_nat (List.length page))%Z);
    (split; [reflexivity|]; split; [exact Hkeys|]; split; [exact H50|];
     split; [exact Hint|]; split; [reflexivity|]; split; [reflexivity|]);
    intros Hless; cbn; now rewrite Hlimited.
Qed.

(** *** The ConnectWise method *)

(** From one endpoint on, a limit that lets [k] entries through is reached
    by the lists of [max 1 k] endpoints or more. *)
Lemma reached_allowance (limit : Number) (k : nat) (l : list JsVal) :
  allowance limit = Some k -> l <> [] ->
  ConnectWiseCatalog.reached l limit = (Nat.max 1 k <=? List.length l)%nat.
Proof.
  intros Hk Hl. unfold ConnectWiseCatalog.reached. rewrite count_ge_allowance, Hk.
  destruct l as [|x l]; [contradiction|]. cbn [List.length].
  destruct (Nat.leb_spec k (S (List.length l))),
           (Nat.leb_spec (Nat.max 1 k) (S (List.length l))); try reflexivity; lia.
Qed.

Lemma collect_methods_bound (iS iE sO : JsVal) (limit : Number) (k : nat) (path : string)
    (ops : list (string * JsVal)) (acc : list JsVal) :
  allowance limit = Some k ->
  (List.length acc < Nat.max 1 k)%nat ->
  (List.length (ConnectWiseCatalog.collect_methods iS iE sO limit path ops acc)
   <= Nat.max 1 k)%nat.
Proof.
  intros Hk.
  revert acc; induction ops as [|[method operation] ops IH]; intros acc Hacc;
    cbn [ConnectWiseCatalog.collect_methods].
  - lia.
  - destruct (negb (typeof_object operation) || is_null operation); [now apply IH|].
    rewrite (reached_allowance limit k _ Hk) by (now destruct acc).
    rewrite length_app. cbn [List.length].
    destruct (Nat.leb_spec (Nat.max 1 k) (List.length acc + 1)) as [Hfull|Hroom].
    + rewrite length_app. cbn [List.length]. lia.
    + apply IH. rewrite length_app. cbn [List.length]. lia.
Qed.

Lemma collect_paths_bound (iS iE sO : JsVal) (limit : Number) (k : nat)
    (test : string -> bool) (ps : list (string * JsVal)) (acc : list JsVal) :
  allowance limit = Some k ->
  (List.length acc < Nat.max 1 k)%nat ->
  (List.length (ConnectWiseCatalog.collect_paths iS iE sO limit test ps acc)
   <= Nat.max 1 k)%nat.
Proof.
  intros Hk.
  revert acc; induction ps as [|[path item] ps IH]; intros acc Hacc;
    cbn [ConnectWiseCatalog.collect_paths].
  - lia.
  - destruct (negb (test path)); [now apply IH|].
    pose proof (collect_methods_bound iS iE sO limit k path (entries item) acc Hk Hacc)
      as Hb.
    set (collected := ConnectWiseCatalog.collect_methods _ _ _ _ _ _ _) in *.
    unfold ConnectWiseCatalog.reached. rewrite count_ge_allowance, Hk.
    destruct (Nat.leb_spec k (List.length collected)) as [Hfull|Hroom].
    + exact Hb.
    + apply IH. lia.
Qed.

(** The limit the tool handler passes on lets at most 50 entries through. *)
Lemma tool_maxEndpoints_allowance (K : Number) :
  exists n, allowance (ConnectWiseCatalog.tool_maxEndpoints K) = Some n /\ (n <= 50)%nat.
Proof.
  unfold ConnectWiseCatalog.tool_maxEndpoints.
  pose proof (allowance_cap (number_or K (number_of_Z 10))) as H.
  destruct (allowance (math_min (number_or K (number_of_Z 10)) (number_of_Z 50)))
    as [n|].
  - exists n. split; [reflexivity | tauto].
  - exfalso. destruct K as [q| | |]; cbn in H; try discriminate.
    destruct (Qeq_bool q 0); discriminate.
Qed.

(** For an integer argument the handler computes that limit. *)
Lemma tool_maxEndpoints_integer (k : Z) :
  number_of_Num (num_min (toNumber (or_else (JNum k) (JNum 10))) (Fin 50))
  = ConnectWiseCatalog.tool_maxEndpoints (number_of_Z k).
Proof.
  unfold ConnectWiseCatalog.tool_maxEndpoints, number_or, number_of_Z, or_else.
  cbn [truthy]. change 0%Q with (inject_Z 0). rewrite Qeq_bool_inject.
  destruct (k =? 0)%Z; cbn [negb toNumber num_min number_of_Num];
    unfold number_of_Z, math_min; rewrite Qle_bool_inject.
  - reflexivity.
  - destruct (Z.leb_spec k 50); f_equal; f_equal; lia.
Qed.

Lemma connectwise_details_report (doc : SchemaDocument)
    (pattern : Result (string -> bool)) (options : ConnectWiseCatalog.Options)
    (limit : Number) (n : nat) :
  ConnectWiseCatalog.maxEndpoints options = Some limit ->
  allowance limit = Some n ->
  match pattern with
  | Ok _ =>
      exists r,
        ConnectWiseCatalog.getEndpointDetails (Some doc) pattern options = Ok r /\
        bare_report r (Z.max 1 (Z.of_nat n))
  | Throw e =>
      ConnectWiseCatalog.getEndpointDetails (Some doc) pattern options = Throw e
  end.
Proof.
  intros Hlimit Hn. unfold ConnectWiseCatalog.getEndpointDetails. rewrite Hlimit.
  destruct pattern as [test|e]; [|reflexivity].
  eexists. split; [reflexivity|].
  eexists. split; [reflexivity|]. split; [|split; reflexivity].
  match goal with
  | |- context [ConnectWiseCatalog.collect_paths ?a ?b ?c _ _ _ _] =>
      pose proof (collect_paths_bound a b c limit n test (paths doc) [] Hn) as Hb
  end.
  cbn [List.length] in Hb. lia.
Qed.

(** C3 (counterexamples).  With [maxEndpoints = 5/2] the NinjaOne method
    returns three of the five paths that match "device": more than
    [min(K, 50)], which is 5/2.  Through its tool handler, the ConnectWise
    client's [getEndpointDetails] for the pattern "device" with
    [maxEndpoints = 1] returns one endpoint, and its result has no
    [totalMatches] and no [limited] property at all. *)
Lemma endpoint_details_counterexamples :
  (field (NinjaOneCatalog.getApiEndpointDetailsAny SampleDoc.doc "device" true false
            (Some (Finite (5 # 2))) false) "matchCount" = Some (JNum 3) /\
   math_min (Finite (5 # 2)) (number_of_Z 50) = Finite (5 # 2) /\
   (5 # 2 < inject_Z 3)%Q) /\
  match ConnectWiseCatalog.endpoint_details_tool (Some SampleDoc.doc)
          ConnectWiseCatalog.literal_regexp
          (JObj [("pathPattern", JStr "device"); ("maxEndpoints", JNum 1)]) with
  | Ok r =>
      field r "matchCount" = Some (JNum 1) /\
      field r "totalMatches" = None /\
      field r "limited" = None
  | Throw _ => False
  end /\
  List.length (matching_paths SampleDoc.doc "device") = 5%nat.
Proof. vm_compute. repeat split. Qed.

(** C3 (as amended): for every path pattern and every number K given as
    [maxEndpoints], [getApiEndpointDetails] of the NinjaOne and HaloPSA
    clients returns the first matching paths in document order, as many as
    [min(K, 50)] lets through, that is [min(K, 50)] rounded up to a whole
    number: at most [min(K, 50)] of them when K is a non-negative integer,
    none when K is negative, never more than 50 unless K is NaN, and all of
    them when K is NaN.  It reports [totalMatches] as the number of all
    matching paths, and sets [limited = true] whenever fewer entries are
    returned than match.  [getEndpointDetails] of the ConnectWise client,
    called as its tool handler calls it, with [min(K || 10, 50)], throws
    what [new RegExp] throws when the pattern is not a regular expression;
    otherwise it returns at most as many endpoints as that limit lets
    through (one, when that is none) and reports only [matchCount]: its
    result has no [totalMatches] and no [limited]. *)
Theorem endpoint_details_truncation (doc : SchemaDocument) (pathPattern : string)
    (K : Number) :
  NoDup (map fst (paths doc)) ->
  (forall summaryOnly includeSchemas includeExamples,
     truncation_report
       (NinjaOneCatalog.getApiEndpointDetailsAny doc pathPattern summaryOnly
          includeSchemas (Some K) includeExamples) doc pathPattern K /\
     truncation_report
       (HaloPSACatalog.getApiEndpointDetailsAny doc pathPattern summaryOnly
          includeSchemas (Some K) includeExamples) doc pathPattern K) /\
  (exists n,
     allowance (ConnectWiseCatalog.tool_maxEndpoints K) = Some n /\ (n <= 50)%nat /\
     forall pattern options,
       ConnectWiseCatalog.maxEndpoints options
       = Some (ConnectWiseCatalog.tool_maxEndpoints K) ->
       match pattern with
       | Ok _ =>
           exists r,
             ConnectWiseCatalog.getEndpointDetails (Some doc) pattern options = Ok r /\
             bare_report r (Z.max 1 (Z.of_nat n))
       | Throw e =>
           ConnectWiseCatalog.getEndpointDetails (Some doc) pattern options = Throw e
       end) /\
  (forall regexp args k,
     K = number_of_Z k ->
     optProp args "maxEndpoints" = JNum k ->
     ConnectWiseCatalog.endpoint_details_tool (Some doc) regexp args
     = ConnectWiseCatalog.getEndpointDetails (Some doc)
         (regexp (optProp args "pathPattern"))
         {| ConnectWiseCatalog.includeSchemas := optProp args "includeSchemas";
            ConnectWiseCatalog.includeExamples := optProp args "includeExamples";
            ConnectWiseCatalog.summaryOnly := optProp args "summaryOnly";
            ConnectWiseCatalog.maxEndpoints :=
              Some (ConnectWiseCatalog.tool_maxEndpoints K) |}).
Proof.
  intros Hnd. split; [|split].
  - intros sO iS iE. split; now apply details_report.
  - destruct (tool_maxEndpoints_allowance K) as [n [Hn H50]].
    exists n. split; [exact Hn|]. split; [exact H50|].
    intros pattern options Hlimit.
    now apply (connectwise_details_report doc pattern options _ n Hlimit).
  - intros regexp args k -> Hk. unfold ConnectWiseCatalog.endpoint_details_tool.
    now rewrite Hk, tool_maxEndpoints_integer.
Qed.

Lemma endpoint_details_truncation_witness :
  truncation_report
    (NinjaOneCatalog.getApiEndpointDetailsAny SampleDoc.doc "device" false true
       (Some (Finite (5 # 2))) false)
    SampleDoc.doc "device" (Finite (5 # 2)).
Proof.
  assert (Hnd : NoDup (map fst (paths SampleDoc.doc))).
  { repeat constructor; cbn; intuition discriminate. }
  exact (proj1 (proj1 (endpoint_details_truncation SampleDoc.doc "device"
                         (Finite (5 # 2)) Hnd)
                  false true false)).
Defined.

(** The scenario of the specification: five paths contain "device", one
    entry is asked for. *)
Example details_scenario_device :
  let r := NinjaOneCatalog.getApiEndpointDetails SampleDoc.doc "device"
             true false 1 false in
  field r "matchCount" = Some (JNum 1) /\
  field r "totalMatches" = Some (JNum 5) /\
  field r "limited" = Some (JBool true).
Proof. vm_compute. repeat split. Qed.

(** ** Endpoint search *)

Lemma every_term_spec (terms : list string) (text : string) :
  ConnectWiseCatalog.every_term terms text = true <->
  forall term, In term terms -> occurs_in term text.
Proof.
  unfold ConnectWiseCatalog.every_term, occurs_in. rewrite forallb_forall.
  split; intros H term Hin; apply includes_spec, H, Hin.
Qed.

Lemma connectwise_methods_spec (terms : list string) (path : string)
    (ops : list (string * JsVal)) (results : list string) :
  (forall m op, In (m, op) ops -> is_operation op = true ->
                exists t, ConnectWiseCatalog.searchableText path m op = Ok t) ->
  ConnectWiseCatalog.search_methods terms path ops results =
  Ok (results ++ map connectwise_line
                   (filter (connectwise_selected terms)
                      (map (fun me => (path, fst me, snd me))
                         (filter (fun me => is_operation (snd me)) ops))))%list.
Proof.
  revert results; induction ops as [|[m op] ops IH]; intros results Hok; cbn.
  - now rewrite app_nil_r.
  - assert (Hrest : forall m' op', In (m', op') ops -> is_operation op' = true ->
                      exists t, ConnectWiseCatalog.searchableText path m' op' = Ok t).
    { intros m' op' Hin. apply Hok. now right. }
    unfold is_operation at 1.
    destruct (typeof_object op) eqn:Hobj, (is_null op) eqn:Hnull; cbn;
      try (now apply IH).
    destruct (Hok m op (or_introl eq_refl)) as [t Ht].
    { unfold is_operation. now rewrite Hobj, Hnull. }
    rewrite Ht. rewrite IH by exact Hrest.
    destruct (ConnectWiseCatalog.every_term terms t); cbn.
    + now rewrite <- app_assoc.
    + reflexivity.
Qed.

Lemma connectwise_paths_spec (terms : list string)
    (ps : list (string * JsVal)) (results : list string) :
  (forall c, In c (connectwise_candidates ps) ->
             let '(path, m, op) := c in
             exists t, ConnectWiseCatalog.searchableText path m op = Ok t) ->
  ConnectWiseCatalog.search_paths terms ps results =
  Ok (results ++ map connectwise_line
                   (filter (connectwise_selected terms)
                      (connectwise_candidates ps)))%list.
Proof.
  unfold connectwise_candidates.
  revert results; induction ps as [|[path item] ps IH]; intros results Hok;
    cbn [ConnectWiseCatalog.search_paths flat_map fst snd].
  - cbn. now rewrite app_nil_r.
  - rewrite connectwise_methods_spec.
    + rewrite IH.
      * now rewrite filter_app, map_app, app_assoc.
      * intros c Hin. apply Hok. cbn [flat_map]. apply in_or_app. now right.
    + intros m op Hin Hop.
      apply (Hok (path, m, op)). cbn [flat_map fst snd]. apply in_or_app. left.
      apply in_map_iff. exists (m, op). split; [reflexivity|].
      apply filter_In. now split.
Qed.

Lemma halopsa_methods_spec (query path : string)
    (ops : list (string * JsVal)) (acc : list JsVal) :
  (forall m op, In (m, op) ops ->
                exists t, HaloPSACatalog.searchableText path op = Ok t) ->
  HaloPSACatalog.search_methods query path ops acc =
  Ok (acc ++ map halopsa_found
                (filter (halopsa_selected query)
                   (map (fun me => (path, fst me, snd me)) ops)))%list.
Proof.
  revert acc; induction ops as [|[m op] ops IH]; intros acc Hok; cbn.
  - now rewrite app_nil_r.
  - destruct (Hok m op (or_introl eq_refl)) as [t Ht]. rewrite Ht.
    rewrite IH by (intros m' op' Hin; apply (Hok m' op'); now right).
    destruct (includes t (toLowerCase query)); cbn.
    + now rewrite <- app_assoc.
    + reflexivity.
Qed.

Lemma halopsa_paths_spec (query : string)
    (ps : list (string * JsVal)) (acc : list JsVal) :
  (forall c, In c (halopsa_candidates ps) ->
             let '(path, m, op) := c in
             exists t, HaloPSACatalog.searchableText path op = Ok t) ->
  HaloPSACatalog.search_paths query ps acc =
  Ok (acc ++ map halopsa_found
                (filter (halopsa_selected query)
                   (halopsa_candidates ps)))%list.
Proof.
  unfold halopsa_candidates.
  revert acc; induction ps as [|[path item] ps IH]; intros acc Hok;
    cbn [HaloPSACatalog.search_paths flat_map fst snd].
  - cbn. now rewrite app_nil_r.
  - rewrite halopsa_methods_spec.
    + rewrite IH.
      * now rewrite filter_app, map_app, app_assoc.
      * intros c Hin. apply Hok. cbn [flat_map]. apply in_or_app. now right.
    + intros m op Hin.
      apply (Hok (path, m, op)). cbn [flat_map fst snd]. apply in_or_app. left.
      apply in_map_iff. now exists (m, op).
Qed.

Lemma connectwise_text_defined (c : Candidate) :
  searchable c ->
  let '(path, m, op) := c in
  exists t, ConnectWiseCatalog.searchableText path m op = Ok t.
Proof.
  destruct c as [[path m] op]. intros [tags Htags]. cbn in Htags.
  unfold ConnectWiseCatalog.searchableText. rewrite Htags. eauto.
Qed.

Lemma halopsa_text_defined (c : Candidate) :
  searchable c ->
  let '(path, m, op) := c in
  exists t, HaloPSACatalog.searchableText path op = Ok t.
Proof.
  destruct c as [[path m] op]. intros [tags Htags]. cbn in Htags.
  unfold HaloPSACatalog.searchableText. rewrite Htags. eauto.
Qed.

(** C4 (counterexample): the operation POST /v2/tickets, "Create a service
    ticket", holds both "ticket" and "create" in its searched text; the
    ConnectWise search for "ticket create" returns it, the HaloPSA search
    for the same query returns nothing. *)
Lemma halopsa_search_misses_both_tokens :
  HaloPSACatalog.searchableText "/v2/tickets"
    (SampleDoc.operation "Create a service ticket" ["Service"])
  = Ok "/v2/tickets create a service ticket  service" /\
  includes "/v2/tickets create a service ticket  service" "ticket" = true /\
  includes "/v2/tickets create a service ticket  service" "create" = true /\
  match HaloPSACatalog.searchApiEndpoints SampleDoc.doc "ticket create" 50 0 with
  | Ok r => field r "results" = Some (JArr []) /\ field r "totalResults" = Some (JNum 0)
  | Throw _ => False
  end /\
  ConnectWiseCatalog.searchEndpoints (Some SampleDoc.doc) "ticket create"
  = Ok ["POST /v2/tickets - Create a service ticket"].
Proof. vm_compute. repeat split. Qed.

(** C4 (as amended): the ConnectWise client's [searchEndpoints] splits the
    lowercased query on white space and returns, in document order, exactly
    the operations whose text (path, method, operationId, summary,
    description and tags, joined and lowercased) holds every token: logical
    AND, case-insensitive.  The HaloPSA client's [searchApiEndpoints] does
    not split the query: it finds, and then paginates, exactly the operations
    whose text (path, summary, description and tags) holds the whole
    lowercased query as one piece. *)
Theorem search_semantics (doc : SchemaDocument) (query : string) :
  ((forall c, In c (connectwise_candidates (paths doc)) -> searchable c) ->
   ConnectWiseCatalog.searchEndpoints (Some doc) query
   = Ok (map connectwise_line
           (filter (connectwise_selected (splitWs (toLowerCase query)))
                   (connectwise_candidates (paths doc)))) /\
   forall path method op text,
     ConnectWiseCatalog.searchableText path method op = Ok text ->
     (connectwise_selected (splitWs (toLowerCase query)) (path, method, op) = true
      <-> forall term, In term (splitWs (toLowerCase query)) -> occurs_in term text)) /\
  ((forall c, In c (halopsa_candidates (paths doc)) -> searchable c) ->
   (forall limit skip,
      exists r,
        HaloPSACatalog.searchApiEndpoints doc query limit skip = Ok r /\
        field r "results"
        = Some (JArr (slice (map halopsa_found
                               (filter (halopsa_selected query)
                                       (halopsa_candidates (paths doc))))
                            skip (skip + limit)))) /\
   forall path method op text,
     HaloPSACatalog.searchableText path op = Ok text ->
     (halopsa_selected query (path, method, op) = true
      <-> occurs_in (toLowerCase query) text)).
Proof.
  split; intros Hok; split.
  - unfold ConnectWiseCatalog.searchEndpoints.
    rewrite connectwise_paths_spec; [reflexivity|].
    intros c Hc. apply connectwise_text_defined, Hok, Hc.
  - intros path method op text Ht. cbn. rewrite Ht. apply every_term_spec.
  - intros limit skip. unfold HaloPSACatalog.searchApiEndpoints.
    rewrite halopsa_paths_spec.
    + eexists. split; reflexivity.
    + intros c Hc. apply halopsa_text_defined, Hok, Hc.
  - intros path method op text Ht. cbn. rewrite Ht. apply includes_spec.
Qed.

Lemma search_semantics_witness :
  ConnectWiseCatalog.searchEndpoints (Some SampleDoc.doc) "ticket create"
  = Ok ["POST /v2/tickets - Create a service ticket"].
Proof.
  refine (proj1 (proj1 (search_semantics SampleDoc.doc "ticket create") _)).
  intros c Hc. cbn in Hc.
  repeat (destruct Hc as [<-|Hc]; [eexists; reflexivity|]).
  destruct Hc.
Defined.

(** ** The dispatch boundary *)

(** C2 (counterexample): with no credentials in the environment and no
    client yet, the NinjaOne call-tool handler throws to its caller:
    [initializeClient] runs before the [try]. *)
Lemma ninjaone_handler_throws_on_missing_credentials :
  fst (NinjaOneServer.handler
         {| NinjaOneServer.NINJAONE_CLIENT_ID := None;
            NinjaOneServer.NINJAONE_CLIENT_SECRET := None;
            NinjaOneServer.NINJAONE_REGION := None;
            NinjaOneServer.NINJAONE_SCOPE := None |}
         (fun _ => "null") (fun _ _ _ => ret JNull)
         "ninjaone_get_policies" (JObj [])
         {| NinjaOneServer.ninjaClient := None;
            NinjaOneServer.world := start_world 0 |})
  = Throw (Error
      "NINJAONE_CLIENT_ID and NINJAONE_CLIENT_SECRET environment variables are required").
Proof. reflexivity. Qed.

(** Malformed calls of the reporting handler and what they return. *)
Example reporting_handler_samples :
  let run := HaloPSAReporting.handler Sample.net Sample.halo (fun _ => "null")
               (fun r => Ok r) (fun _ r => Ok r) (fun _ r => Ok r) in
  fst (run "halopsa_table_info" (JObj []) (start_world 0))
  = Ok {| content := "Error: Table name is required"; isError := true |} /\
  fst (run "halopsa_list_tables" (JObj [("filter", JNum 5)]) (start_world 0))
  = Ok {| content := "Error: filter.replace is not a function"; isError := true |} /\
  fst (run "halopsa_build_query" JUndefined (start_world 0))
  = Ok {| content := "Error: Cannot destructure property 'tableName' of 'args' as it is undefined.";
          isError := true |} /\
  fst (run "halopsa_build_query" (JObj [("tableName", JStr "FAULTS");
                                        ("columns", JStr "Faultid")]) (start_world 0))
  = Ok {| content := "Error: columns.join is not a function"; isError := true |} /\
  fst (run "no_such_tool" (JObj []) (start_world 0))
  = Ok {| content := "Error: Unknown tool: no_such_tool"; isError := true |}.
Proof. repeat split. Qed.

(** C2 (as amended): whatever the operation name and the argument bag, an
    error raised inside the [switch] of a call-tool handler is caught and
    becomes an envelope whose text is "Error: " and the message; the HaloPSA
    reporting handler therefore never throws.  The NinjaOne handler never
    throws once its client exists or the credentials are in the environment;
    when the client is still missing and a credential is not set, the error
    of [initializeClient] is raised before the [try] and reaches the
    caller. *)
Theorem tool_errors_become_envelopes :
  (forall nw cfg stringify tables columns table_info name args (w : World),
     exists envelope w',
       HaloPSAReporting.handler nw cfg stringify tables columns table_info name args w
       = (Ok envelope, w') /\
       forall e w1,
         HaloPSAReporting.dispatch nw cfg stringify tables columns table_info name args w
         = (Throw e, w1) ->
         envelope = {| content := "Error: " ++ err_message e; isError := true |}) /\
  (forall env stringify client_method name args (s : NinjaOneServer.Server),
     match NinjaOneServer.ninjaClient s, NinjaOneServer.initializeClient env with
     | None, Throw e =>
         NinjaOneServer.handler env stringify client_method name args s = (Throw e, s)
     | Some c, _ | None, Ok c =>
         exists envelope s',
           NinjaOneServer.handler env stringify client_method name args s
           = (Ok envelope, s') /\
           forall e w1,
             NinjaOneServer.dispatch stringify client_method c name args
               (NinjaOneServer.world s) = (Throw e, w1) ->
             envelope = {| content := "Error: " ++ err_message e; isError := false |}
     end).
Proof.
  split.
  - intros. unfold HaloPSAReporting.handler, try_catch.
    destruct (HaloPSAReporting.dispatch _ _ _ _ _ _ _ _ _) as [[envelope|e] w1].
    + exists envelope, w1. split; [reflexivity | discriminate].
    + eexists _, w1. split; [reflexivity|]. now intros e' w2 [= <- _].
  - intros. unfold NinjaOneServer.handler.
    assert (Hcase : forall c,
      exists envelope s',
        (let '(r, w') :=
           try_catch (NinjaOneServer.dispatch stringify client_method c name args)
             (fun error => ret {| content := "Error: " ++ err_message error;
                                  isError := false |})
             (NinjaOneServer.world s) in
         (r, {| NinjaOneServer.ninjaClient := Some c; NinjaOneServer.world := w' |}))
        = (Ok envelope, s') /\
        forall e w1,
          NinjaOneServer.dispatch stringify client_method c name args
            (NinjaOneServer.world s) = (Throw e, w1) ->
          envelope = {| content := "Error: " ++ err_message e; isError := false |}).
    { intros c. unfold try_catch.
      destruct (NinjaOneServer.dispatch _ _ _ _ _ _) as [[envelope|e] w1].
      - eexists envelope, _. split; [reflexivity | discriminate].
      - eexists _, _. split; [reflexivity|]. now intros e' w2 [= <- _]. }
    destruct (NinjaOneServer.ninjaClient s) as [c|].
    + apply Hcase.
    + destruct (NinjaOneServer.initializeClient env) as [c|e];
        [apply Hcase | reflexivity].
Qed.

(** ** The reporting query *)

Lemma resource_calls_snoc (l : list Sent) (r : Request) :
  resource_calls (l ++ [ResourceCall r]) = (resource_calls l ++ [r])%list.
Proof. unfold resource_calls. now rewrite flat_map_app. Qed.

Lemma HaloPSA_auth_resource_calls nw cfg (w : World) :
  resource_calls (sent (snd (HaloPSAClient.authenticate nw cfg w)))
  = resource_calls (sent w).
Proof.
  destruct (token_valid (client w) (now w)) eqn:E.
  - now rewrite HaloPSA_reuses_valid_token.
  - rewrite HaloPSA_one_exchange by exact E.
    unfold resource_calls. rewrite flat_map_app. cbn. apply app_nil_r.
Qed.

(** What [executeQuery] sends: after a successful authentication one POST
    of the report request, and nothing when the authentication fails. *)
Lemma executeQuery_calls nw cfg (sql : JsVal) (w : World) :
  resource_calls (sent (snd (HaloPSAClient.executeQuery nw cfg sql w)))
  = (resource_calls (sent w)
     ++ (if is_ok (fst (HaloPSAClient.authenticate nw cfg w))
         then [HaloPSAClient.report_request cfg
                 (client (snd (HaloPSAClient.authenticate nw cfg w))) sql]
         else []))%list.
Proof.
  pose proof (HaloPSA_auth_resource_calls nw cfg w) as Hauth.
  unfold HaloPSAClient.executeQuery, bind at 1.
  destruct (HaloPSAClient.authenticate nw cfg w) as [[[]|e] w1]; cbn [fst snd is_ok] in *.
  - unfold bind at 1, get_client, try_catch, bind at 1, fetch.
    destruct (resource nw _) as [resp|e]; cbn [snd sent].
    + destruct (ok resp); cbn [negb].
      * unfold response_json. destruct (json resp); cbn;
          now rewrite resource_calls_snoc, Hauth.
      * cbn. now rewrite resource_calls_snoc, Hauth.
    + cbn. now rewrite resource_calls_snoc, Hauth.
  - cbn. now rewrite app_nil_r.
Qed.

(** C9: every invocation of [halopsa_query] that reaches the reporting API
    POSTs the one-element array [{_loadreportonly: true, sql: <the sql
    argument>}]; only the [sql] property of the argument bag is read, so the
    [loadReportOnly] argument (like any other) has no effect on what is sent
    or returned. *)
Theorem halopsa_query_request nw cfg stringify tables columns table_info
    (args : JsVal) (sql : JsVal) (w : World) :
  getProp args "sql" = Ok sql ->
  let run := HaloPSAReporting.handler nw cfg stringify tables columns table_info
               "halopsa_query" in
  let auth := HaloPSAClient.authenticate nw cfg w in
  let posted := HaloPSAClient.report_request cfg (client (snd auth)) sql in
  resource_calls (sent (snd (run args w)))
  = (resource_calls (sent w) ++ (if is_ok (fst auth) then [posted] else []))%list /\
  method posted = "POST" /\
  body posted = JsonBody (JArr [JObj [("_loadreportonly", JBool true); ("sql", sql)]]) /\
  forall args', getProp args' "sql" = Ok sql -> run args' w = run args w.
Proof.
  intros Hsql run auth posted.
  assert (Hrun : forall a, getProp a "sql" = Ok sql ->
            run a w =
            try_catch
              (bind (HaloPSAClient.executeQuery nw cfg sql)
                    (fun result => ret (success (stringify result))))
              (fun error => ret {| content := "Error: " ++ err_message error;
                                   isError := true |}) w).
  { intros a Ha. subst run. unfold HaloPSAReporting.handler, HaloPSAReporting.dispatch.
    cbn [String.eqb Ascii.eqb Bool.eqb]. unfold try_catch, bind at 1, lift.
    replace (destructure "args" a "sql") with (Ok sql : Result JsVal)
      by (destruct a; try discriminate; exact (eq_sym Ha)).
    reflexivity. }
  repeat split.
  - rewrite (Hrun args Hsql). unfold try_catch, bind.
    pose proof (executeQuery_calls nw cfg sql w) as Hcalls.
    destruct (HaloPSAClient.executeQuery nw cfg sql w) as [[result|e] w1];
      cbn [snd fst] in *; exact Hcalls.
  - intros args' Hsql'. now rewrite (Hrun args' Hsql'), (Hrun args Hsql).
Qed.

Lemma halopsa_query_request_witness :
  resource_calls
    (sent (snd (HaloPSAReporting.handler Sample.net Sample.halo (fun _ => "null")
                  (fun r => Ok r) (fun _ r => Ok r) (fun _ r => Ok r)
                  "halopsa_query"
                  (JObj [("sql", JStr "SELECT 1"); ("loadReportOnly", JBool false)])
                  (start_world 0))))
  = [HaloPSAClient.report_request Sample.halo
       {| accessToken := Some "tok"; tokenExpiry := Some 3540000%Z |}
       (JStr "SELECT 1")].
Proof.
  exact (proj1 (halopsa_query_request Sample.net Sample.halo (fun _ => "null")
                  (fun r => Ok r) (fun _ r => Ok r) (fun _ r => Ok r)
                  (JObj [("sql", JStr "SELECT 1"); ("loadReportOnly", JBool false)])
                  (JStr "SELECT 1") (start_world 0) eq_refl)).
Defined.

(** ** The query builder *)

Lemma escapeQuotes_app (a b : string) :
  escapeQuotes (a ++ b) = escapeQuotes a ++ escapeQuotes b.
Proof.
  induction a as [|c a IH]; cbn; [reflexivity|].
  destruct (Ascii.eqb c "'"); cbn; now rewrite IH.
Qed.

Lemma escapeQuotes_no_quote (s : string) :
  includes s "'" = false -> escapeQuotes s = s.
Proof.
  induction s as [|c s IH]; [reflexivity|].
  cbn [includes startsWith]. rewrite orb_false_iff, andb_false_iff.
  intros [[Hc|Hs] Hrest].
  - cbn. rewrite Ascii.eqb_sym, Hc. now rewrite IH.
  - destruct s; discriminate.
Qed.


















(** * Further properties of the code *)

(** ** A refused token exchange *)

Ltac begins_with := apply startsWith_spec; eexists; reflexivity.

Lemma NinjaOne_refused nw cfg (w : World) :
  token_valid (client w) (now w) = false ->
  exchange_fails nw (NinjaOneClient.token_request cfg) ->
  NinjaOneClient.ensureAuthenticated nw cfg w
  = (Throw (Error "Failed to authenticate with NinjaOne API"),
     refused w (NinjaOneClient.token_request cfg)
       (latency nw (NinjaOneClient.token_request cfg))).
Proof.
  intros Hv Hf. unfold exchange_fails in Hf.
  unfold NinjaOneClient.ensureAuthenticated, bind at 1 2, get_client, clock.
  rewrite Hv. unfold NinjaOneClient.authenticate, try_catch, bind at 1, fetch_token.
  destruct (token_endpoint nw _) as [resp|e]; [|reflexivity].
  destruct Hf as [Hok|Hj].
  - rewrite Hok. reflexivity.
  - destruct (ok resp); cbn [negb]; [|reflexivity].
    unfold bind, response_json. rewrite Hj. reflexivity.
Qed.

Lemma HaloPSA_refused nw cfg (w : World) :
  token_valid (client w) (now w) = false ->
  exchange_fails nw (HaloPSAClient.token_request cfg) ->
  exists e,
    HaloPSAClient.authenticate nw cfg w
    = (Throw e, refused w (HaloPSAClient.token_request cfg)
                  (latency nw (HaloPSAClient.token_request cfg))) /\
    startsWith (err_message e) "Failed to authenticate with HaloPSA: " = true /\
    (forall resp, token_endpoint nw (HaloPSAClient.token_request cfg) = Ok resp ->
       ok resp = false ->
       err_message e = "Failed to authenticate with HaloPSA: Error: Authentication failed: "
                       ++ string_of_Z (status resp) ++ " - " ++ text resp).
Proof.
  intros Hv Hf. unfold exchange_fails in Hf.
  unfold HaloPSAClient.authenticate, bind at 1 2, get_client, clock.
  rewrite Hv. unfold try_catch, bind at 1, fetch_token.
  destruct (token_endpoint nw _) as [resp|e].
  - destruct (ok resp) eqn:Hok; cbn [negb].
    + destruct Hf as [Hf|Hj]; [discriminate|].
      unfold bind, response_json. rewrite Hj.
      eexists. split; [reflexivity|]. split; [begins_with|].
      intros resp' [= <-] H. congruence.
    + eexists. split; [reflexivity|]. split; [begins_with|].
      now intros resp' [= <-] _.
  - eexists. split; [reflexivity|]. split; [begins_with | discriminate].
Qed.

Lemma ConnectWise_refused nw cfg (w : World) :
  token_valid (client w) (now w) = false ->
  exchange_fails nw (ConnectWiseRMMClient.token_request cfg) ->
  exists e,
    ConnectWiseRMMClient.authenticate nw cfg w
    = (Throw e, refused w (ConnectWiseRMMClient.token_request cfg)
                  (latency nw (ConnectWiseRMMClient.token_request cfg))) /\
    startsWith (err_message e) "Authentication failed: " = true /\
    (forall resp, token_endpoint nw (ConnectWiseRMMClient.token_request cfg) = Ok resp ->
       ok resp = false ->
       err_message e = "Authentication failed: Authentication failed: "
                       ++ string_of_Z (status resp) ++ " " ++ statusText resp).
Proof.
  intros Hv Hf. unfold exchange_fails in Hf.
  unfold ConnectWiseRMMClient.authenticate, bind at 1 2, get_client, clock.
  rewrite Hv. unfold try_catch, bind at 1, fetch_token.
  destruct (token_endpoint nw _) as [resp|e].
  - destruct (ok resp) eqn:Hok; cbn [negb].
    + destruct Hf as [Hf|Hj]; [discriminate|].
      unfold bind, response_json. rewrite Hj.
      eexists. split; [reflexivity|]. split; [begins_with|].
      intros resp' [= <-] H. congruence.
    + eexists. split; [reflexivity|]. split; [begins_with|].
      now intros resp' [= <-] _.
  - eexists. split; [reflexivity|]. split; [begins_with | discriminate].
Qed.

(** X1: when there is no valid token and the exchange with the token
    endpoint fails (network failure, non-2xx answer or a body that is not
    JSON), each client throws, has sent exactly one token request, and keeps
    its cached token and expiry untouched.  The NinjaOne client always
    reports the same message; the HaloPSA and ConnectWise clients wrap the
    cause, the ConnectWise client repeating its prefix. *)
Theorem failed_exchange_keeps_cache nw (w : World) :
  token_valid (client w) (now w) = false ->
  (forall cfg,
     exchange_fails nw (NinjaOneClient.token_request cfg) ->
     NinjaOneClient.ensureAuthenticated nw cfg w
     = (Throw (Error "Failed to authenticate with NinjaOne API"),
        refused w (NinjaOneClient.token_request cfg)
          (latency nw (NinjaOneClient.token_request cfg)))) /\
  (forall cfg,
     exchange_fails nw (HaloPSAClient.token_request cfg) ->
     exists e,
       HaloPSAClient.authenticate nw cfg w
       = (Throw e, refused w (HaloPSAClient.token_request cfg)
                     (latency nw (HaloPSAClient.token_request cfg))) /\
       startsWith (err_message e) "Failed to authenticate with HaloPSA: " = true /\
       (forall resp, token_endpoint nw (HaloPSAClient.token_request cfg) = Ok resp ->
          ok resp = false ->
          err_message e
          = "Failed to authenticate with HaloPSA: Error: Authentication failed: "
            ++ string_of_Z (status resp) ++ " - " ++ text resp)) /\
  (forall cfg,
     exchange_fails nw (ConnectWiseRMMClient.token_request cfg) ->
     exists e,
       ConnectWiseRMMClient.authenticate nw cfg w
       = (Throw e, refused w (ConnectWiseRMMClient.token_request cfg)
                     (latency nw (ConnectWiseRMMClient.token_request cfg))) /\
       startsWith (err_message e) "Authentication failed: " = true /\
       (forall resp,
          token_endpoint nw (ConnectWiseRMMClient.token_request cfg) = Ok resp ->
          ok resp = false ->
          err_message e = "Authentication failed: Authentication failed: "
                          ++ string_of_Z (status resp) ++ " " ++ statusText resp)).
Proof.
  intros Hv. repeat split; intros cfg Hf.
  - now apply NinjaOne_refused.
  - now apply HaloPSA_refused.
  - now apply ConnectWise_refused.
Qed.

Lemma failed_exchange_keeps_cache_witness :
  NinjaOneClient.ensureAuthenticated SampleNets.denying Sample.ninja (start_world 0)
  = (Throw (Error "Failed to authenticate with NinjaOne API"),
     refused (start_world 0) (NinjaOneClient.token_request Sample.ninja) 5).
Proof.
  refine (proj1 (failed_exchange_keeps_cache SampleNets.denying (start_world 0) eq_refl)
            Sample.ninja _).
  left. reflexivity.
Defined.

(** ** Requests are sent only after authentication *)

Lemma bind_throw {A B : Type} (m : Eff A) (k : A -> Eff B) (w w' : World) (e : JsError) :
  m w = (Throw e, w') -> bind m k w = (Throw e, w').
Proof. intros H. unfold bind. now rewrite H. Qed.

Lemma NinjaOne_auth_resource_calls nw cfg (w : World) :
  resource_calls (sent (snd (NinjaOneClient.ensureAuthenticated nw cfg w)))
  = resource_calls (sent w).
Proof.
  destruct (token_valid (client w) (now w)) eqn:E.
  - now rewrite NinjaOne_reuses_valid_token.
  - rewrite NinjaOne_one_exchange by exact E.
    unfold resource_calls. rewrite flat_map_app. cbn. apply app_nil_r.
Qed.

Lemma ConnectWise_auth_resource_calls nw cfg (w : World) :
  resource_calls (sent (snd (ConnectWiseRMMClient.authenticate nw cfg w)))
  = resource_calls (sent w).
Proof.
  destruct (token_valid (client w) (now w)) eqn:E.
  - now rewrite ConnectWise_reuses_valid_token.
  - rewrite ConnectWise_one_exchange by exact E.
    unfold resource_calls. rewrite flat_map_app. cbn. apply app_nil_r.
Qed.

Lemma NinjaOne_request_calls nw cfg path meth payload (w : World) :
  let auth := NinjaOneClient.ensureAuthenticated nw cfg w in
  match fst auth with
  | Throw e =>
      NinjaOneClient.request nw cfg path meth payload w = (Throw e, snd auth) /\
      resource_calls (sent (snd auth)) = resource_calls (sent w)
  | Ok _ =>
      resource_calls (sent (snd (NinjaOneClient.request nw cfg path meth payload w)))
      = (resource_calls (sent w)
         ++ [NinjaOneClient.api_request cfg (client (snd auth)) path meth payload])%list
  end.
Proof.
  pose proof (NinjaOne_auth_resource_calls nw cfg w) as Hauth.
  cbv zeta.
  destruct (NinjaOneClient.ensureAuthenticated nw cfg w) as [[[]|e] w1] eqn:E;
    cbn [fst snd] in *;
    [|split; [now apply bind_throw | exact Hauth]].
  unfold NinjaOneClient.request. rewrite (bind_ok _ _ _ _ _ E).
  unfold bind at 1, get_client, bind at 1, fetch.
  destruct (resource nw _) as [resp|e]; cbn [snd sent].
  - destruct (ok resp); cbn [negb].
    + unfold response_json. destruct (json resp); cbn;
        now rewrite resource_calls_snoc, Hauth.
    + cbn. now rewrite resource_calls_snoc, Hauth.
  - cbn. now rewrite resource_calls_snoc, Hauth.
Qed.

Lemma HaloPSA_executeQuery_calls nw cfg sql (w : World) :
  let auth := HaloPSAClient.authenticate nw cfg w in
  match fst auth with
  | Throw e =>
      HaloPSAClient.executeQuery nw cfg sql w = (Throw e, snd auth) /\
      resource_calls (sent (snd auth)) = resource_calls (sent w)
  | Ok _ =>
      resource_calls (sent (snd (HaloPSAClient.executeQuery nw cfg sql w)))
      = (resource_calls (sent w)
         ++ [HaloPSAClient.report_request cfg (client (snd auth)) sql])%list
  end.
Proof.
  pose proof (HaloPSA_auth_resource_calls nw cfg w) as Hauth.
  pose proof (executeQuery_calls nw cfg sql w) as Hcalls.
  cbv zeta.
  destruct (HaloPSAClient.authenticate nw cfg w) as [[[]|e] w1] eqn:E;
    cbn [fst snd is_ok] in *;
    [exact Hcalls | split; [now apply bind_throw | exact Hauth]].
Qed.

Lemma HaloPSA_makeApiCall_calls nw cfg path meth payload qp (w : World) :
  let auth := HaloPSAClient.authenticate nw cfg w in
  match fst auth with
  | Throw e =>
      HaloPSAClient.makeApiCall nw cfg path meth payload qp w = (Throw e, snd auth) /\
      resource_calls (sent (snd auth)) = resource_calls (sent w)
  | Ok _ =>
      resource_calls (sent (snd (HaloPSAClient.makeApiCall nw cfg path meth payload qp w)))
      = (resource_calls (sent w)
         ++ [HaloPSAClient.api_request cfg (client (snd auth)) path meth payload qp])%list
  end.
Proof.
  pose proof (HaloPSA_auth_resource_calls nw cfg w) as Hauth.
  cbv zeta.
  destruct (HaloPSAClient.authenticate nw cfg w) as [[[]|e] w1] eqn:E;
    cbn [fst snd] in *;
    [|split; [now apply bind_throw | exact Hauth]].
  unfold HaloPSAClient.makeApiCall. rewrite (bind_ok _ _ _ _ _ E).
  unfold bind at 1, get_client, try_catch, bind at 1, fetch.
  destruct (resource nw _) as [resp|e]; cbn [snd sent].
  - destruct (ok resp); cbn [negb].
    + destruct (contentType resp) as [ct|]; cbn;
        [|now rewrite resource_calls_snoc, Hauth].
      destruct (negb (ct =? "") && includes ct "application/json"); cbn;
        [|now rewrite resource_calls_snoc, Hauth].
      unfold bind, response_json. destruct (json resp); cbn;
        now rewrite resource_calls_snoc, Hauth.
    + cbn. now rewrite resource_calls_snoc, Hauth.
  - cbn. now rewrite resource_calls_snoc, Hauth.
Qed.

Lemma ConnectWise_makeRequest_calls nw cfg meth path data qp (w : World) :
  let auth := ConnectWiseRMMClient.authenticate nw cfg w in
  match fst auth with
  | Throw e =>
      ConnectWiseRMMClient.makeRequest nw cfg meth path data qp w = (Throw e, snd auth) /\
      resource_calls (sent (snd auth)) = resource_calls (sent w)
  | Ok _ =>
      resource_calls (sent (snd (ConnectWiseRMMClient.makeRequest nw cfg meth path data qp w)))
      = (resource_calls (sent w)
         ++ [ConnectWiseRMMClient.api_request cfg (client (snd auth)) meth path data qp])%list
  end.
Proof.
  pose proof (ConnectWise_auth_resource_calls nw cfg w) as Hauth.
  cbv zeta.
  destruct (ConnectWiseRMMClient.authenticate nw cfg w) as [[[]|e] w1] eqn:E;
    cbn [fst snd] in *;
    [|split; [now apply bind_throw | exact Hauth]].
  unfold ConnectWiseRMMClient.makeRequest. rewrite (bind_ok _ _ _ _ _ E).
  unfold bind at 1, get_client, try_catch, bind at 1, fetch.
  destruct (resource nw _) as [resp|e]; cbn [snd sent].
  - destruct (ok resp); cbn [negb].
    + destruct (negb (text resp =? "")); cbn;
        [|now rewrite resource_calls_snoc, Hauth].
      unfold response_json. destruct (json resp); cbn;
        now rewrite resource_calls_snoc, Hauth.
    + cbn. now rewrite resource_calls_snoc, Hauth.
  - cbn. now rewrite resource_calls_snoc, Hauth.
Qed.

(** X2: a call on a client contacts a resource endpoint only after a
    successful authentication, and then exactly once, with the request built
    from the token the client holds after authenticating (its
    [Authorization] header is "Bearer " and that token).  When the
    authentication fails, the call throws that same error and no resource
    endpoint is contacted. *)
Theorem resource_calls_follow_authentication nw (w : World) :
  (forall cfg path meth payload,
     let auth := NinjaOneClient.ensureAuthenticated nw cfg w in
     match fst auth with
     | Throw e =>
         NinjaOneClient.request nw cfg path meth payload w = (Throw e, snd auth) /\
         resource_calls (sent (snd auth)) = resource_calls (sent w)
     | Ok _ =>
         resource_calls (sent (snd (NinjaOneClient.request nw cfg path meth payload w)))
         = (resource_calls (sent w)
            ++ [NinjaOneClient.api_request cfg (client (snd auth)) path meth payload])%list
     end) /\
  (forall cfg sql,
     let auth := HaloPSAClient.authenticate nw cfg w in
     match fst auth with
     | Throw e =>
         HaloPSAClient.executeQuery nw cfg sql w = (Throw e, snd auth) /\
         resource_calls (sent (snd auth)) = resource_calls (sent w)
     | Ok _ =>
         resource_calls (sent (snd (HaloPSAClient.executeQuery nw cfg sql w)))
         = (resource_calls (sent w)
            ++ [HaloPSAClient.report_request cfg (client (snd auth)) sql])%list
     end) /\
  (forall cfg path meth payload qp,
     let auth := HaloPSAClient.authenticate nw cfg w in
     match fst auth with
     | Throw e =>
         HaloPSAClient.makeApiCall nw cfg path meth payload qp w = (Throw e, snd auth) /\
         resource_calls (sent (snd auth)) = resource_calls (sent w)
     | Ok _ =>
         resource_calls
           (sent (snd (HaloPSAClient.makeApiCall nw cfg path meth payload qp w)))
         = (resource_calls (sent w)
            ++ [HaloPSAClient.api_request cfg (client (snd auth)) path meth payload qp])%list
     end) /\
  (forall cfg meth path data qp,
     let auth := ConnectWiseRMMClient.authenticate nw cfg w in
     match fst auth with
     | Throw e =>
         ConnectWiseRMMClient.makeRequest nw cfg meth path data qp w
         = (Throw e, snd auth) /\
         resource_calls (sent (snd auth)) = resource_calls (sent w)
     | Ok _ =>
         resource_calls
           (sent (snd (ConnectWiseRMMClient.makeRequest nw cfg meth path data qp w)))
         = (resource_calls (sent w)
            ++ [ConnectWiseRMMClient.api_request cfg (client (snd auth))
                  meth path data qp])%list
     end) /\
  (forall ncfg hcfg ccfg c path meth payload sql jpayload qp,
     In ("Authorization", bearer c)
        (headers (NinjaOneClient.api_request ncfg c path meth payload)) /\
     In ("authorization", bearer c) (headers (HaloPSAClient.report_request hcfg c sql)) /\
     In ("authorization", bearer c)
        (headers (HaloPSAClient.api_request hcfg c path meth jpayload qp)) /\
     In ("Authorization", bearer c)
        (headers (ConnectWiseRMMClient.api_request ccfg c meth path jpayload qp))).
Proof.
  repeat split.
  - intros. apply NinjaOne_request_calls.
  - intros. apply HaloPSA_executeQuery_calls.
  - intros. apply HaloPSA_makeApiCall_calls.
  - intros. apply ConnectWise_makeRequest_calls.
  - cbn. tauto.
  - cbn. tauto.
  - cbn. tauto.
  - cbn. tauto.
Qed.

(** ** Grants that are used up when they arrive, and grants that last *)

Lemma calls_at_valid (call : Eff unit) (times : list Z) (w : World) :
  (forall w', token_valid (client w') (now w') = true -> call w' = (Ok tt, w')) ->
  Forall (fun t => token_valid (client w) t = true) times ->
  client (calls_at call times w) = client w /\
  sent (calls_at call times w) = sent w.
Proof.
  intros Hreuse. revert w; induction times as [|t rest IH]; intros w Hall; cbn.
  - now split.
  - inversion Hall as [|? ? Ht Hrest]; subst.
    rewrite (Hreuse (at_time t w)) by exact Ht. cbn [snd].
    destruct (IH (at_time t w) Hrest) as [Hc Hs]. now rewrite Hc, Hs.
Qed.

Lemma exchanges_snoc (l : list Sent) (r : Request) :
  exchanges (l ++ [TokenExchange r]) = S (exchanges l).
Proof. unfold exchanges. rewrite filter_app, length_app. cbn. lia. Qed.

(** X3: one successful exchange serves every later call made before the
    cached expiry: starting without a valid token, the first call and any
    sequence of further calls at instants before the expiry contact the token
    endpoint exactly once in all.  The expiry is the instant of the answer
    plus [expires_in - 60] seconds for the NinjaOne and HaloPSA clients and
    plus [expires_in] seconds for the ConnectWise client, provided it is
    within the range of dates; for the NinjaOne client, which computes it on
    the local time of its host, provided also that the offset of the host
    does not change before it. *)
Theorem one_exchange_serves_later_calls nw (w : World) resp data (times : list Z) :
  token_valid (client w) (now w) = false ->
  ok resp = true -> json resp = Some data -> access_token data <> "" ->
  (forall cfg,
     token_endpoint nw (NinjaOneClient.token_request cfg) = Ok resp ->
     let call := NinjaOneClient.ensureAuthenticated nw cfg in
     let issued := now (snd (call w)) in
     Date.steady (zone nw) issued ((expires_in data - 60) * 1000) ->
     Date.in_range (issued + (expires_in data - 60) * 1000) ->
     Forall (fun t => t < issued + (expires_in data - 60) * 1000)%Z times ->
     exchanges (sent (calls_at call times (snd (call w)))) = S (exchanges (sent w))) /\
  (forall cfg,
     token_endpoint nw (HaloPSAClient.token_request cfg) = Ok resp ->
     let call := HaloPSAClient.authenticate nw cfg in
     let issued := now (snd (call w)) in
     Date.in_range (issued + (expires_in data - 60) * 1000) ->
     Forall (fun t => t < issued + (expires_in data - 60) * 1000)%Z times ->
     exchanges (sent (calls_at call times (snd (call w)))) = S (exchanges (sent w))) /\
  (forall cfg,
     token_endpoint nw (ConnectWiseRMMClient.token_request cfg) = Ok resp ->
     let call := ConnectWiseRMMClient.authenticate nw cfg in
     let issued := now (snd (call w)) in
     Date.in_range (issued + expires_in data * 1000) ->
     Forall (fun t => t < issued + expires_in data * 1000)%Z times ->
     exchanges (sent (calls_at call times (snd (call w)))) = S (exchanges (sent w))).
Proof.
  intros Hv Hok Hj Htok.
  assert (Hvalid : forall e t, (t < e)%Z ->
            token_valid {| accessToken := Some (access_token data);
                           tokenExpiry := Some e |} t = true).
  { intros e t Ht. unfold token_valid; cbn.
    apply String.eqb_neq in Htok. rewrite Htok. cbn. now apply Z.ltb_lt. }
  split; [|split]; intros cfg Hn call issued; subst call issued.
  - rewrite (NinjaOne_refresh_date nw cfg w resp data Hv Hn Hok Hj). cbv zeta.
    cbn [snd refreshed_to now]. intros Hs Hr Hall.
    rewrite setSeconds_steady by assumption.
    match goal with |- context [calls_at _ _ ?x] => set (w1 := x) in * end.
    destruct (calls_at_valid (NinjaOneClient.ensureAuthenticated nw cfg) times w1) as [_ Hs'].
    + intros w'. apply NinjaOne_reuses_valid_token.
    + eapply Forall_impl; [|exact Hall]. intros t Ht. cbn in *. now apply Hvalid.
    + rewrite Hs'. cbn. apply exchanges_snoc.
  - rewrite (HaloPSA_refresh_date nw cfg w resp data Hv Hn Hok Hj).
    cbn [snd refreshed_to now]. intros Hr Hall.
    rewrite TimeClip_in_range by assumption.
    match goal with |- context [calls_at _ _ ?x] => set (w1 := x) in * end.
    destruct (calls_at_valid (HaloPSAClient.authenticate nw cfg) times w1) as [_ Hs].
    + intros w'. apply HaloPSA_reuses_valid_token.
    + eapply Forall_impl; [|exact Hall]. intros t Ht. cbn in *. now apply Hvalid.
    + rewrite Hs. cbn. apply exchanges_snoc.
  - rewrite (ConnectWise_refresh_date nw cfg w resp data Hv Hn Hok Hj).
    cbn [snd refreshed_to now]. intros Hr Hall.
    rewrite TimeClip_in_range by assumption.
    match goal with |- context [calls_at _ _ ?x] => set (w1 := x) in * end.
    destruct (calls_at_valid (ConnectWiseRMMClient.authenticate nw cfg) times w1) as [_ Hs].
    + intros w'. apply ConnectWise_reuses_valid_token.
    + eapply Forall_impl; [|exact Hall]. intros t Ht. cbn in *. now apply Hvalid.
    + rewrite Hs. cbn. apply exchanges_snoc.
Qed.

Lemma one_exchange_serves_later_calls_witness :
  exchanges
    (sent (calls_at (NinjaOneClient.ensureAuthenticated Sample.net Sample.ninja)
             [1000; 2000; 3539999]%Z
             (snd (NinjaOneClient.ensureAuthenticated Sample.net Sample.ninja
                     (start_world 0)))))
  = 1%nat.
Proof.
  refine (proj1 (one_exchange_serves_later_calls Sample.net (start_world 0)
                   (Sample.answer (Some "application/json") "{}" (Some Sample.grant))
                   Sample.grant [1000; 2000; 3539999]%Z
                   eq_refl eq_refl eq_refl _)
            Sample.ninja eq_refl _ _ _).
  - discriminate.
  - reflexivity.
  - unfold Date.in_range. cbn. lia.
  - repeat constructor.
Defined.

(** Where the clocks of the host change, the NinjaOne client keeps a token
    for another time than the grant says.  A grant of 3600 seconds answered
    half an hour before the clocks go back is cached for 7140 seconds, not
    for 3540.  A grant of 7200 seconds answered one second before the clocks
    go forward is cached for 3540 seconds, so that a call 3540 seconds after
    the answer, 3600 seconds before the expiry the grant gives, exchanges
    again. *)
Example NinjaOne_expiry_across_a_change_of_clocks :
  tokenExpiry (client (snd (NinjaOneClient.ensureAuthenticated
                              (SampleNets.granting 3600 (SampleNets.clocks_back 10000000))
                              Sample.ninja (start_world 8200000))))
  = Some (8200000 + 7140 * 1000)%Z /\
  let nw := SampleNets.granting 7200 (SampleNets.clocks_forward 10000000) in
  let w1 := snd (NinjaOneClient.ensureAuthenticated nw Sample.ninja (start_world 9999000)) in
  tokenExpiry (client w1) = Some (9999000 + 3540 * 1000)%Z /\
  exchanges (sent (snd (NinjaOneClient.ensureAuthenticated nw Sample.ninja
                          (at_time (9999000 + 3540 * 1000) w1)))) = 2%nat.
Proof. vm_compute. repeat split. Qed.

(** ** Grants no longer than the margin *)

Lemma setSeconds_steady_cases (z : Date.Zone) (t d : Z) :
  Date.steady z t (d * 1000) ->
  Date.setSeconds z t (Date.getSeconds z t + d) = Some (t + d * 1000)%Z \/
  Date.setSeconds z t (Date.getSeconds z t + d) = None.
Proof.
  intros Hs. rewrite setSeconds_shift. unfold Date.UTC. rewrite Hs.
  unfold Date.LocalTime.
  replace (t + Date.offset_at z t + d * 1000 - Date.offset_at z t)%Z
    with (t + d * 1000)%Z by lia.
  apply TimeClip_cases.
Qed.

(** X4: a grant that lasts no longer than the margin is never reused.  After
    a successful exchange whose [expires_in] is at most 60 seconds, the
    NinjaOne and HaloPSA clients find the token they have just cached
    invalid at that instant and at every later one, so every call exchanges
    again; the ConnectWise client does so for [expires_in <= 0].  The
    NinjaOne client computes the expiry on the local time of its host: this
    holds of it where the offset of the host is the same at the answer and
    [60 - expires_in] seconds before. *)
Theorem short_grant_is_never_reused nw (w w2 : World) resp data :
  token_valid (client w) (now w) = false ->
  ok resp = true -> json resp = Some data ->
  (forall cfg,
     token_endpoint nw (NinjaOneClient.token_request cfg) = Ok resp ->
     (expires_in data <= 60)%Z ->
     let w1 := snd (NinjaOneClient.ensureAuthenticated nw cfg w) in
     Date.steady (zone nw) (now w1) ((expires_in data - 60) * 1000) ->
     client w2 = client w1 -> (now w1 <= now w2)%Z ->
     sent (snd (NinjaOneClient.ensureAuthenticated nw cfg w2))
     = (sent w2 ++ [TokenExchange (NinjaOneClient.token_request cfg)])%list) /\
  (forall cfg,
     token_endpoint nw (HaloPSAClient.token_request cfg) = Ok resp ->
     (expires_in data <= 60)%Z ->
     let w1 := snd (HaloPSAClient.authenticate nw cfg w) in
     client w2 = client w1 -> (now w1 <= now w2)%Z ->
     sent (snd (HaloPSAClient.authenticate nw cfg w2))
     = (sent w2 ++ [TokenExchange (HaloPSAClient.token_request cfg)])%list) /\
  (forall cfg,
     token_endpoint nw (ConnectWiseRMMClient.token_request cfg) = Ok resp ->
     (expires_in data <= 0)%Z ->
     let w1 := snd (ConnectWiseRMMClient.authenticate nw cfg w) in
     client w2 = client w1 -> (now w1 <= now w2)%Z ->
     sent (snd (ConnectWiseRMMClient.authenticate nw cfg w2))
     = (sent w2 ++ [TokenExchange (ConnectWiseRMMClient.token_request cfg)])%list).
Proof.
  intros Hv Hok Hj.
  assert (Hstale : forall tok e t, (e <= t)%Z ->
            token_valid {| accessToken := Some tok; tokenExpiry := Some e |} t = false).
  { intros tok e t Ht. unfold token_valid; cbn.
    replace (t <? e)%Z with false by (symmetry; apply Z.ltb_ge; lia).
    apply andb_false_r. }
  assert (Hnone : forall tok t,
            token_valid {| accessToken := Some tok; tokenExpiry := None |} t = false).
  { reflexivity. }
  split; [|split]; intros cfg Hn HE w1; subst w1.
  - rewrite (NinjaOne_refresh_date nw cfg w resp data Hv Hn Hok Hj). cbv zeta.
    cbn [snd refreshed_to client now]. intros Hs Hc Ht.
    apply NinjaOne_one_exchange. rewrite Hc.
    destruct (setSeconds_steady_cases _ _ _ Hs) as [-> | ->];
      [apply Hstale; lia | apply Hnone].
  - rewrite (HaloPSA_refresh_date nw cfg w resp data Hv Hn Hok Hj).
    cbn [snd refreshed_to client now]. intros Hc Ht.
    apply HaloPSA_one_exchange. rewrite Hc.
    destruct (TimeClip_cases (now w + latency nw (HaloPSAClient.token_request cfg)
                              + (expires_in data - 60) * 1000)) as [-> | ->];
      [apply Hstale; lia | apply Hnone].
  - rewrite (ConnectWise_refresh_date nw cfg w resp data Hv Hn Hok Hj).
    cbn [snd refreshed_to client now]. intros Hc Ht.
    apply ConnectWise_one_exchange. rewrite Hc.
    destruct (TimeClip_cases (now w + latency nw (ConnectWiseRMMClient.token_request cfg)
                              + expires_in data * 1000)) as [-> | ->];
      [apply Hstale; lia | apply Hnone].
Qed.

Lemma short_grant_is_never_reused_witness :
  sent (snd (NinjaOneClient.ensureAuthenticated SampleNets.short_lived Sample.ninja
               (snd (NinjaOneClient.ensureAuthenticated SampleNets.short_lived
                       Sample.ninja (start_world 0)))))
  = [TokenExchange (NinjaOneClient.token_request Sample.ninja);
     TokenExchange (NinjaOneClient.token_request Sample.ninja)].
Proof.
  refine (proj1 (short_grant_is_never_reused SampleNets.short_lived (start_world 0)
                   (snd (NinjaOneClient.ensureAuthenticated SampleNets.short_lived
                           Sample.ninja (start_world 0)))
                   (Sample.answer (Some "application/json") "{}"
                      (Some SampleNets.short_grant))
                   SampleNets.short_grant eq_refl eq_refl eq_refl)
            Sample.ninja eq_refl _ _ eq_refl _).
  - cbn. lia.
  - reflexivity.
  - cbn. lia.
Defined.

(** Just after the clocks of the host have gone forward, a grant that has
    already run out is cached by the NinjaOne client for 59 minutes: the
    local time 60 seconds earlier lies in the hour that was skipped.  The
    next call, a second later, reuses the token. *)
Example NinjaOne_short_grant_after_clocks_go_forward :
  let nw := SampleNets.granting 0 (SampleNets.clocks_forward 10000000) in
  let w1 := snd (NinjaOneClient.ensureAuthenticated nw Sample.ninja (start_world 10000000)) in
  tokenExpiry (client w1) = Some (10000000 + 59 * 60 * 1000)%Z /\
  NinjaOneClient.ensureAuthenticated nw Sample.ninja (at_time 10001000 w1)
  = (Ok tt, at_time 10001000 w1).
Proof. vm_compute. repeat split. Qed.

(** ** Letter case *)

Lemma lower_upper_char (c : ascii) : lower_char (upper_char c) = lower_char c.
Proof. destruct c as [[] [] [] [] [] [] [] []]; reflexivity. Qed.

Lemma lower_lower_char (c : ascii) : lower_char (lower_char c) = lower_char c.
Proof. destruct c as [[] [] [] [] [] [] [] []]; reflexivity. Qed.

Lemma toLowerCase_toUpperCase (s : string) :
  toLowerCase (toUpperCase s) = toLowerCase s.
Proof. induction s as [|c s IH]; cbn; [reflexivity|]. now rewrite lower_upper_char, IH. Qed.

Lemma toLowerCase_idempotent (s : string) :
  toLowerCase (toLowerCase s) = toLowerCase s.
Proof. induction s as [|c s IH]; cbn; [reflexivity|]. now rewrite lower_lower_char, IH. Qed.

Lemma toLowerCase_app (a b : string) :
  toLowerCase (a ++ b) = toLowerCase a ++ toLowerCase b.
Proof. induction a as [|c a IH]; cbn; [reflexivity|]. now rewrite IH. Qed.

Lemma toUpperCase_empty (s : string) : (toUpperCase s =? "") = (s =? "").
Proof. destruct s; reflexivity. Qed.

Lemma fold_left_ext {A B : Type} (f g : A -> B -> A) (l : list B) (a : A) :
  (forall x y, f x y = g x y) -> fold_left f l a = fold_left g l a.
Proof.
  intros H. revert a; induction l as [|y l IH]; intros a; cbn; [reflexivity|].
  now rewrite H, IH.
Qed.

(** X5: matching ignores the letter case of ASCII text the caller types.
    For a text made of ASCII characters only: used as a path pattern, a
    search query or a schema-name pattern, the text written in upper case
    selects what the text itself selects; a path written in upper case is
    matched by the patterns that match the path itself, and the HaloPSA
    categorizer gives it the category of the path itself.  The NinjaOne
    categorizer compares case-sensitively: an upper-case "/DEVICE" is not
    its "/device". *)
Theorem matching_ignores_letter_case (text : string) :
  ascii_only text = true ->
  (forall path,
     path_matches (toUpperCase text) path = path_matches text path) /\
  (forall pathPattern,
     path_matches pathPattern (toUpperCase text) = path_matches pathPattern text) /\
  (forall wd doc summaryOnly includeSchemas K includeExamples,
     field (EndpointDetails.getApiEndpointDetails wd doc (toUpperCase text)
              summaryOnly includeSchemas K includeExamples) "matchingPaths"
     = field (EndpointDetails.getApiEndpointDetails wd doc text
                summaryOnly includeSchemas K includeExamples) "matchingPaths") /\
  (forall schema,
     ConnectWiseCatalog.searchEndpoints schema (toUpperCase text)
     = ConnectWiseCatalog.searchEndpoints schema text) /\
  (forall pathEntries acc,
     HaloPSACatalog.search_paths (toUpperCase text) pathEntries acc
     = HaloPSACatalog.search_paths text pathEntries acc) /\
  (forall limit skip all,
     HaloPSASchemas.scan_all (Some (toUpperCase text)) limit skip all
     = HaloPSASchemas.scan_all (Some text) limit skip all) /\
  HaloPSA.categorizeApiPath (toUpperCase text) = HaloPSA.categorizeApiPath text /\
  NinjaOne.categorizeApiPath "/v2/DEVICE/7" = "Other" /\
  NinjaOne.categorizeApiPath "/v2/device/7" = "Device Management".
Proof.
  intros _.
  assert (Hm : forall p path,
             path_matches (toUpperCase p) path = path_matches p path).
  { intros. unfold path_matches. now rewrite toLowerCase_toUpperCase. }
  repeat split.
  - apply Hm.
  - intros. unfold path_matches. now rewrite toLowerCase_toUpperCase.
  - intros. unfold EndpointDetails.getApiEndpointDetails.
    assert (Hscan : forall l acc n,
              EndpointDetails.scan wd summaryOnly includeSchemas includeExamples
                (toUpperCase text) K l acc n
              = EndpointDetails.scan wd summaryOnly includeSchemas includeExamples
                  text K l acc n).
    { induction l as [|[p o] l IH]; intros acc n; cbn; [reflexivity|].
      now rewrite Hm, !IH. }
    rewrite Hscan.
    destruct (EndpointDetails.scan _ _ _ _ _ _ _ _ _) as [shown n].
    destruct (includeSchemas && negb summaryOnly && (0 <? n)%Z); reflexivity.
  - intros [doc|]; cbn; [|reflexivity].
    now rewrite toLowerCase_toUpperCase.
  - intros pathEntries.
    assert (Hmeth : forall path ops acc,
              HaloPSACatalog.search_methods (toUpperCase text) path ops acc
              = HaloPSACatalog.search_methods text path ops acc).
    { induction ops as [|[m o] ops IH]; intros acc; cbn; [reflexivity|].
      destruct (HaloPSACatalog.searchableText path o); [|reflexivity].
      now rewrite toLowerCase_toUpperCase, IH. }
    induction pathEntries as [|[p o] l IH]; intros acc; cbn; [reflexivity|].
    rewrite Hmeth.
    destruct (HaloPSACatalog.search_methods text p _ acc); [apply IH | reflexivity].
  - intros. unfold HaloPSASchemas.scan_all. apply fold_left_ext.
    intros st [name obj]. unfold HaloPSASchemas.visit, HaloPSASchemas.filtered_out.
    now rewrite toLowerCase_toUpperCase, toUpperCase_empty.
  - unfold HaloPSA.categorizeApiPath.
    now rewrite toLowerCase_toUpperCase.
Qed.

Lemma matching_ignores_letter_case_witness :
  path_matches "DEVICE" "/v2/Device/7" = path_matches "Device" "/v2/Device/7".
Proof.
  exact (proj1 (matching_ignores_letter_case "Device" eq_refl) "/v2/Device/7").
Defined.

(** ** Queries and their tokens *)

Lemma is_space_lower_char (c : ascii) : is_space (lower_char c) = is_space c.
Proof. destruct c as [[] [] [] [] [] [] [] []]; reflexivity. Qed.

Lemma blank_toLowerCase (s : string) : blank (toLowerCase s) = blank s.
Proof. induction s as [|c s IH]; cbn; [reflexivity|]. now rewrite is_space_lower_char, IH. Qed.

(** The pieces of a blank text are empty. *)
Lemma splitWs_go_blank (s cur : string) (in_sep : bool) (t : string) :
  blank s = true -> In t (splitWs_go s cur in_sep) -> t = cur \/ t = "".
Proof.
  revert cur in_sep; induction s as [|c s IH]; intros cur in_sep Hb Hin; cbn in *.
  - destruct Hin as [<-|[]]. now left.
  - apply andb_prop in Hb as [Hc Hs]. rewrite Hc in Hin.
    destruct in_sep.
    + now apply (IH cur true).
    + destruct Hin as [<-|Hin]; [now left|].
      right. now destruct (IH "" true Hs Hin).
Qed.

Lemma str_app_nil_r (s : string) : s ++ "" = s.
Proof. induction s as [|c s IH]; cbn; [reflexivity | now rewrite IH]. Qed.

Lemma str_app_assoc (a b c : string) : (a ++ b) ++ c = a ++ b ++ c.
Proof. induction a as [|x a IH]; cbn; [reflexivity | now rewrite IH]. Qed.

Lemma occurs_in_refl (s : string) : occurs_in s s.
Proof. exists "", "". cbn. now rewrite str_app_nil_r. Qed.

Lemma occurs_in_empty (s : string) : occurs_in "" s.
Proof. now exists "", s. Qed.

Lemma occurs_in_trans (a b c : string) : occurs_in a b -> occurs_in b c -> occurs_in a c.
Proof.
  intros [p1 [q1 ->]] [p2 [q2 ->]]. exists (p2 ++ p1), (q1 ++ q2).
  now rewrite !str_app_assoc.
Qed.

Lemma occurs_in_app_l (t a b : string) : occurs_in t a -> occurs_in t (a ++ b).
Proof. intros [p [q ->]]. exists p, (q ++ b). now rewrite !str_app_assoc. Qed.

Lemma occurs_in_app_r (t a b : string) : occurs_in t b -> occurs_in t (a ++ b).
Proof. intros [p [q ->]]. exists (a ++ p), q. now rewrite !str_app_assoc. Qed.

(** Every piece [split] returns is a piece of the text that was split. *)
Lemma splitWs_go_occurs (s cur : string) (in_sep : bool) (t : string) :
  (in_sep = true -> cur = "") ->
  In t (splitWs_go s cur in_sep) -> occurs_in t (cur ++ s).
Proof.
  revert cur in_sep; induction s as [|c s IH]; intros cur in_sep Hsep Hin; cbn in Hin.
  - destruct Hin as [<-|[]]. rewrite str_app_nil_r. apply occurs_in_refl.
  - destruct (is_space c).
    + destruct in_sep.
      * rewrite (Hsep eq_refl) in *. cbn.
        apply (occurs_in_app_r t (String c "") s), (IH "" true); auto.
      * destruct Hin as [<-|Hin].
        -- apply occurs_in_app_l, occurs_in_refl.
        -- apply occurs_in_app_r, (occurs_in_app_r t (String c "") s), (IH "" true); auto.
    + replace (cur ++ String c s) with ((cur ++ String c "") ++ s)
        by now rewrite str_app_assoc.
      apply (IH _ false); [discriminate | exact Hin].
Qed.

Lemma spaceless_app (a b : string) :
  spaceless (a ++ b) = spaceless a && spaceless b.
Proof. induction a as [|c a IH]; cbn; [reflexivity|]. now rewrite IH, andb_assoc. Qed.

(** No piece [split] returns holds white space. *)
Lemma splitWs_go_spaceless (s cur : string) (in_sep : bool) (t : string) :
  spaceless cur = true -> In t (splitWs_go s cur in_sep) -> spaceless t = true.
Proof.
  revert cur in_sep; induction s as [|c s IH]; intros cur in_sep Hcur Hin; cbn in Hin.
  - now destruct Hin as [<-|[]].
  - destruct (is_space c) eqn:Hc.
    + destruct in_sep; [now apply (IH cur true)|].
      destruct Hin as [<-|Hin]; [exact Hcur | now apply (IH "" true)].
    + apply (IH (cur ++ String c "") false); [|exact Hin].
      rewrite spaceless_app, Hcur. cbn. now rewrite Hc.
Qed.

(** A text without white space that begins [a ++ " " ++ b] begins [a]. *)
Lemma spaceless_prefix (t a b post : string) (sp : ascii) :
  is_space sp = true -> spaceless t = true ->
  a ++ String sp b = t ++ post -> exists post', a = t ++ post'.
Proof.
  intros Hsp. revert a; induction t as [|y t IH]; intros a Ht Heq.
  - now exists a.
  - cbn in Ht. apply andb_prop in Ht as [Hy Ht].
    destruct a as [|x a]; cbn in Heq.
    + injection Heq as <- _. now rewrite Hsp in Hy.
    + injection Heq as <- Heq. destruct (IH a Ht Heq) as [post' ->].
      now exists post'.
Qed.

(** A non-empty text without white space that occurs in [a ++ " " ++ b]
    occurs in [a] or in [b]. *)
Lemma occurs_in_separated (t a b : string) (sp : ascii) :
  is_space sp = true -> spaceless t = true -> t <> "" ->
  occurs_in t (a ++ String sp b) -> occurs_in t a \/ occurs_in t b.
Proof.
  intros Hsp Ht Hne [pre [post Heq]].
  revert a Heq; induction pre as [|p pre IH]; intros a Heq.
  - cbn in Heq. left. destruct (spaceless_prefix t a b post sp Hsp Ht Heq) as [post' ->].
    now exists "", post'.
  - destruct a as [|x a]; cbn in Heq.
    + injection Heq as _ Heq. right. now exists pre, post.
    + injection Heq as _ Heq. destruct (IH a Heq) as [H|H]; [left|now right].
      apply (occurs_in_app_r t (String x "") a), H.
Qed.

Lemma occurs_in_join (t : string) (l : list string) :
  spaceless t = true -> t <> "" ->
  occurs_in t (join " " l) -> exists f, In f l /\ occurs_in t f.
Proof.
  intros Ht Hne. induction l as [|x l IH]; intros Hocc.
  - cbn in Hocc. destruct Hocc as [pre [post Heq]].
    destruct pre; [|discriminate]. destruct t; [now destruct Hne | discriminate].
  - destruct l as [|y l].
    + exists x. split; [now left | exact Hocc].
    + change (join " " (x :: y :: l)) with (x ++ String " "%char (join " " (y :: l)))
        in Hocc.
      apply occurs_in_separated in Hocc as [H|H]; try assumption; try reflexivity.
      * exists x. split; [now left | exact H].
      * destruct (IH H) as [f [Hin Hf]]. exists f. split; [now right | exact Hf].
Qed.

Lemma join_occurs (sep f : string) (l : list string) :
  In f l -> occurs_in f (join sep l).
Proof.
  induction l as [|x l IH]; intros Hin; [destruct Hin|].
  destruct l as [|y l].
  - destruct Hin as [<-|[]]. apply occurs_in_refl.
  - change (join sep (x :: y :: l)) with (x ++ sep ++ join sep (y :: l)).
    destruct Hin as [<-|Hin].
    + apply occurs_in_app_l, occurs_in_refl.
    + apply occurs_in_app_r, occurs_in_app_r, IH, Hin.
Qed.

Lemma toLowerCase_join (l : list string) :
  toLowerCase (join " " l) = join " " (map toLowerCase l).
Proof.
  induction l as [|x l IH]; [reflexivity|].
  destruct l as [|y l]; [reflexivity|].
  change (join " " (x :: y :: l)) with (x ++ " " ++ join " " (y :: l)).
  rewrite !toLowerCase_app, IH. reflexivity.
Qed.

Lemma filter_all {A : Type} (f : A -> bool) (l : list A) :
  (forall x, In x l -> f x = true) -> filter f l = l.
Proof.
  induction l as [|x l IH]; intros H; cbn; [reflexivity|].
  rewrite (H x (or_introl eq_refl)), IH; [reflexivity|].
  intros y Hy. apply H. now right.
Qed.

Lemma splitWs_blank (query term : string) :
  blank query = true -> In term (splitWs (toLowerCase query)) -> term = "".
Proof.
  intros Hb Hin. rewrite <- blank_toLowerCase in Hb.
  now destruct (splitWs_go_blank _ _ _ _ Hb Hin).
Qed.

(** X6: a query that is empty or made of white space only narrows nothing
    in the ConnectWise search: every piece of it is the empty text, which
    every operation holds, so [searchEndpoints] returns one line for every
    operation of the description, in document order. *)
Theorem blank_query_finds_every_operation (doc : SchemaDocument) (query : string) :
  blank query = true ->
  (forall c, In c (connectwise_candidates (paths doc)) -> searchable c) ->
  ConnectWiseCatalog.searchEndpoints (Some doc) query
  = Ok (map connectwise_line (connectwise_candidates (paths doc))).
Proof.
  intros Hb Hok. unfold ConnectWiseCatalog.searchEndpoints.
  rewrite connectwise_paths_spec.
  - cbn [app]. rewrite filter_all; [reflexivity|].
    intros [[path m] op] Hc.
    pose proof (connectwise_text_defined _ (Hok _ Hc)) as [text Ht].
    cbn. rewrite Ht. apply every_term_spec. intros term Hterm.
    rewrite (splitWs_blank query term Hb Hterm). apply occurs_in_empty.
  - intros c Hc. apply connectwise_text_defined, Hok, Hc.
Qed.

Lemma blank_query_finds_every_operation_witness :
  ConnectWiseCatalog.searchEndpoints (Some SampleDoc.doc) "  "
  = Ok (map connectwise_line (connectwise_candidates (paths SampleDoc.doc))).
Proof.
  apply (blank_query_finds_every_operation SampleDoc.doc "  " eq_refl).
  intros c Hc. cbn in Hc.
  repeat (destruct Hc as [<-|Hc]; [eexists; reflexivity|]).
  destruct Hc.
Defined.

Lemma splitWs_terms (query term : string) :
  In term (splitWs query) -> spaceless term = true /\ occurs_in term query.
Proof.
  intros Hin. split.
  - now apply (splitWs_go_spaceless query "" false).
  - apply (splitWs_go_occurs query "" false term); [discriminate | exact Hin].
Qed.

(** X7: the HaloPSA test is the stricter of the two searches.  A text
    that holds the lowercased query as one piece holds every piece the
    ConnectWise search splits it into; and an operation the HaloPSA search
    selects for a query is selected by the ConnectWise search for the same
    query: no piece of the query holds white space, so each lies within
    one of the fields the HaloPSA text joins with spaces, and the
    ConnectWise text joins the same fields and two more. *)
Theorem phrase_match_implies_token_match (query : string) :
  (forall text,
     includes text (toLowerCase query) = true ->
     ConnectWiseCatalog.every_term (splitWs (toLowerCase query)) text = true) /\
  (forall path method op,
     halopsa_selected query (path, method, op) = true ->
     connectwise_selected (splitWs (toLowerCase query)) (path, method, op) = true).
Proof.
  split.
  - intros text Hinc. apply every_term_spec. intros term Hterm.
    apply (occurs_in_trans term (toLowerCase query) text).
    + now apply splitWs_terms.
    + now apply includes_spec.
  - intros path method op. cbn.
    unfold HaloPSACatalog.searchableText, ConnectWiseCatalog.searchableText.
    destruct (spread (or_else (optProp op "tags") (JArr []))) as [tags|e];
      [|discriminate].
    unfold joinVals. rewrite !toLowerCase_join.
    set (str := fun x : JsVal => match x with
                                 | JUndefined | JNull => ""
                                 | _ => toStr x
                                 end).
    intros Hinc. apply every_term_spec. intros term Hterm.
    destruct (splitWs_terms _ _ Hterm) as [Hsp Hocc].
    destruct (string_dec term "") as [->|Hne]; [apply occurs_in_empty|].
    apply includes_spec in Hinc.
    destruct (occurs_in_join term _ Hsp Hne (occurs_in_trans _ _ _ Hocc Hinc))
      as [f [Hf Hin]].
    apply (occurs_in_trans term f); [exact Hin|]. apply join_occurs.
    rewrite !map_app in *. cbn [map] in *.
    apply in_app_or in Hf as [Hf|Hf]; apply in_or_app; [left | now right].
    cbn in Hf. cbn. intuition.
Qed.

(** ** Text quoted into the SQL of the reporting tools *)

Lemma lower_char_quote (c : ascii) :
  Ascii.eqb (lower_char c) "'"%char = Ascii.eqb c "'"%char.
Proof. destruct c as [[] [] [] [] [] [] [] []]; reflexivity. Qed.

Lemma read_literal_escaped (s t : string) :
  read_literal (escapeQuotes s ++ t) = option_map (append s) (read_literal t).
Proof.
  induction s as [|c s IH]; cbn.
  - now destruct (read_literal t).
  - destruct (Ascii.eqb_spec c "'"%char) as [->|Hc]; cbn.
    + rewrite IH. now destruct (read_literal t).
    + apply Ascii.eqb_neq in Hc. rewrite Hc, IH. now destruct (read_literal t).
Qed.

Lemma read_literal_lower_escaped (s t : string) :
  read_literal (toLowerCase (escapeQuotes s) ++ t)
  = option_map (append (toLowerCase s)) (read_literal t).
Proof.
  induction s as [|c s IH]; cbn.
  - now destruct (read_literal t).
  - destruct (Ascii.eqb_spec c "'"%char) as [->|Hc]; cbn.
    + rewrite IH. now destruct (read_literal t).
    + apply Ascii.eqb_neq in Hc. rewrite lower_char_quote, Hc, IH.
      now destruct (read_literal t).
Qed.

(** X8: text the reporting tools of the two HaloPSA servers put between
    quotes stays one SQL literal.  Whatever characters a table filter, a
    table name, a column filter or a condition value holds, single quotes
    included, the text between the quotes of the generated SQL reads back,
    by the SQL rule that two single quotes stand for one and a lone one ends
    the literal, as the text given (lowercased, and between [%] signs for a
    filter, where the tool does so): no quote in the value ends the literal
    early. *)
Theorem quoted_text_is_one_literal (s : string) :
  s <> "" ->
  (exists lit,
     HaloPSAReporting.list_tables_sql (JStr s)
     = Ok ("SELECT Name FROM sys.tables WHERE LOWER(Name) LIKE '" ++ lit ++ "'") /\
     read_literal lit = Some ("%" ++ toLowerCase s ++ "%")) /\
  (exists lit,
     HaloPSAReporting.table_info_sql (JStr s)
     = Ok (HaloPSAReporting.columns_select ++ nl
           ++ "        WHERE LOWER(Table_name) = '" ++ lit ++ "'") /\
     read_literal lit = Some (toLowerCase s)) /\
  (exists lit1 lit2,
     HaloPSAReporting.list_columns_sql (JStr s) (JStr s)
     = Ok (HaloPSAReporting.columns_select ++ " WHERE LOWER(Table_name) = '" ++ lit1
           ++ "' AND LOWER(Column_name) LIKE '" ++ lit2 ++ "'") /\
     read_literal lit1 = Some (toLowerCase s) /\
     read_literal lit2 = Some ("%" ++ toLowerCase s ++ "%")) /\
  (forall key, exists lit,
     HaloPSAReporting.condition (key, JStr s) = key ++ " = '" ++ lit ++ "'" /\
     HaloPSAServer.whereClause (key, JStr s) = key ++ " = '" ++ lit ++ "'" /\
     read_literal lit = Some s) /\
  (exists lit1 lit2,
     HaloPSAServer.list_columns_sql (JStr s) (JStr s)
     = Ok (HaloPSAServer.list_columns_select ++ " WHERE LOWER(c.TABLE_NAME) = '" ++ lit1
           ++ "' AND LOWER(c.COLUMN_NAME) LIKE '" ++ lit2
           ++ "' ORDER BY c.TABLE_NAME, c.ORDINAL_POSITION") /\
     read_literal lit1 = Some (toLowerCase s) /\
     read_literal lit2 = Some ("%" ++ toLowerCase s ++ "%")) /\
  (exists lit,
     HaloPSAServer.table_info_sql (JStr s)
     = Ok (HaloPSAServer.table_info_select ++ lit ++ HaloPSAServer.table_info_order) /\
     read_literal lit = Some (toLowerCase s)).
Proof.
  intros Hne.
  assert (Htruthy : truthy (JStr s) = true) by (destruct s; [now destruct Hne | reflexivity]).
  assert (Hplain : read_literal (toLowerCase (escapeQuotes s)) = Some (toLowerCase s)).
  { rewrite <- (str_app_nil_r (toLowerCase (escapeQuotes s))).
    rewrite read_literal_lower_escaped. cbn. now rewrite str_app_nil_r. }
  assert (Hlike : read_literal ("%" ++ toLowerCase (escapeQuotes s) ++ "%")
                  = Some ("%" ++ toLowerCase s ++ "%")).
  { cbn. now rewrite read_literal_lower_escaped. }
  repeat split.
  - exists ("%" ++ toLowerCase (escapeQuotes s) ++ "%"). split; [|exact Hlike].
    unfold HaloPSAReporting.list_tables_sql. rewrite Htruthy. cbn.
    now rewrite !str_app_assoc.
  - exists (toLowerCase (escapeQuotes s)). split; [|exact Hplain].
    unfold HaloPSAReporting.table_info_sql. rewrite Htruthy. reflexivity.
  - exists (toLowerCase (escapeQuotes s)), ("%" ++ toLowerCase (escapeQuotes s) ++ "%").
    split; [|split; [exact Hplain | exact Hlike]].
    unfold HaloPSAReporting.list_columns_sql. rewrite Htruthy.
    cbn [HaloPSAReporting.replaceQuotes app List.length Nat.ltb Nat.leb join].
    f_equal. f_equal. now rewrite !str_app_assoc.
  - intros key. exists (escapeQuotes s). split; [reflexivity|]. split; [reflexivity|].
    rewrite <- (str_app_nil_r (escapeQuotes s)), read_literal_escaped.
    cbn. now rewrite str_app_nil_r.
  - exists (toLowerCase (escapeQuotes s)), ("%" ++ toLowerCase (escapeQuotes s) ++ "%").
    split; [|split; [exact Hplain | exact Hlike]].
    unfold HaloPSAServer.list_columns_sql. rewrite Htruthy.
    cbn [negb HaloPSAReporting.replaceQuotes app List.length Nat.ltb Nat.leb join].
    f_equal. f_equal. now rewrite !str_app_assoc.
  - exists (toLowerCase (escapeQuotes s)). split; [|exact Hplain].
    unfold HaloPSAServer.table_info_sql. now rewrite Htruthy.
Qed.

Lemma quoted_text_is_one_literal_witness :
  exists lit,
    HaloPSAReporting.list_tables_sql (JStr "O'Brien")
    = Ok ("SELECT Name FROM sys.tables WHERE LOWER(Name) LIKE '" ++ lit ++ "'") /\
    read_literal lit = Some "%o'brien%".
Proof.
  refine (proj1 (quoted_text_is_one_literal "O'Brien" _)). discriminate.
Defined.

(** ** Pages *)


Lemma firstn_min_length {A : Type} (n : nat) (l : list A) :
  firstn (Nat.min n (List.length l)) l = firstn n l.
Proof.
  revert l; induction n as [|n IH]; intros l; [reflexivity|].
  destruct l as [|x l]; cbn; [reflexivity | now rewrite IH].
Qed.


Lemma slice_page {A : Type} (l : list A) (skip limit : Z) :
  (0 <= skip)%Z -> (0 <= limit)%Z ->
  slice l skip (skip + limit) = firstn (Z.to_nat limit) (skipn (Z.to_nat skip) l).
Proof.
  intros Hs Hl. unfold slice.
  destruct (Z.ltb_spec (skip + limit) 0) as [H|_]; [lia|].
  destruct (Z.ltb_spec skip 0) as [H|_]; [lia|].
  destruct (Z_lt_le_dec skip (Z.of_nat (List.length l))) as [Hin|Hout].
  - rewrite (Z.min_l skip) by lia.
    rewrite <- (firstn_min_length (Z.to_nat limit)). f_equal.
    rewrite length_skipn. lia.
  - rewrite !skipn_all2 by lia. now rewrite !firstn_nil.
Qed.







(** ** Endpoint details: what the flags of the result say *)

(** X11: in the result of [getApiEndpointDetails] of the NinjaOne and
    HaloPSA clients, [limited] is true exactly when at least [min(K, 50)]
    paths match; it is therefore also true when exactly that many match
    and none was left out.  The result has [components] exactly when
    schemas are asked for, summary mode is off and at least one path is
    shown, and [components.schemas] then holds the first 20 component
    schemas of the description, whatever the shown paths refer to. *)
Theorem details_limited_flag_and_components (withDescription : bool)
    (doc : SchemaDocument) (pathPattern : string) (summaryOnly includeSchemas : bool)
    (K : Z) (includeExamples : bool) :
  NoDup (map fst (paths doc)) ->
  let r := EndpointDetails.getApiEndpointDetails withDescription doc pathPattern
             summaryOnly includeSchemas K includeExamples in
  let total := Z.of_nat (List.length (matching_paths doc pathPattern)) in
  field r "limited" = Some (JBool (Z.min K 50 <=? total)%Z) /\
  field r "components"
  = if includeSchemas && negb summaryOnly && (0 <? Z.min K 50)%Z && (0 <? total)%Z
    then Some (JObj [("schemas",
                      match componentSchemas doc with
                      | Some all => JObj (firstn 20 all)
                      | None => JUndefined
                      end)])
    else None.
Proof.
  intros Hnd r total. subst r. unfold EndpointDetails.getApiEndpointDetails.
  pose proof (details_scan_spec withDescription summaryOnly includeSchemas
                includeExamples pathPattern K (paths doc) [] Hnd) as Hscan.
  cbn [List.length app Z.of_nat Nat.add] in Hscan.
  rewrite Nat.sub_0_r in Hscan. rewrite Hscan by (intros k _ []).
  unfold EndpointDetails.cap, EndpointDetails.matching.
  fold (matching_paths doc pathPattern).
  rewrite length_firstn. fold total.
  assert (Hcount : Z.of_nat (Nat.min (Z.to_nat (Z.min K 50))
                               (List.length (matching_paths doc pathPattern)))
                   = Z.max 0 (Z.min (Z.min K 50) total)) by (subst total; lia).
  rewrite Hcount.
  assert (Hlim : (Z.max 0 (Z.min (Z.min K 50) total) >=? Z.min K 50)%Z
                 = (Z.min K 50 <=? total)%Z).
  { rewrite Z.geb_leb.
    destruct (Z.leb_spec (Z.min K 50) total); [apply Z.leb_le | apply Z.leb_gt]; lia. }
  assert (Hpos : (0 <? Z.max 0 (Z.min (Z.min K 50) total))%Z
                 = ((0 <? Z.min K 50) && (0 <? total))%Z).
  { destruct (Z.ltb_spec 0 (Z.min K 50)), (Z.ltb_spec 0 total); cbn;
      [apply Z.ltb_lt | apply Z.ltb_ge ..]; lia. }
  rewrite Hlim, Hpos.
  destruct includeSchemas, summaryOnly, (0 <? Z.min K 50)%Z, (0 <? total)%Z;
    split; reflexivity.
Qed.

Lemma details_limited_flag_and_components_witness :
  field (EndpointDetails.getApiEndpointDetails false SampleDoc.doc "device"
           false true 5 false) "limited"
  = Some (JBool true) /\
  List.length (matching_paths SampleDoc.doc "device") = 5%nat.
Proof.
  assert (Hnd : NoDup (map fst (paths SampleDoc.doc))).
  { repeat constructor; cbn; intuition discriminate. }
  split; [|reflexivity].
  exact (proj1 (details_limited_flag_and_components false SampleDoc.doc "device"
                  false true 5 false Hnd)).
Defined.

(** ** The ConnectWise endpoint details, in document order *)

Lemma collect_methods_prefix (iS iE sO : JsVal) (limit : Number) (k : nat)
    (path : string) (ops : list (string * JsVal)) (acc : list JsVal) :
  allowance limit = Some k ->
  (List.length acc < k)%nat ->
  ConnectWiseCatalog.collect_methods iS iE sO limit path ops acc
  = firstn k
      (acc ++ map (fun me => ConnectWiseCatalog.endpoint iS iE sO path (fst me) (snd me))
                  (filter (fun me => is_operation (snd me)) ops))%list.
Proof.
  intros Hk.
  revert acc; induction ops as [|[method operation] ops IH]; intros acc Hacc;
    cbn [ConnectWiseCatalog.collect_methods filter snd fst].
  - cbn. rewrite app_nil_r. symmetry. apply firstn_all2. lia.
  - unfold is_operation at 1.
    destruct (typeof_object operation), (is_null operation); cbn [negb orb andb];
      try (now apply IH).
    cbn [map fst snd].
    unfold ConnectWiseCatalog.reached. rewrite count_ge_allowance, Hk.
    rewrite length_app. cbn [List.length].
    destruct (Nat.leb_spec k (List.length acc + 1)) as [Hfull|Hroom].
    + rewrite firstn_app, (firstn_all2 acc) by lia.
      replace (k - List.length acc)%nat with 1%nat by lia.
      reflexivity.
    + rewrite IH by (rewrite length_app; cbn; lia).
      now rewrite <- app_assoc.
Qed.

Lemma collect_paths_prefix (iS iE sO : JsVal) (limit : Number) (k : nat)
    (test : string -> bool) (ps : list (string * JsVal)) (acc : list JsVal) :
  allowance limit = Some k ->
  (List.length acc < k)%nat ->
  ConnectWiseCatalog.collect_paths iS iE sO limit test ps acc
  = firstn k (acc ++ connectwise_endpoints iS iE sO test ps)%list.
Proof.
  intros Hk. unfold connectwise_endpoints.
  revert acc; induction ps as [|[path item] ps IH]; intros acc Hacc;
    cbn [ConnectWiseCatalog.collect_paths filter fst snd].
  - cbn. rewrite app_nil_r. symmetry. apply firstn_all2. lia.
  - destruct (test path); cbn [negb]; [|now apply IH].
    cbn [flat_map fst snd].
    rewrite (collect_methods_prefix iS iE sO limit k) by assumption.
    set (here := map _ (filter _ (entries item))).
    set (later := flat_map _ _).
    unfold ConnectWiseCatalog.reached. rewrite count_ge_allowance, Hk.
    rewrite length_firstn, length_app.
    destruct (Nat.leb_spec k (Nat.min k (List.length acc + List.length here)))
      as [Hfull|Hroom].
    + rewrite (app_assoc acc here later), (firstn_app _ (acc ++ here)%list later).
      rewrite length_app.
      replace (k - (List.length acc + List.length here))%nat with 0%nat by lia.
      cbn [firstn]. now rewrite app_nil_r.
    + rewrite (firstn_all2 (acc ++ here)%list) by (rewrite length_app; lia).
      rewrite IH by (rewrite length_app; lia).
      now rewrite <- app_assoc.
Qed.

Lemma collect_methods_unbounded (iS iE sO : JsVal) (limit : Number) (path : string)
    (ops : list (string * JsVal)) (acc : list JsVal) :
  allowance limit = None ->
  ConnectWiseCatalog.collect_methods iS iE sO limit path ops acc
  = (acc ++ map (fun me => ConnectWiseCatalog.endpoint iS iE sO path (fst me) (snd me))
                (filter (fun me => is_operation (snd me)) ops))%list.
Proof.
  intros Hk.
  revert acc; induction ops as [|[method operation] ops IH]; intros acc;
    cbn [ConnectWiseCatalog.collect_methods filter snd fst].
  - cbn. now rewrite app_nil_r.
  - unfold is_operation at 1.
    destruct (typeof_object operation), (is_null operation); cbn [negb orb andb];
      try (now apply IH).
    cbn [map fst snd]. unfold ConnectWiseCatalog.reached.
    rewrite count_ge_allowance, Hk.
    rewrite IH. now rewrite <- app_assoc.
Qed.

Lemma collect_paths_unbounded (iS iE sO : JsVal) (limit : Number)
    (test : string -> bool) (ps : list (string * JsVal)) (acc : list JsVal) :
  allowance limit = None ->
  ConnectWiseCatalog.collect_paths iS iE sO limit test ps acc
  = (acc ++ connectwise_endpoints iS iE sO test ps)%list.
Proof.
  intros Hk. unfold connectwise_endpoints.
  revert acc; induction ps as [|[path item] ps IH]; intros acc;
    cbn [ConnectWiseCatalog.collect_paths filter fst snd].
  - cbn. now rewrite app_nil_r.
  - destruct (test path); cbn [negb]; [|now apply IH].
    cbn [flat_map fst snd]. rewrite collect_methods_unbounded by exact Hk.
    unfold ConnectWiseCatalog.reached. rewrite count_ge_allowance, Hk.
    rewrite IH. now rewrite <- app_assoc.
Qed.

(** X12: [getEndpointDetails] of the ConnectWise client walks the
    description in document order.  With a limit that lets [k] endpoints
    through, [k] at least 1 (the limit rounded up, for a number above 0), it
    returns the first [k] endpoints of the paths the pattern accepts (fewer
    when there are fewer); the first 10 when no limit is given; and every
    endpoint of every accepted path when the limit is one that no count
    reaches, NaN or the positive infinity.  [matchCount] is the number of
    endpoints returned.  When the pattern is not a regular expression the
    error of [new RegExp] is thrown, and before that "Schema not loaded"
    when there is no schema. *)
Theorem connectwise_details_in_document_order (doc : SchemaDocument)
    (pattern_test : string -> bool) (options : ConnectWiseCatalog.Options) :
  let all :=
    connectwise_endpoints
      (ConnectWiseCatalog.with_default (ConnectWiseCatalog.includeSchemas options)
         (JBool true))
      (ConnectWiseCatalog.with_default (ConnectWiseCatalog.includeExamples options)
         (JBool false))
      (ConnectWiseCatalog.with_default (ConnectWiseCatalog.summaryOnly options)
         (JBool false))
      pattern_test (paths doc) in
  let report := fun shown : list JsVal =>
    Ok (JObj [("matchCount", JNum (Z.of_nat (List.length shown)));
              ("endpoints", JArr shown)]) in
  (forall limit k,
     ConnectWiseCatalog.maxEndpoints options = Some limit ->
     allowance limit = Some k -> (1 <= k)%nat ->
     ConnectWiseCatalog.getEndpointDetails (Some doc) (Ok pattern_test) options
     = report (firstn k all)) /\
  (ConnectWiseCatalog.maxEndpoints options = None ->
     ConnectWiseCatalog.getEndpointDetails (Some doc) (Ok pattern_test) options
     = report (firstn 10 all)) /\
  (forall limit,
     ConnectWiseCatalog.maxEndpoints options = Some limit ->
     allowance limit = None ->
     ConnectWiseCatalog.getEndpointDetails (Some doc) (Ok pattern_test) options
     = report all) /\
  (forall e,
     ConnectWiseCatalog.getEndpointDetails (Some doc) (Throw e) options = Throw e) /\
  (forall pattern,
     ConnectWiseCatalog.getEndpointDetails None pattern options
     = Throw (Error "Schema not loaded")).
Proof.
  intros all report. subst all report.
  split; [|split; [|split; [|split]]].
  - intros limit k Hlimit Hk Hpos. unfold ConnectWiseCatalog.getEndpointDetails.
    rewrite Hlimit. now rewrite (collect_paths_prefix _ _ _ limit k) by (assumption || cbn; lia).
  - intros Hlimit. unfold ConnectWiseCatalog.getEndpointDetails.
    rewrite Hlimit.
    now rewrite (collect_paths_prefix _ _ _ (number_of_Z 10) 10) by (reflexivity || cbn; lia).
  - intros limit Hlimit Hk. unfold ConnectWiseCatalog.getEndpointDetails.
    rewrite Hlimit. now rewrite collect_paths_unbounded by exact Hk.
  - reflexivity.
  - reflexivity.
Qed.

Lemma connectwise_details_in_document_order_witness :
  match ConnectWiseCatalog.getEndpointDetails (Some SampleDoc.doc)
          (ConnectWiseCatalog.literal_regexp (JStr "device"))
          {| ConnectWiseCatalog.includeSchemas := JUndefined;
             ConnectWiseCatalog.includeExamples := JUndefined;
             ConnectWiseCatalog.summaryOnly := JBool true;
             ConnectWiseCatalog.maxEndpoints := Some (Finite (3 # 2)) |} with
  | Ok r =>
      field r "matchCount" = Some (JNum 2) /\
      field r "endpoints"
      = Some (JArr (firstn 2
                      (connectwise_endpoints (JBool true) (JBool false) (JBool true)
                         (ConnectWiseCatalog.literal_test "device")
                         (paths SampleDoc.doc))))
  | Throw _ => False
  end.
Proof.
  unfold ConnectWiseCatalog.literal_regexp. cbn [toStr].
  rewrite (proj1 (connectwise_details_in_document_order SampleDoc.doc
                    (ConnectWiseCatalog.literal_test "device")
                    {| ConnectWiseCatalog.includeSchemas := JUndefined;
                       ConnectWiseCatalog.includeExamples := JUndefined;
                       ConnectWiseCatalog.summaryOnly := JBool true;
                       ConnectWiseCatalog.maxEndpoints := Some (Finite (3 # 2)) |})
             (Finite (3 # 2)) 2%nat eq_refl eq_refl (le_S _ _ (le_n 1))).
  split; reflexivity.
Defined.

(** ** The ConnectWise tool handler *)

(** A [switch] case that calls one method and wraps its result, inside the
    [try] of a handler: it returns an envelope, and the world is the one the
    method left. *)
Lemma enveloped {A : Type} (m : Eff A) (f : A -> Envelope) (flag : bool) (w : World) :
  exists envelope,
    try_catch (bind m (fun x => ret (f x)))
      (fun error => ret {| content := "Error: " ++ err_message error; isError := flag |}) w
    = (Ok envelope, snd (m w)).
Proof.
  unfold try_catch, bind. destruct (m w) as [[a|e] w']; cbn; eexists; reflexivity.
Qed.

Lemma ConnectWise_makeRequest_sends nw cfg meth path data qp (w : World) :
  exists l,
    resource_calls (sent (snd (ConnectWiseRMMClient.makeRequest nw cfg meth path data qp w)))
    = (resource_calls (sent w) ++ l)%list /\
    (l = [] \/ exists c, l = [ConnectWiseRMMClient.api_request cfg c meth path data qp]).
Proof.
  pose proof (ConnectWise_makeRequest_calls nw cfg meth path data qp w) as H.
  cbv zeta in H.
  destruct (fst (ConnectWiseRMMClient.authenticate nw cfg w)).
  - eexists. split; [exact H|]. right. eauto.
  - destruct H as [-> H]. exists []. rewrite app_nil_r. split; [exact H | now left].
Qed.

(** What a read of [path] through the handler does. *)
Lemma ConnectWise_read nw cfg (stringify : JsVal -> string) (path : string)
    (data qp : JsVal) (w : World) :
  truthy data = false ->
  exists envelope w' l,
    try_catch
      (bind (ConnectWiseRMMClient.makeRequest nw cfg "GET" path data qp)
            (fun x => ret (success (stringify x))))
      (fun error => ret {| content := "Error: " ++ err_message error; isError := true |}) w
    = (Ok envelope, w') /\
    resource_calls (sent w') = (resource_calls (sent w) ++ l)%list /\
    (List.length l <= 1)%nat /\
    forall r, In r l -> method r = "GET" /\ body r = NoBody.
Proof.
  intros Hdata.
  destruct (enveloped (ConnectWiseRMMClient.makeRequest nw cfg "GET" path data qp)
              (fun x => success (stringify x)) true w) as [envelope Henv].
  destruct (ConnectWise_makeRequest_sends nw cfg "GET" path data qp w) as [l [Hl Hshape]].
  eexists envelope, _, l. split; [exact Henv|]. split; [exact Hl|].
  destruct Hshape as [->|[c ->]]; cbn [List.length].
  - split; [lia | intros r []].
  - split; [lia|]. intros r [<-|[]]. cbn. rewrite Hdata. cbn.
    split; reflexivity.
Qed.

Ltac no_request w :=
  eexists _, w, []; rewrite app_nil_r;
  split; [reflexivity | split; [reflexivity | split; [cbn; lia | intros r []]]].

(** X13: the tools of the ConnectWise server other than
    [connectwise_api_call] and [connectwise_create_ticket] cannot change
    anything on the platform.  Whatever the tool name and the arguments,
    the handler returns an envelope, and it sends at most one request to a
    resource endpoint: a GET without a body. *)
Theorem connectwise_read_tools_only_get nw cfg schema (stringify : JsVal -> string)
    overview regexp untyped (name : string) (args : JsVal) (w : World) :
  name <> "connectwise_api_call" ->
  name <> "connectwise_create_ticket" ->
  exists envelope w' l,
    ConnectWiseServer.handler nw cfg schema stringify overview regexp untyped name args w
    = (Ok envelope, w') /\
    resource_calls (sent w') = (resource_calls (sent w) ++ l)%list /\
    (List.length l <= 1)%nat /\
    forall r, In r l -> method r = "GET" /\ body r = NoBody.
Proof.
  intros Hcall Hcreate.
  unfold ConnectWiseServer.handler, ConnectWiseServer.dispatch.
  destruct (name =? "connectwise_get_schema_overview").
  { unfold try_catch, bind, lift. destruct overview; no_request w. }
  destruct (name =? "connectwise_get_endpoint_details").
  { unfold try_catch, bind, lift.
    destruct (ConnectWiseCatalog.endpoint_details_tool schema regexp args); no_request w. }
  destruct (name =? "connectwise_search_endpoints").
  { unfold try_catch, bind, lift.
    destruct (ConnectWiseServer.searchEndpoints schema (optProp args "query"));
      no_request w. }
  destruct (String.eqb_spec name "connectwise_api_call") as [E|_]; [contradiction|].
  unfold ConnectWiseServer.get.
  destruct (name =? "connectwise_get_companies").
  { eapply ConnectWise_read; reflexivity. }
  destruct (name =? "connectwise_get_company").
  { eapply ConnectWise_read; reflexivity. }
  destruct (name =? "connectwise_get_sites").
  { unfold ConnectWiseServer.sitesPath.
    destruct (truthy (optProp args "companyId")); eapply ConnectWise_read; reflexivity. }
  destruct (name =? "connectwise_get_devices").
  { unfold ConnectWiseServer.devicePath.
    destruct (truthy (optProp args "clientId")), (truthy (optProp args "siteId"));
      eapply ConnectWise_read; reflexivity. }
  destruct (name =? "connectwise_get_device").
  { eapply ConnectWise_read; reflexivity. }
  destruct (name =? "connectwise_get_tickets").
  { eapply ConnectWise_read; reflexivity. }
  destruct (name =? "connectwise_get_ticket").
  { eapply ConnectWise_read; reflexivity. }
  destruct (String.eqb_spec name "connectwise_create_ticket") as [E|_]; [contradiction|].
  unfold try_catch, throw. no_request w.
Qed.

Lemma connectwise_read_tools_only_get_witness :
  exists envelope w' l,
    ConnectWiseServer.handler Sample.net Sample.connectwise (Some SampleDoc.doc)
      (fun _ => "null") (Throw (Error "Schema not loaded"))
      ConnectWiseCatalog.literal_regexp
      (fun _ _ _ _ => ret JNull)
      "connectwise_get_devices" (JObj [("siteId", JStr "s1")]) (start_world 0)
    = (Ok envelope, w') /\
    resource_calls (sent w') = (resource_calls (sent (start_world 0)) ++ l)%list /\
    (List.length l <= 1)%nat /\
    forall r, In r l -> method r = "GET" /\ body r = NoBody.
Proof.
  apply connectwise_read_tools_only_get; discriminate.
Defined.

Lemma copy_truthy_agree (args args' : JsVal) (key : string)
    (params : list (string * JsVal)) :
  truthy_part (optProp args key) = truthy_part (optProp args' key) ->
  ConnectWiseServer.copy_truthy args key params
  = ConnectWiseServer.copy_truthy args' key params.
Proof.
  unfold truthy_part, ConnectWiseServer.copy_truthy.
  destruct (truthy (optProp args key)) eqn:E, (truthy (optProp args' key)) eqn:E';
    intros H.
  - now rewrite H.
  - rewrite H in E. discriminate.
  - rewrite <- H in E'. discriminate.
  - reflexivity.
Qed.

(** X14: arguments the ConnectWise handler tests for truthiness count
    only when they are truthy.  [connectwise_get_devices] with no (or an
    empty) [clientId] does what the call without arguments does, whatever
    [siteId] it is given: the site filter is dropped and the devices of all
    clients are asked for.  [connectwise_get_sites] with no [companyId]
    likewise asks for all sites.  Two [connectwise_get_tickets] calls whose
    six filters agree wherever they are truthy do the same: a filter that is
    0, empty, false or null is not sent, so the number 0 given as page
    number is the same as no page number. *)
Theorem connectwise_falsy_arguments_are_ignored nw cfg schema
    (stringify : JsVal -> string) overview regexp untyped (w : World) :
  let handler :=
    ConnectWiseServer.handler nw cfg schema stringify overview regexp untyped in
  (forall args,
     truthy (optProp args "clientId") = false ->
     handler "connectwise_get_devices" args w
     = handler "connectwise_get_devices" JUndefined w) /\
  (forall args,
     truthy (optProp args "companyId") = false ->
     handler "connectwise_get_sites" args w
     = handler "connectwise_get_sites" JUndefined w) /\
  (forall args args',
     (forall key,
        In key ["pageSize"; "pageNum"; "companyIds"; "statusNames"; "priorityNames";
                "summary"] ->
        truthy_part (optProp args key) = truthy_part (optProp args' key)) ->
     handler "connectwise_get_tickets" args w
     = handler "connectwise_get_tickets" args' w).
Proof.
  intros handler. subst handler. repeat split.
  - intros args Hc.
    assert (Hpath : ConnectWiseServer.devicePath args
                    = ConnectWiseServer.devicePath JUndefined).
    { unfold ConnectWiseServer.devicePath. now rewrite Hc. }
    unfold ConnectWiseServer.handler.
    change (ConnectWiseServer.dispatch nw cfg schema stringify overview regexp untyped
              "connectwise_get_devices" args)
      with (ConnectWiseServer.get nw cfg stringify (ConnectWiseServer.devicePath args)).
    now rewrite Hpath.
  - intros args Hc.
    assert (Hpath : ConnectWiseServer.sitesPath args
                    = ConnectWiseServer.sitesPath JUndefined).
    { unfold ConnectWiseServer.sitesPath. now rewrite Hc. }
    unfold ConnectWiseServer.handler.
    change (ConnectWiseServer.dispatch nw cfg schema stringify overview regexp untyped
              "connectwise_get_sites" args)
      with (ConnectWiseServer.get nw cfg stringify (ConnectWiseServer.sitesPath args)).
    now rewrite Hpath.
  - intros args args' Hagree.
    assert (Hparams : ConnectWiseServer.ticketParams args
                      = ConnectWiseServer.ticketParams args').
    { unfold ConnectWiseServer.ticketParams. cbv zeta.
      rewrite (copy_truthy_agree args args' "pageSize") by (apply Hagree; cbn; tauto).
      rewrite (copy_truthy_agree args args' "pageNum") by (apply Hagree; cbn; tauto).
      rewrite (copy_truthy_agree args args' "companyIds") by (apply Hagree; cbn; tauto).
      rewrite (copy_truthy_agree args args' "statusNames") by (apply Hagree; cbn; tauto).
      rewrite (copy_truthy_agree args args' "priorityNames") by (apply Hagree; cbn; tauto).
      rewrite (copy_truthy_agree args args' "summary") by (apply Hagree; cbn; tauto).
      reflexivity. }
    unfold ConnectWiseServer.handler.
    change (ConnectWiseServer.dispatch nw cfg schema stringify overview regexp untyped
              "connectwise_get_tickets" args)
      with (bind (ConnectWiseRMMClient.makeRequest nw cfg "GET"
                    "/api/platform/v1/service/ticketing/tickets" JNull
                    (ConnectWiseServer.ticketParams args))
                 (fun tickets => ret (success (stringify tickets)))).
    now rewrite Hparams.
Qed.

Lemma connectwise_falsy_arguments_are_ignored_witness :
  ConnectWiseServer.handler Sample.net Sample.connectwise (Some SampleDoc.doc)
    (fun _ => "null") (Throw (Error "Schema not loaded"))
    ConnectWiseCatalog.literal_regexp (fun _ _ _ _ => ret JNull)
    "connectwise_get_tickets" (JObj [("pageNum", JNum 0); ("pageSize", JNum 20)])
    (start_world 0)
  = ConnectWiseServer.handler Sample.net Sample.connectwise (Some SampleDoc.doc)
      (fun _ => "null") (Throw (Error "Schema not loaded"))
      ConnectWiseCatalog.literal_regexp (fun _ _ _ _ => ret JNull)
      "connectwise_get_tickets" (JObj [("pageSize", JNum 20)]) (start_world 0).
Proof.
  apply (proj2 (proj2 (connectwise_falsy_arguments_are_ignored Sample.net
                         Sample.connectwise (Some SampleDoc.doc) (fun _ => "null")
                         (Throw (Error "Schema not loaded"))
                         ConnectWiseCatalog.literal_regexp
                         (fun _ _ _ _ => ret JNull) (start_world 0)))).
  intros key Hkey. cbn in Hkey.
  repeat (destruct Hkey as [<-|Hkey]; [reflexivity|]). destruct Hkey.
Defined.

(** ** The HaloPSA server: required arguments *)

(** X15: the HaloPSA server checks every argument its tool list declares
    as required before it contacts anything.  When a required argument is
    missing, or is empty, 0, false or null, the handler sends no request
    (neither a token request nor an API call), leaves the token cache as it
    was, and answers with an error envelope; when there is an argument
    object the text is "Error: " and the message that names the argument. *)
Theorem halopsa_required_arguments_are_checked nw cfg (stringify : JsVal -> string)
    destructure_error present_tables present_columns present_table_info
    listApiEndpoints getApiEndpointDetails searchApiEndpoints getApiSchemas
    makeApiCall_untyped (w : World) :
  forall tool key,
    In tool HaloPSAServer.tools -> In key (HaloPSAServer.required tool) ->
    forall args,
      truthy (optProp args key) = false ->
      let outcome :=
        HaloPSAServer.handler nw cfg stringify destructure_error present_tables
          present_columns present_table_info listApiEndpoints getApiEndpointDetails
          searchApiEndpoints getApiSchemas makeApiCall_untyped
          (HaloPSAServer.tool_name tool) args w in
      snd outcome = w /\
      exists message,
        fst outcome = Ok {| content := "Error: " ++ message; isError := true |} /\
        (args <> JUndefined -> args <> JNull ->
         message = HaloPSAServer.required_message key).
Proof.
  intros tool key Htool Hkey args Hfalsy.
  cbn in Htool.
  repeat (destruct Htool as [<-|Htool];
          [cbn in Hkey; repeat (destruct Hkey as [<-|Hkey]); try destruct Hkey;
           unfold HaloPSAServer.handler, HaloPSAServer.dispatch, try_catch, bind,
             HaloPSAServer.destructure, HaloPSAServer.require, lift,
             HaloPSAServer.list_columns_sql, HaloPSAServer.table_info_sql,
             HaloPSAServer.build_query;
           cbn [String.eqb Ascii.eqb Bool.eqb HaloPSAServer.tool_name];
           destruct args; cbn [throw ret fst snd];
           try rewrite Hfalsy; cbn [negb throw ret fst snd];
           (split; [reflexivity
                   | eexists; split; [reflexivity | intros; try congruence; reflexivity]])
          |]).
  destruct Htool.
Qed.

Lemma halopsa_required_arguments_are_checked_witness :
  let outcome :=
    HaloPSAServer.handler Sample.net Sample.halo (fun _ => "null")
      (fun _ => TypeError "no arguments") (fun _ r => Ok r) (fun _ _ r => Ok r)
      (fun _ r => Ok r) (fun _ _ _ => Ok JNull) (fun _ _ _ _ _ => Ok JNull)
      (fun _ _ _ => Ok JNull) (fun _ _ _ _ => Ok JNull) (fun _ _ _ _ => ret JNull)
      "halopsa_query" (JObj [("sql", JStr "")]) (start_world 0) in
  snd outcome = start_world 0 /\
  exists message,
    fst outcome = Ok {| content := "Error: " ++ message; isError := true |} /\
    (JObj [("sql", JStr "")] <> JUndefined -> JObj [("sql", JStr "")] <> JNull ->
     message = "SQL query is required").
Proof.
  apply (halopsa_required_arguments_are_checked Sample.net Sample.halo (fun _ => "null")
           (fun _ => TypeError "no arguments") (fun _ r => Ok r) (fun _ _ r => Ok r)
           (fun _ r => Ok r) (fun _ _ _ => Ok JNull) (fun _ _ _ _ _ => Ok JNull)
           (fun _ _ _ => Ok JNull) (fun _ _ _ _ => Ok JNull) (fun _ _ _ _ => ret JNull)
           (start_world 0)
           {| HaloPSAServer.tool_name := "halopsa_query";
              HaloPSAServer.properties := ["sql"; "loadReportOnly"];
              HaloPSAServer.required := ["sql"] |} "sql").
  - cbn. tauto.
  - cbn. tauto.
  - reflexivity.
Defined.

(** ** The two query builders *)

(** X16: the query builder of the HaloPSA server and the one of the
    reporting server generate the same SQL for arguments of the declared
    types: a table name that is not empty, a limit that is a number when it
    is truthy, columns that are an array when they have a positive length,
    and conditions that are not a string.  For such arguments the text the
    reporting tool returns is the [generatedQuery] of the other. *)
Theorem query_builders_agree (args : JsVal) :
  truthy (optProp args "tableName") = true ->
  (truthy (optProp args "limit") = true ->
   HaloPSAServer.typeof_number (optProp args "limit") = true) ->
  (HaloPSAReporting.has_columns (optProp args "columns") = true ->
   HaloPSAServer.isArray (optProp args "columns") = true) ->
  (forall s, optProp args "conditions" <> JStr s) ->
  exists query components,
    HaloPSAReporting.build_query args = Ok query /\
    HaloPSAServer.build_query args
    = Ok (JObj [("generatedQuery", JStr query); ("components", components)]).
Proof.
  intros Htable Hlimit Hcolumns Hconditions.
  assert (Hobj : exists fields, args = JObj fields).
  { destruct args; try discriminate. eauto. }
  destruct Hobj as [fields ->].
  unfold HaloPSAReporting.build_query, HaloPSAServer.build_query.
  cbn [getProp]. change (match lookup "tableName" fields with
                         | Some v => v
                         | None => JUndefined
                         end) with (optProp (JObj fields) "tableName").
  set (a := JObj fields) in *.
  rewrite Htable. cbn [negb].
  assert (Hwhere :
    (truthy (optProp a "conditions") && typeof_object (optProp a "conditions")
     && (0 <? List.length (entries (optProp a "conditions")))%nat)
    = (truthy (optProp a "conditions")
       && (0 <? List.length (entries (optProp a "conditions")))%nat)).
  { destruct (optProp a "conditions") as [| |b|n|s|items|fs]; try reflexivity.
    - now destruct b.
    - now destruct (truthy (JNum n)).
    - now destruct (Hconditions s). }
  assert (Hcols :
    (truthy (optProp a "columns") && HaloPSAServer.isArray (optProp a "columns")
     && num_gt (toNumber (lengthOf (optProp a "columns"))) (Fin 0))
    = HaloPSAReporting.has_columns (optProp a "columns")).
  { unfold HaloPSAReporting.has_columns in *.
    destruct (truthy (optProp a "columns")
              && num_gt (toNumber (lengthOf (optProp a "columns"))) (Fin 0)) eqn:E.
    - rewrite (Hcolumns eq_refl). apply andb_prop in E as [-> ->]. reflexivity.
    - destruct (truthy (optProp a "columns")),
        (HaloPSAServer.isArray (optProp a "columns")); cbn in *; congruence. }
  assert (Hjoin : HaloPSAReporting.has_columns (optProp a "columns") = true ->
                  HaloPSAReporting.joinColumns (optProp a "columns")
                  = Ok match optProp a "columns" with
                       | JArr items => joinVals ", " items
                       | _ => ""
                       end).
  { intros H. specialize (Hcolumns H).
    now destruct (optProp a "columns"). }
  assert (Htop : (truthy (optProp a "limit")
                  && HaloPSAServer.typeof_number (optProp a "limit"))
                 = truthy (optProp a "limit")).
  { destruct (truthy (optProp a "limit")); [now rewrite Hlimit | reflexivity]. }
  unfold HaloPSAReporting.build, HaloPSAServer.generatedQuery,
    HaloPSAReporting.select_list, HaloPSAReporting.where_clause,
    HaloPSAReporting.order_clause.
  rewrite Hwhere, Hcols, Htop.
  destruct (HaloPSAReporting.has_columns (optProp a "columns"));
    [rewrite (Hjoin eq_refl)|];
    destruct (truthy (optProp a "limit")),
      (truthy (optProp a "conditions")
       && (0 <? List.length (entries (optProp a "conditions")))%nat),
      (truthy (optProp a "orderBy"));
    (eexists _, _; split; [reflexivity|]; do 4 f_equal;
     rewrite ?str_app_assoc, ?str_app_nil_r; reflexivity).
Qed.

Lemma query_builders_agree_witness :
  exists query components,
    HaloPSAReporting.build_query
      (JObj [("tableName", JStr "FAULTS"); ("limit", JNum 10);
             ("conditions", JObj [("Status", JStr "Open")])])
    = Ok query /\
    HaloPSAServer.build_query
      (JObj [("tableName", JStr "FAULTS"); ("limit", JNum 10);
             ("conditions", JObj [("Status", JStr "Open")])])
    = Ok (JObj [("generatedQuery", JStr query); ("components", components)]).
Proof.
  apply query_builders_agree.
  - reflexivity.
  - reflexivity.
  - discriminate.
  - discriminate.
Defined.

(** ** The overview of the API description *)

Lemma push_group_keys (g : list (string * list string)) (cat p c : string) :
  In c (map fst (SchemaOverview.push_group g cat p)) <-> c = cat \/ In c (map fst g).
Proof.
  induction g as [|[c0 ps] g IH]; cbn [SchemaOverview.push_group map fst In].
  - intuition congruence.
  - destruct (String.eqb_spec c0 cat) as [->|Hne]; cbn [map fst In].
    + intuition congruence.
    + rewrite IH. intuition congruence.
Qed.

Lemma push_group_NoDup (g : list (string * list string)) (cat p : string) :
  NoDup (map fst g) -> NoDup (map fst (SchemaOverview.push_group g cat p)).
Proof.
  induction g as [|[c0 ps] g IH]; intros Hnd; cbn [SchemaOverview.push_group map fst].
  - repeat constructor. intros [].
  - inversion Hnd as [|? ? Hnotin Hnd']; subst.
    destruct (String.eqb_spec c0 cat) as [->|Hne]; cbn [map fst].
    + now constructor.
    + constructor; [|now apply IH].
      rewrite push_group_keys. intros [->|Hin]; [now apply Hne | now apply Hnotin].
Qed.

Lemma push_group_In (g : list (string * list string)) (cat p c : string)
    (ps : list string) :
  NoDup (map fst g) ->
  (In (c, ps) (SchemaOverview.push_group g cat p) <->
   (c <> cat /\ In (c, ps) g) \/
   (c = cat /\ ((exists old, In (cat, old) g /\ ps = (old ++ [p])%list) \/
                (~ In cat (map fst g) /\ ps = [p])))).
Proof.
  induction g as [|[c0 ps0] g IH]; intros Hnd;
    cbn [SchemaOverview.push_group map fst In].
  - split.
    + intros [[= <- <-]|[]]. right. split; [reflexivity|]. right. now split.
    + intros [[_ []]|[-> [[old [[] _]]|[_ ->]]]]. now left.
  - inversion Hnd as [|? ? Hnotin Hnd']; subst.
    destruct (String.eqb_spec c0 cat) as [->|Hne]; cbn [In].
    + split.
      * intros [[= <- <-]|Hin].
        -- right. split; [reflexivity|]. left. exists ps0. split; [now left | reflexivity].
        -- left. split; [|now right]. intros ->. apply Hnotin.
           apply in_map_iff. now exists (cat, ps).
      * intros [[Hc [[= -> _]|Hin]]|[-> [[old [[[= ->]|Hin] ->]]|[Hno _]]]].
        -- now destruct Hc.
        -- now right.
        -- now left.
        -- exfalso. apply Hnotin. apply in_map_iff. now exists (cat, old).
        -- exfalso. apply Hno. now left.
    + rewrite (IH Hnd'). split.
      * intros [[= <- <-]|[[Hc Hin]|[-> [[old [Hin ->]]|[Hno ->]]]]].
        -- left. split; [exact Hne | now left].
        -- left. split; [exact Hc | now right].
        -- right. split; [reflexivity|]. left. exists old. split; [now right | reflexivity].
        -- right. split; [reflexivity|]. right. split; [|reflexivity].
           intros [Heq|Hin]; [now apply Hne | now apply Hno].
      * intros [[Hc [[= <- <-]|Hin]]|[-> [[old [[[= -> ->]|Hin] ->]]|[Hno ->]]]].
        -- now left.
        -- right. left. now split.
        -- now destruct Hne.
        -- right. right. split; [reflexivity|]. left. now exists old.
        -- right. right. split; [reflexivity|]. right. split; [|reflexivity].
           intros Hin. apply Hno. now right.
Qed.

(** What the two loop variables hold after the entries [l]. *)
Lemma overview_walk (categorize : string -> string) (l : list (string * JsVal)) :
  let st := fold_left (SchemaOverview.visit categorize) l
              {| SchemaOverview.pathGroups := []; SchemaOverview.allPaths := [] |} in
  SchemaOverview.allPaths st
  = map (fun e => SchemaOverview.path_info (fst e) (snd e)) l /\
  NoDup (map fst (SchemaOverview.pathGroups st)) /\
  forall c ps,
    In (c, ps) (SchemaOverview.pathGroups st) <->
    ps <> [] /\ ps = filter (fun p => categorize p =? c) (map fst l).
Proof.
  cbv zeta. induction l as [|e l IH] using rev_ind.
  - cbn. split; [reflexivity|]. split; [constructor|].
    intros c ps. split; [intros [] | intros [H ->]; now apply H].
  - destruct IH as (Hall & Hnd & Hgroups).
    rewrite fold_left_app. cbn [fold_left].
    remember (fold_left _ l _) as st eqn:Est; clear Est.
    unfold SchemaOverview.visit at 1 2 3.
    cbn [SchemaOverview.allPaths SchemaOverview.pathGroups].
    split; [|split].
    + now rewrite Hall, map_app.
    + now apply push_group_NoDup.
    + intros c ps. rewrite (push_group_In _ _ _ _ _ Hnd).
      rewrite map_app, filter_app. cbn [map filter].
      set (cat := categorize (fst e)). set (p := fst e).
      set (F := fun c => filter (fun q => categorize q =? c) (map fst l)) in *.
      change (filter (fun q => categorize q =? c) (map fst l)) with (F c).
      assert (HF : forall k qs, In (k, qs) (SchemaOverview.pathGroups st) <->
                                qs <> [] /\ qs = F k) by exact Hgroups.
      destruct (String.eqb_spec cat c) as [<-|Hne].
      * split.
        -- intros [[Hc _]|[_ [[old [Hin ->]]|[Hno ->]]]].
           ++ now destruct Hc.
           ++ apply HF in Hin as [_ ->]. split; [|reflexivity].
              destruct (F cat); discriminate.
           ++ split; [discriminate|].
              destruct (F cat) as [|x r] eqn:E; [reflexivity|].
              exfalso. apply Hno. apply in_map_iff. exists (cat, F cat).
              split; [reflexivity|]. apply HF. rewrite E. split; [discriminate|reflexivity].
        -- intros [_ ->]. right. split; [reflexivity|].
           destruct (F cat) as [|x r] eqn:E.
           ++ right. split; [|reflexivity]. intros Hin.
              apply in_map_iff in Hin as [[k old] [Hk Hin]]. cbn in Hk. subst k.
              apply HF in Hin as [Hne Hold]. rewrite E in Hold. now apply Hne.
           ++ left. exists (x :: r). split; [|reflexivity].
              apply HF. rewrite E. split; [discriminate | reflexivity].
      * rewrite app_nil_r. split.
        -- intros [[_ Hin]|[-> _]]; [now apply HF | now destruct Hne].
        -- intros H. left. split; [|now apply HF]. intros ->. now apply Hne.
Qed.

Lemma overview_report_holds (categorize : string -> string) (message : string)
    (doc : SchemaDocument) :
  overview_report categorize doc (SchemaOverview.overview categorize message doc).
Proof.
  unfold overview_report, SchemaOverview.overview.
  destruct (overview_walk categorize (paths doc)) as (Hall & Hnd & Hgroups).
  cbv zeta. rewrite Hall, length_map.
  split; [reflexivity|]. split.
  - cbn [field lookup String.eqb Ascii.eqb Bool.eqb].
    change 100%Z with (0 + 100)%Z. rewrite slice_page by lia.
    cbn [Z.to_nat Pos.to_nat Pos.iter_op Nat.add skipn]. now rewrite firstn_map.
  - eexists. split; [reflexivity|]. split; [exact Hnd | exact Hgroups].
Qed.

(** X17: the overview of the API description counts and groups every
    path.  In the result of [getApiSchemaOverview] of the NinjaOne and
    HaloPSA clients, [totalPaths] is the number of paths of the description;
    [allPaths] describes the first 100 of them, in document order; and
    [pathGroups] has one group for each category that some path has, none
    of them empty, each holding exactly the paths the client's categorizer
    puts in that category, in document order: a path beyond the first 100 is
    still counted and grouped. *)
Theorem overview_groups_every_path (doc : SchemaDocument) :
  overview_report NinjaOne.categorizeApiPath doc
    (NinjaOneOverview.getApiSchemaOverview doc) /\
  overview_report HaloPSA.categorizeApiPath doc
    (HaloPSAOverview.getApiSchemaOverview doc).
Proof. split; apply overview_report_holds. Qed.

(** ** The NinjaOne tools that only read *)

Lemma only_gets_still {A : Type} (m : Eff A) :
  (forall w, sent (snd (m w)) = sent w) -> only_gets m.
Proof.
  intros H w. exists []. rewrite H, app_nil_r. split; [reflexivity | intros r []].
Qed.

Lemma only_gets_throw {A : Type} (e : JsError) : only_gets (@throw A e).
Proof. now apply only_gets_still. Qed.

Lemma only_gets_ret {A : Type} (a : A) : only_gets (ret a).
Proof. now apply only_gets_still. Qed.

Lemma only_gets_lift {A : Type} (r : Result A) : only_gets (lift r).
Proof. now apply only_gets_still. Qed.

Lemma only_gets_bind {A B : Type} (m : Eff A) (k : A -> Eff B) :
  only_gets m -> (forall a, only_gets (k a)) -> only_gets (bind m k).
Proof.
  intros Hm Hk w. destruct (Hm w) as [l1 [E1 G1]]. unfold bind.
  destruct (m w) as [[a|e] w1]; cbn [snd] in E1.
  - destruct (Hk a w1) as [l2 [E2 G2]]. exists (l1 ++ l2)%list.
    rewrite E2, E1, app_assoc. split; [reflexivity|].
    intros r Hr. apply in_app_or in Hr as [Hr|Hr]; auto.
  - exists l1. now split.
Qed.

Lemma only_gets_try_catch {A : Type} (m : Eff A) (h : JsError -> Eff A) :
  only_gets m -> (forall e, only_gets (h e)) -> only_gets (try_catch m h).
Proof.
  intros Hm Hh w. destruct (Hm w) as [l1 [E1 G1]]. unfold try_catch.
  destruct (m w) as [[a|e] w1]; cbn [snd] in E1.
  - exists l1. now split.
  - destruct (Hh e w1) as [l2 [E2 G2]]. exists (l1 ++ l2)%list.
    rewrite E2, E1, app_assoc. split; [reflexivity|].
    intros r Hr. apply in_app_or in Hr as [Hr|Hr]; auto.
Qed.

Lemma only_gets_fetch nw (r : Request) :
  method r = "GET" -> body r = NoBody -> only_gets (fetch nw r).
Proof.
  intros Hm Hb w. exists [r]. unfold fetch. cbn [snd sent].
  rewrite resource_calls_snoc. split; [reflexivity|].
  now intros r' [<-|[]].
Qed.

Lemma only_gets_response_json {A : Type} (r : Response A) : only_gets (response_json r).
Proof. unfold response_json. destruct (json r); now apply only_gets_still. Qed.

Lemma only_gets_request nw cfg (path : string) :
  only_gets (NinjaOneClient.request nw cfg path "GET" NoBody).
Proof.
  intros w. pose proof (NinjaOne_request_calls nw cfg path "GET" NoBody w) as H.
  cbv zeta in H.
  destruct (fst (NinjaOneClient.ensureAuthenticated nw cfg w)).
  - eexists. split; [exact H|]. now intros r [<-|[]].
  - destruct H as [-> H]. exists []. rewrite app_nil_r. split; [exact H | intros r []].
Qed.

Lemma only_gets_listing nw encode cfg (path : string) params :
  only_gets (NinjaOneMethods.listing nw encode cfg path params).
Proof.
  unfold NinjaOneMethods.listing. destruct params;
    [apply only_gets_request | apply only_gets_throw].
Qed.

Lemma only_gets_fetch_docs nw : only_gets (NinjaOneMethods.fetch_docs nw).
Proof.
  unfold NinjaOneMethods.fetch_docs. apply only_gets_bind.
  - now apply only_gets_fetch.
  - intros response. destruct (negb (ok response));
      [apply only_gets_throw | apply only_gets_response_json].
Qed.

Lemma only_gets_docs nw (f : JsVal -> Result JsVal) (message : string) :
  only_gets (try_catch (bind (NinjaOneMethods.fetch_docs nw) (fun schema => lift (f schema)))
               (fun _ => throw (Error message))).
Proof.
  apply only_gets_try_catch.
  - apply only_gets_bind; [apply only_gets_fetch_docs | intros; apply only_gets_lift].
  - intros. apply only_gets_throw.
Qed.

Ltac reads_only :=
  first [ apply only_gets_listing | apply only_gets_request | apply only_gets_docs ].

(** The client methods the reading tools call send only GET requests. *)
Lemma reading_case_only_gets nw encode overview_of details_of untyped cfg
    (name : string) (case : NinjaOneServer.Case) (args : list JsVal) :
  ~ In name ["ninjaone_reset_alert"; "ninjaone_update_device_custom_fields";
             "ninjaone_run_script"; "ninjaone_api_call"] ->
  NinjaOneServer.find_case name NinjaOneServer.cases = Some case ->
  only_gets (NinjaOneMethods.client_method nw encode overview_of details_of untyped
               cfg (NinjaOneServer.calls case) args).
Proof.
  intros Hread Hcase. unfold NinjaOneServer.cases in Hcase.
  cbn [NinjaOneServer.find_case] in Hcase.
  repeat match type of Hcase with
         | (if ?a =? name then _ else _) = _ =>
             destruct (String.eqb_spec a name) as [<-|_];
             [ injection Hcase as <-;
               first [ exfalso; apply Hread; cbn; tauto
                     | unfold NinjaOneMethods.client_method;
                       cbn [NinjaOneServer.calls String.eqb Ascii.eqb Bool.eqb];
                       reads_only ]
             | ]
         end.
  discriminate Hcase.
Qed.

(** X18: the tools of the NinjaOne server other than
    [ninjaone_reset_alert], [ninjaone_update_device_custom_fields],
    [ninjaone_run_script] and [ninjaone_api_call] cannot change anything on
    the platform.  Whatever the tool name, the arguments and the state of
    the server, every request the handler sends to a resource endpoint is a
    GET without a body; a call that fails before the request is built (no
    credentials, a page size that is null, a status that is not a string)
    sends none. *)
Theorem ninjaone_read_tools_only_get env (stringify : JsVal -> string) nw encode
    overview_of details_of untyped (name : string) (args : JsVal)
    (s : NinjaOneServer.Server) :
  ~ In name ["ninjaone_reset_alert"; "ninjaone_update_device_custom_fields";
             "ninjaone_run_script"; "ninjaone_api_call"] ->
  exists l,
    resource_calls
      (sent (NinjaOneServer.world
               (snd (NinjaOneServer.handler env stringify
                       (NinjaOneMethods.client_method nw encode overview_of details_of
                          untyped)
                       name args s))))
    = (resource_calls (sent (NinjaOneServer.world s)) ++ l)%list /\
    forall r, In r l -> method r = "GET" /\ body r = NoBody.
Proof.
  intros Hread. unfold NinjaOneServer.handler.
  destruct (match NinjaOneServer.ninjaClient s with
            | Some c => Ok c
            | None => NinjaOneServer.initializeClient env
            end) as [c|e].
  - assert (Hdispatch : only_gets
              (try_catch
                 (NinjaOneServer.dispatch stringify
                    (NinjaOneMethods.client_method nw encode overview_of details_of
                       untyped) c name args)
                 (fun error => ret {| content := "Error: " ++ err_message error;
                                      isError := false |}))).
    { apply only_gets_try_catch; [|intros; apply only_gets_ret].
      unfold NinjaOneServer.dispatch.
      destruct (NinjaOneServer.find_case name NinjaOneServer.cases) as [case|] eqn:Hcase;
        [|apply only_gets_throw].
      apply only_gets_bind; [|intros; apply only_gets_ret].
      now apply (reading_case_only_gets _ _ _ _ _ _ name). }
    destruct (Hdispatch (NinjaOneServer.world s)) as [l [El Gl]].
    exists l. split; [|exact Gl].
    destruct (try_catch _ _ (NinjaOneServer.world s)) as [r w']. exact El.
  - exists []. cbn. rewrite app_nil_r. split; [reflexivity | intros r []].
Qed.

Lemma ninjaone_read_tools_only_get_witness :
  exists l,
    resource_calls
      (sent (NinjaOneServer.world
               (snd (NinjaOneServer.handler
                       {| NinjaOneServer.NINJAONE_CLIENT_ID := Some "id";
                          NinjaOneServer.NINJAONE_CLIENT_SECRET := Some "secret";
                          NinjaOneServer.NINJAONE_REGION := None;
                          NinjaOneServer.NINJAONE_SCOPE := None |}
                       (fun _ => "null")
                       (NinjaOneMethods.client_method Sample.net (fun _ => "")
                          (fun v => Ok v) (fun v _ => Ok v)
                          (fun _ _ _ _ _ => ret JNull))
                       "ninjaone_get_devices" (JObj [("pageSize", JNum 10)])
                       {| NinjaOneServer.ninjaClient := None;
                          NinjaOneServer.world := start_world 0 |}))))
    = (resource_calls (sent (start_world 0)) ++ l)%list /\
    forall r, In r l -> method r = "GET" /\ body r = NoBody.
Proof.
  apply (ninjaone_read_tools_only_get
           {| NinjaOneServer.NINJAONE_CLIENT_ID := Some "id";
              NinjaOneServer.NINJAONE_CLIENT_SECRET := Some "secret";
              NinjaOneServer.NINJAONE_REGION := None;
              NinjaOneServer.NINJAONE_SCOPE := None |}
           (fun _ => "null") Sample.net (fun _ => "") (fun v => Ok v) (fun v _ => Ok v)
           (fun _ _ _ _ _ => ret JNull) "ninjaone_get_devices"
           (JObj [("pageSize", JNum 10)])
           {| NinjaOneServer.ninjaClient := None;
              NinjaOneServer.world := start_world 0 |}).
  cbn. intuition discriminate.
Defined.

(** ** The device search of the NinjaOne client *)

Lemma upper_upper_char (c : ascii) : upper_char (upper_char c) = upper_char c.
Proof. destruct c as [[] [] [] [] [] [] [] []]; reflexivity. Qed.

Lemma toUpperCase_idempotent (s : string) : toUpperCase (toUpperCase s) = toUpperCase s.
Proof. induction s as [|c s IH]; cbn; [reflexivity|]. now rewrite upper_upper_char, IH. Qed.

Lemma truthy_toUpperCase (s : string) : truthy (JStr (toUpperCase s)) = truthy (JStr s).
Proof. now destruct s. Qed.

(** X19: how [searchDevices] of the NinjaOne client reads the status it
    is given.  The status is compared without regard to letter case;
    "STALE" gives the same filter as "OFFLINE"; and a status that is none of
    ONLINE, OFFLINE and STALE adds no filter at all, so that a search by
    such a status alone is the plain listing of all devices. *)
Theorem searchDevices_status nw encode cfg
    (hostname os organization location deviceType pageSize after : JsVal) (s : string) :
  let filters := fun status =>
    NinjaOneMethods.searchDevices_filters hostname status os organization location
      deviceType in
  filters (JStr (toUpperCase s)) = filters (JStr s) /\
  filters (JStr (toLowerCase s)) = filters (JStr s) /\
  filters (JStr "STALE") = filters (JStr "OFFLINE") /\
  (~ In (toUpperCase s) ["ONLINE"; "OFFLINE"; "STALE"] ->
   filters (JStr s) = filters JUndefined /\
   NinjaOneMethods.searchDevices nw encode cfg JUndefined (JStr s) JUndefined JUndefined
     JUndefined JUndefined pageSize after
   = NinjaOneMethods.getDevices nw encode cfg pageSize after JUndefined).
Proof.
  assert (Hlower : toUpperCase (toLowerCase s) = toUpperCase s).
  { induction s as [|c s IH]; cbn; [reflexivity|]. rewrite IH. f_equal.
    destruct c as [[] [] [] [] [] [] [] []]; reflexivity. }
  assert (Htl : truthy (JStr (toLowerCase s)) = truthy (JStr s)) by now destruct s.
  intros filters. subst filters. cbv beta.
  assert (Hmap : ~ In (toUpperCase s) ["ONLINE"; "OFFLINE"; "STALE"] ->
                 NinjaOneMethods.statusMap (toUpperCase s) = None).
  { intros Hnone. unfold NinjaOneMethods.statusMap.
    destruct (String.eqb_spec (toUpperCase s) "ONLINE") as [E|_];
      [exfalso; apply Hnone; rewrite E; cbn; tauto|].
    destruct (String.eqb_spec (toUpperCase s) "OFFLINE") as [E|_];
      [exfalso; apply Hnone; rewrite E; cbn; tauto|].
    destruct (String.eqb_spec (toUpperCase s) "STALE") as [E|_];
      [exfalso; apply Hnone; rewrite E; cbn; tauto|].
    reflexivity. }
  split; [|split; [|split]].
  - cbv beta iota delta [NinjaOneMethods.searchDevices_filters].
    now rewrite truthy_toUpperCase, toUpperCase_idempotent.
  - cbv beta iota delta [NinjaOneMethods.searchDevices_filters].
    now rewrite Htl, Hlower.
  - reflexivity.
  - intros Hnone. specialize (Hmap Hnone). split.
    + cbv beta iota delta [NinjaOneMethods.searchDevices_filters].
      rewrite Hmap. destruct (truthy (JStr s)); reflexivity.
    + unfold NinjaOneMethods.searchDevices, NinjaOneMethods.getDevices,
        NinjaOneMethods.searchDevices_params.
      cbv beta iota delta [NinjaOneMethods.searchDevices_filters].
      rewrite Hmap. destruct (truthy (JStr s)); reflexivity.
Qed.

Lemma searchDevices_status_witness :
  NinjaOneMethods.searchDevices Sample.net (fun _ => "") Sample.ninja JUndefined
    (JStr "sleeping") JUndefined JUndefined JUndefined JUndefined (JNum 10) JUndefined
  = NinjaOneMethods.getDevices Sample.net (fun _ => "") Sample.ninja (JNum 10)
      JUndefined JUndefined.
Proof.
  refine (proj2 (proj2 (proj2 (proj2
           (searchDevices_status Sample.net (fun _ => "") Sample.ninja JUndefined
              JUndefined JUndefined JUndefined JUndefined (JNum 10) JUndefined
              "sleeping"))) _)).
  cbn. intuition discriminate.
Defined.

(** ** The bodies of the generic calls *)

Lemma NinjaOne_request_sends nw cfg path meth payload (w : World) :
  exists l,
    resource_calls (sent (snd (NinjaOneClient.request nw cfg path meth payload w)))
    = (resource_calls (sent w) ++ l)%list /\
    (l = [] \/ exists c, l = [NinjaOneClient.api_request cfg c path meth payload]).
Proof.
  pose proof (NinjaOne_request_calls nw cfg path meth payload w) as H.
  cbv zeta in H.
  destruct (fst (NinjaOneClient.ensureAuthenticated nw cfg w)).
  - eexists. split; [exact H|]. right. eauto.
  - destruct H as [-> H]. exists []. rewrite app_nil_r. split; [exact H | now left].
Qed.

Lemma HaloPSA_makeApiCall_sends nw cfg path meth payload qp (w : World) :
  exists l,
    resource_calls (sent (snd (HaloPSAClient.makeApiCall nw cfg path meth payload qp w)))
    = (resource_calls (sent w) ++ l)%list /\
    (l = [] \/ exists c, l = [HaloPSAClient.api_request cfg c path meth payload qp]).
Proof.
  pose proof (HaloPSA_makeApiCall_calls nw cfg path meth payload qp w) as H.
  cbv zeta in H.
  destruct (fst (HaloPSAClient.authenticate nw cfg w)).
  - eexists. split; [exact H|]. right. eauto.
  - destruct H as [-> H]. exists []. rewrite app_nil_r. split; [exact H | now left].
Qed.

(** X20: the generic call of each client sends a body only with a
    writing method and a truthy payload.  Every request that
    [makeApiCall] of the NinjaOne and HaloPSA clients and [makeRequest] of
    the ConnectWise client send to a resource endpoint carries the method it
    was given; if it has a body, the payload is truthy and the method is
    POST, PUT or PATCH, written so for the first two clients and in any
    letter case for the third.  A payload given with GET or DELETE, and a
    payload that is 0, empty, false or null, is never sent. *)
Theorem generic_calls_send_bodies_only_when_writing nw (w : World)
    (path meth : string) (payload queryParams : JsVal) :
  (forall encode untyped cfg, exists l,
     resource_calls
       (sent (snd (NinjaOneMethods.makeApiCall nw encode untyped cfg (JStr path)
                     (JStr meth) payload queryParams w)))
     = (resource_calls (sent w) ++ l)%list /\
     forall r, In r l ->
       method r = meth /\
       (body r <> NoBody ->
        truthy payload = true /\ In meth ["POST"; "PUT"; "PATCH"])) /\
  (forall cfg, exists l,
     resource_calls
       (sent (snd (HaloPSAClient.makeApiCall nw cfg path meth payload queryParams w)))
     = (resource_calls (sent w) ++ l)%list /\
     forall r, In r l ->
       method r = meth /\
       (body r <> NoBody ->
        truthy payload = true /\ In meth ["POST"; "PUT"; "PATCH"])) /\
  (forall cfg, exists l,
     resource_calls
       (sent (snd (ConnectWiseRMMClient.makeRequest nw cfg meth path payload
                     queryParams w)))
     = (resource_calls (sent w) ++ l)%list /\
     forall r, In r l ->
       method r = meth /\
       (body r <> NoBody ->
        truthy payload = true /\ In (toUpperCase meth) ["POST"; "PUT"; "PATCH"])).
Proof.
  assert (Hwrites : forall m : string,
            (m =? "POST") || (m =? "PUT") || (m =? "PATCH") = true ->
            In m ["POST"; "PUT"; "PATCH"]).
  { intros m H. apply orb_prop in H as [H|H]; [apply orb_prop in H as [H|H]|];
      apply String.eqb_eq in H; subst; cbn; tauto. }
  repeat split.
  - intros encode untyped cfg. unfold NinjaOneMethods.makeApiCall.
    cbn [NinjaOneMethods.defaulted].
    match goal with
    | |- context [NinjaOneClient.request nw cfg ?u meth ?b w] =>
        destruct (NinjaOne_request_sends nw cfg u meth b w) as [l [El Hl]]
    end.
    exists l. split; [exact El|].
    destruct Hl as [->|[c ->]]; intros r Hr; [destruct Hr|].
    destruct Hr as [<-|[]]. cbn [NinjaOneClient.api_request method body].
    split; [reflexivity|]. unfold NinjaOneMethods.call_body.
    destruct (truthy payload); cbn [andb]; [|congruence].
    destruct ((meth =? "POST") || (meth =? "PUT") || (meth =? "PATCH")) eqn:E;
      [|congruence].
    intros _. split; [reflexivity | now apply Hwrites].
  - intros cfg.
    destruct (HaloPSA_makeApiCall_sends nw cfg path meth payload queryParams w)
      as [l [El Hl]].
    exists l. split; [exact El|].
    destruct Hl as [->|[c ->]]; intros r Hr; [destruct Hr|].
    destruct Hr as [<-|[]]. cbn [HaloPSAClient.api_request method body].
    split; [reflexivity|]. unfold HaloPSAClient.call_body, HaloPSAClient.sends_body.
    destruct (truthy payload); cbn [andb]; [|congruence].
    destruct ((meth =? "POST") || (meth =? "PUT") || (meth =? "PATCH")) eqn:E;
      [|congruence].
    intros _. split; [reflexivity | now apply Hwrites].
  - intros cfg.
    destruct (ConnectWise_makeRequest_sends nw cfg meth path payload queryParams w)
      as [l [El Hl]].
    exists l. split; [exact El|].
    destruct Hl as [->|[c ->]]; intros r Hr; [destruct Hr|].
    destruct Hr as [<-|[]]. cbn [ConnectWiseRMMClient.api_request method body].
    split; [reflexivity|]. unfold ConnectWiseRMMClient.sends_body.
    destruct (truthy payload); cbn [andb]; [|congruence].
    destruct ((toUpperCase meth =? "POST") || (toUpperCase meth =? "PUT")
              || (toUpperCase meth =? "PATCH")) eqn:E; [|congruence].
    intros _. split; [reflexivity | now apply Hwrites].
Qed.

(** ** Endpoint details when the limit is left out, or is not a number *)

(** With an integer for a limit the loop is the loop of the integer limit. *)
Lemma count_ge_cap_integer (K n : Z) :
  count_ge n (EndpointDetailsAny.cap (number_of_Z K)) = (n >=? Z.min K 50)%Z.
Proof.
  unfold EndpointDetailsAny.cap, number_of_Z, math_min. rewrite Qle_bool_inject.
  destruct (Z.leb_spec K 50); rewrite count_ge_ceiling, Qceiling_Z, Z.geb_leb;
    f_equal; lia.
Qed.

Lemma scan_any_integer (wd so isc ie : bool) (pathPattern : string) (K : Z)
    (l acc : list (string * JsVal)) (n : Z) :
  EndpointDetailsAny.scan wd so isc ie pathPattern (number_of_Z K) l acc n
  = EndpointDetails.scan wd so isc ie pathPattern K l acc n.
Proof.
  revert acc n; induction l as [|[path pathObj] l IH]; intros acc n;
    cbn [EndpointDetailsAny.scan EndpointDetails.scan]; [reflexivity|].
  rewrite count_ge_cap_integer, !IH. reflexivity.
Qed.

Lemma details_any_integer (wd : bool) (doc : SchemaDocument) (pathPattern : string)
    (so isc : bool) (K : Z) (ie : bool) :
  EndpointDetailsAny.getApiEndpointDetails wd doc pathPattern so isc
    (Some (number_of_Z K)) ie
  = EndpointDetails.getApiEndpointDetails wd doc pathPattern so isc K ie.
Proof.
  unfold EndpointDetailsAny.getApiEndpointDetails, EndpointDetails.getApiEndpointDetails.
  rewrite scan_any_integer.
  destruct (EndpointDetails.scan _ _ _ _ _ _ _ _ _) as [shown n].
  now rewrite count_ge_cap_integer.
Qed.

(** X21: the limit of [getApiEndpointDetails] of the NinjaOne and HaloPSA
    clients when it is left out, and when it is NaN.  Called without
    [maxEndpoints], the method does what it does with [maxEndpoints = 10],
    the default of the parameter, and with an integer it does what the loop
    with that integer limit does.  With NaN the comparison that stops the
    loop is never true: every matching path is returned, in document order,
    [matchCount] equals [totalMatches], and [limited] is false. *)
Theorem details_cap_default_and_not_a_number (withDescription : bool)
    (doc : SchemaDocument) (pathPattern : string) (summaryOnly includeSchemas : bool)
    (includeExamples : bool) :
  NoDup (map fst (paths doc)) ->
  let r := EndpointDetailsAny.getApiEndpointDetails withDescription doc pathPattern
             summaryOnly includeSchemas (Some NotANumber) includeExamples in
  let total := Z.of_nat (List.length (matching_paths doc pathPattern)) in
  (field r "matchingPaths"
   = Some (JObj (map (EndpointDetails.shown withDescription summaryOnly includeSchemas
                        includeExamples)
                     (matching_paths doc pathPattern))) /\
   field r "matchCount" = Some (JNum total) /\
   field r "totalMatches" = Some (JNum total) /\
   field r "limited" = Some (JBool false)) /\
  EndpointDetailsAny.getApiEndpointDetails withDescription doc pathPattern
    summaryOnly includeSchemas None includeExamples
  = EndpointDetails.getApiEndpointDetails withDescription doc pathPattern
      summaryOnly includeSchemas 10 includeExamples /\
  forall K,
    EndpointDetailsAny.getApiEndpointDetails withDescription doc pathPattern
      summaryOnly includeSchemas (Some (number_of_Z K)) includeExamples
    = EndpointDetails.getApiEndpointDetails withDescription doc pathPattern
        summaryOnly includeSchemas K includeExamples.
Proof.
  intros Hnd r total. subst r.
  split; [|split].
  - unfold EndpointDetailsAny.getApiEndpointDetails.
    rewrite (scan_any_unbounded _ _ _ _ _ _ _ _ Hnd) by (intros k _ []).
    unfold EndpointDetails.matching. fold (matching_paths doc pathPattern).
    cbn [app Z.add]. fold total.
    cbn [EndpointDetailsAny.cap math_min count_ge].
    destruct (includeSchemas && negb summaryOnly && (0 <? total)%Z);
      repeat split; reflexivity.
  - apply (details_any_integer withDescription doc pathPattern summaryOnly
             includeSchemas 10 includeExamples).
  - intros K. apply details_any_integer.
Qed.

Lemma details_cap_default_and_not_a_number_witness :
  field (EndpointDetailsAny.getApiEndpointDetails false SampleDoc.doc "device"
           true false (Some NotANumber) false) "matchCount"
  = Some (JNum 5) /\
  field (EndpointDetailsAny.getApiEndpointDetails false SampleDoc.doc "device"
           true false (Some NotANumber) false) "limited"
  = Some (JBool false).
Proof.
  assert (Hnd : NoDup (map fst (paths SampleDoc.doc))).
  { repeat constructor; cbn; intuition discriminate. }
  destruct (proj1 (details_cap_default_and_not_a_number false SampleDoc.doc "device"
                     true false false Hnd)) as (_ & Hcount & _ & Hlimited).
  split; [exact Hcount | exact Hlimited].
Defined.
